(** * Displayed-data export pipeline (useDisplayedDataExport.ts)

    A shallow embedding of the export hook of the dashboard: the table
    scanner, the tab-aware collector, the cell/row extractor with its
    scroll/overflow neutraliser, the CSV and PDF serialisers and the export
    orchestrator, followed by the properties proved about them.

    Conventions of the embedding.
    - A JavaScript string is the list of its UTF-16 code units ([jsstring]).
    - The document is a tree of nodes; every element carries the identity of
      the object it stands for ([nid]).  What the repository's code mutates
      (inline style, scroll offset) lives in a store indexed by identity.
    - What the browser or a library decides (layout, markup serialisation,
      the reaction of the application to a click, the clock, the PDF
      library) is an input of the model.
    - Effectful code runs in a state-and-exception monad over [World]. *)

From Stdlib Require Import String Ascii NArith ZArith QArith DecimalString Lia.
From Stdlib Require DecimalPos DecimalN.
From stdpp Require Import base option list gmap.

Set Warnings "-register-all".
Local Open Scope N_scope.

(** ** JavaScript strings *)

Abbreviation jsstring := (list N).

Definition js (s : string) : jsstring :=
  List.map N_of_ascii (list_ascii_of_string s).
Arguments js s%_string.

Definition DQUOTE : N := 34.
Definition COMMA : N := 44.
Definition LF : N := 10.
Definition BACKSLASH : N := 92.
Definition DOLLAR : N := 36.
Definition EURO : N := 8364.
Definition POUND : N := 163.
Definition EMDASH : N := 8212.

(** [String.prototype.startsWith] and [String.prototype.includes]. *)
Fixpoint startsWith (s p : jsstring) : bool :=
  match p, s with
  | [], _ => true
  | _ :: _, [] => false
  | c :: p', d :: s' => (c =? d) && startsWith s' p'
  end.

Fixpoint includes (s needle : jsstring) : bool :=
  startsWith s needle ||
  match s with
  | [] => false
  | _ :: s' => includes s' needle
  end.

(** [Array.prototype.join] on an array of strings. *)
Fixpoint join (sep : jsstring) (l : list jsstring) : jsstring :=
  match l with
  | [] => []
  | [x] => x
  | x :: rest => x ++ sep ++ join sep rest
  end.

(** ECMAScript WhiteSpace and LineTerminator code units, as [trim] strips
    them. *)
Definition isWhiteSpace (c : N) : bool :=
  (c =? 9) || (c =? 10) || (c =? 11) || (c =? 12) || (c =? 13) || (c =? 32)
  || (c =? 160) || (c =? 5760) || ((8192 <=? c) && (c <=? 8202))
  || (c =? 8232) || (c =? 8233) || (c =? 8239) || (c =? 8287)
  || (c =? 12288) || (c =? 65279).

Fixpoint trimStart (s : jsstring) : jsstring :=
  match s with
  | [] => []
  | c :: s' => if isWhiteSpace c then trimStart s' else s
  end.

Definition trimEnd (s : jsstring) : jsstring := rev (trimStart (rev s)).

Definition trim (s : jsstring) : jsstring := trimEnd (trimStart s).

(** [Number.prototype.toString] on a non-negative integer. *)
Definition toStringN (n : N) : jsstring :=
  js (NilZero.string_of_uint (N.to_uint n)).

Definition toString (n : nat) : jsstring := toStringN (N.of_nat n).

(** The global replacement of [escapeCSVValue]: every double quote of the
    value becomes two. *)
Definition doubleQuotes (value : jsstring) : jsstring :=
  flat_map (fun c => if c =? DQUOTE then [DQUOTE; DQUOTE] else [c]) value.

(** [String.prototype.split] on a one-character separator. *)
Fixpoint splitOn (sep : N) (s : jsstring) : list jsstring :=
  match s with
  | [] => [[]]
  | c :: rest =>
      if c =? sep then [] :: splitOn sep rest
      else match splitOn sep rest with
           | [] => [[c]]
           | line :: lines => (c :: line) :: lines
           end
  end.

(** ** Data model *)

Record Options := mkOptions {
  includeHeaders : bool;
  preserveFormatting : bool;
  includeRowNumbers : bool;
  separateSheets : bool;
  includeMetadata : bool
}.

Record Metadata := mkMetadata {
  originalRowCount : nat;
  originalColumnCount : nat;
  exportedAt : jsstring
}.

Record TableData := mkTableData {
  td_name : jsstring;
  headers : list jsstring;
  rows : list (list jsstring);
  metadata : option Metadata
}.

(** ** CSV serialiser: the pure part *)

(** The test of [escapeCSVValue]: the value holds a comma, a double quote
    or a line feed. *)
Definition needsQuoting (value : jsstring) : bool :=
  includes value [COMMA] || includes value [DQUOTE] || includes value [LF].

Definition escapeCSVValue (value : jsstring) : jsstring :=
  if needsQuoting value
  then [DQUOTE] ++ doubleQuotes value ++ [DQUOTE]
  else value.

Definition createCSVContent (tableData : TableData) (options : Options) : jsstring :=
  let lines :=
    (if includeHeaders options && (0 <? length (headers tableData))%nat
     then [join [COMMA] (List.map escapeCSVValue (headers tableData))]
     else [])
    ++ List.map (fun row => join [COMMA] (List.map escapeCSVValue row))
                (rows tableData) in
  join [LF] lines.

(** The standard reading of one CSV field: a field that opens with a double
    quote runs to its closing quote, two quotes inside standing for one; any
    other field is taken literally.  [None] is a malformed quoted field. *)
Fixpoint csvUnquoteBody (s : jsstring) : option jsstring :=
  match s with
  | [] => None
  | c :: rest =>
      if c =? DQUOTE then
        match rest with
        | [] => Some []
        | d :: rest' =>
            if d =? DQUOTE then option_map (cons DQUOTE) (csvUnquoteBody rest')
            else None
        end
      else option_map (cons c) (csvUnquoteBody rest)
  end.

Definition csvUnquote (field : jsstring) : option jsstring :=
  match field with
  | c :: rest => if c =? DQUOTE then csvUnquoteBody rest else Some field
  | [] => Some []
  end.

(** ** The document

    An element is known by the identity [nid] of the object it stands for.
    Tag names are kept the way [tagName] reports them for HTML elements (upper
    case).  [innerHTML], [offsetParent] and the computed display and
    visibility are the browser's readings of the element. *)

Record Element := mkElement {
  nid : nat;
  tagName : jsstring;
  isHTMLElement : bool;
  attributes : list (jsstring * jsstring);
  classList : list jsstring;
  innerHTML : jsstring;
  offsetParent : option nat;
  computedDisplay : jsstring;
  computedVisibility : jsstring
}.

Inductive Node :=
| Text (data : jsstring)
| Elem (e : Element) (childNodes : list Node).

(** *** Inline styles and scroll offsets

    The declarations of the [style] attribute, as the CSS object model keeps
    them: a declaration has a value and may carry the priority [!important].
    Only the declarations the export code reads or writes are kept: [width],
    [max-width], and the two declarations [overflow-x] and [overflow-y] that
    the shorthand [overflow] stands for.  A width is kept as its text; an
    overflow is one of the five keywords of the property (the CSS-wide
    keywords and references to custom properties are left out, and so is
    the order of the declarations). *)

Record Declaration (V : Type) := mkDeclaration {
  declared : V;
  important : bool
}.
Arguments mkDeclaration {V} declared important.
Arguments declared {V} d.
Arguments important {V} d.

Inductive Overflow :=
| OvVisible
| OvHidden
| OvClip
| OvScroll
| OvAuto.

Record Inline := mkInline {
  styleWidth : option (Declaration jsstring);
  styleMaxWidth : option (Declaration jsstring);
  styleOverflowX : option (Declaration Overflow);
  styleOverflowY : option (Declaration Overflow)
}.

(** The browser: the document tree, the subtrees that were taken out of it
    but are still referenced, the inline styles and the scroll offsets of the
    elements, the layout, and the clock ([Date.now()] and the formatted
    current time).  Of the layout the scroll range is kept: how far an
    element can be scrolled to the left and to the right of its origin, in
    whole pixels, given the inline styles of the elements of the document;
    both are 0 for an element that is no scroll container or whose content
    fits. *)
Record Browser := mkBrowser {
  tree : Node;
  detached : list Node;
  inline : gmap nat Inline;
  scrollOffsets : gmap nat Z;
  scrollRange : list (nat * Inline) -> nat -> nat * nat;
  dateNow : N;
  nowFormatted : jsstring
}.

(** An element together with where it stands: its ancestors and the siblings
    before it, nearest first. *)
Record Located := mkLocated {
  ancestors : list Element;
  preceding : list Node;
  self : Element;
  children : list Node
}.

Fixpoint textContent (n : Node) : jsstring :=
  match n with
  | Text d => d
  | Elem _ kids => flat_map textContent kids
  end.

Definition textOf (l : Located) : jsstring :=
  flat_map textContent (children l).

(** Every element of a subtree, the root included, in document order. *)
Fixpoint walk (anc : list Element) (prev : list Node) (n : Node) : list Located :=
  match n with
  | Text _ => []
  | Elem e kids =>
      mkLocated anc prev e kids ::
      (fix go (before l : list Node) : list Located :=
         match l with
         | [] => []
         | k :: rest => walk (e :: anc) before k ++ go (k :: before) rest
         end) [] kids
  end.

Definition descendants (l : Located) : list Located :=
  tail (walk (ancestors l) (preceding l) (Elem (self l) (children l))).

Definition allElements (b : Browser) : list Located :=
  walk [] [] (tree b) ++ flat_map (walk [] []) (detached b).

Definition noElement (id : nat) : Element :=
  mkElement id [] false [] [] [] None [] [].

(** The element an identity stands for.  An identity the browser does not
    know reads as an element without content or context. *)
Definition locate (b : Browser) (id : nat) : Located :=
  default (mkLocated [] [] (noElement id) [])
          (List.find (fun l => Nat.eqb (nid (self l)) id) (allElements b)).

(** *** Selectors

    The selectors the code passes to [querySelectorAll], [querySelector] and
    [closest], as syntax trees: a compound of simple selectors, optionally
    under an ancestor compound; a selector list is a disjunction. *)

Inductive Simple :=
| SelTag (t : jsstring)
| SelAttr (name value : jsstring)
| SelClass (c : jsstring).

Inductive Complex :=
| Sub (c : list Simple)
| Desc (a c : list Simple).

Definition jseq (a b : jsstring) : bool := bool_decide (a = b).

Definition getAttribute (e : Element) (name : jsstring) : option jsstring :=
  snd <$> List.find (fun kv => jseq (fst kv) name) (attributes e).

Definition matchSimple (e : Element) (s : Simple) : bool :=
  match s with
  | SelTag t => jseq (tagName e) t
  | SelAttr n v => bool_decide (getAttribute e n = Some v)
  | SelClass c => existsb (jseq c) (classList e)
  end.

Definition matchCompound (e : Element) (c : list Simple) : bool :=
  forallb (matchSimple e) c.

Definition matchComplex (anc : list Element) (e : Element) (x : Complex) : bool :=
  match x with
  | Sub c => matchCompound e c
  | Desc a c => matchCompound e c && existsb (fun p => matchCompound p a) anc
  end.

Definition matches (sel : list Complex) (l : Located) : bool :=
  existsb (matchComplex (ancestors l) (self l)) sel.

Definition querySelectorAll (l : Located) (sel : list Complex) : list Located :=
  List.filter (matches sel) (descendants l).

Definition querySelector (l : Located) (sel : list Complex) : option Located :=
  head (querySelectorAll l sel).

Fixpoint closestIn (sel : list Complex) (chain : list Element) : option Element :=
  match chain with
  | [] => None
  | e :: up =>
      if existsb (matchComplex up e) sel then Some e else closestIn sel up
  end.

Definition closest (l : Located) (sel : list Complex) : option Element :=
  closestIn sel (self l :: ancestors l).

Definition parentElement (l : Located) : option Element := head (ancestors l).

(** The element siblings before an element, nearest first: the chain
    [previousElementSibling] walks. *)
Fixpoint elementsOf (prev : list Node) (anc : list Element) : list Located :=
  match prev with
  | [] => []
  | Text _ :: rest => elementsOf rest anc
  | Elem e kids :: rest => mkLocated anc rest e kids :: elementsOf rest anc
  end.

Definition previousElementSiblings (l : Located) : list Located :=
  elementsOf (preceding l) (ancestors l).

Definition noInline : Inline := mkInline None None None None.

Definition getInline (b : Browser) (id : nat) : Inline :=
  default noInline (inline b !! id).

Definition setInline (id : nat) (f : Inline -> Inline) (b : Browser) : Browser :=
  mkBrowser (tree b) (detached b) (<[id := f (getInline b id)]> (inline b))
            (scrollOffsets b) (scrollRange b) (dateNow b) (nowFormatted b).

(** The inline styles of the elements of the document, in document order:
    what the layout is computed from. *)
Definition inlineStyles (b : Browser) : list (nat * Inline) :=
  List.map (fun l => (nid (self l), getInline b (nid (self l))))
           (walk [] [] (tree b)).

Definition scrollRangeOf (b : Browser) (id : nat) : nat * nat :=
  scrollRange b (inlineStyles b) id.

(** The offset nearest to [x] that a scroll range allows. *)
Definition clamp (range : nat * nat) (x : Z) : Z :=
  Z.max (- Z.of_nat (fst range)) (Z.min (Z.of_nat (snd range)) x).

(** A layout pass.  Style changes are laid out when a script next asks for
    a measure or at the end of the task; a scroll offset the new layout no
    longer allows is pulled back into the range, for good. *)
Definition layout (b : Browser) : Browser :=
  mkBrowser (tree b) (detached b) (inline b)
            (map_imap (fun id x => Some (clamp (scrollRangeOf b id) x))
                      (scrollOffsets b))
            (scrollRange b) (dateNow b) (nowFormatted b).

(** The scroll offset as it stands; [element.scrollLeft] reads it after a
    layout pass. *)
Definition scrollLeft (b : Browser) (id : nat) : Z :=
  default 0%Z (scrollOffsets b !! id).

(** [element.scrollLeft = x]: the pending style changes are laid out, and
    the element is scrolled as near to [x] as its range allows. *)
Definition scrollTo (id : nat) (x : Z) (b : Browser) : Browser :=
  let b := layout b in
  mkBrowser (tree b) (detached b) (inline b)
            (<[id := clamp (scrollRangeOf b id) x]> (scrollOffsets b))
            (scrollRange b) (dateNow b) (nowFormatted b).

(** ** Discovered tables and export configurations *)

Record DisplayedTable := mkDisplayedTable {
  dt_id : jsstring;
  dt_name : jsstring;
  element : option nat;
  rowCount : nat;
  columnCount : nat;
  isVisible : bool
}.

(** [format] is one of three literals for the type checker; the code also
    handles any other value it may receive at run time. *)
Inductive Format :=
| FormatPdf
| FormatCsv
| FormatExcel
| FormatOther (name : jsstring).

Record ExportConfig := mkExportConfig {
  format : Format;
  fileName : jsstring;
  options : Options;
  tables : list DisplayedTable;
  tabName : jsstring
}.

(** ** Effects

    The observable effects are kept in a log, oldest first.  The calls on the
    PDF document are logged as they are made. *)

Inductive Exn :=
| Error (message : jsstring)
| InjectedFailure.

Record AutoTableConfig := mkAutoTableConfig {
  startY : Q;
  tableHead : option (list (list jsstring));
  tableBody : list (list jsstring);
  columnStyles : list (nat * Q)
}.

Inductive PdfCall :=
| PdfNew
| PdfSetFontSize (size : nat)
| PdfSetTextColor (r g b : nat)
| PdfText (text : jsstring) (x y : Q) (centered : bool)
| PdfAddPage
| PdfAutoTable (cfg : AutoTableConfig)
| PdfSave (name : jsstring).

Inductive Event :=
| SetIsExporting (b : bool)
| ConsoleLog (msg : jsstring)
| ConsoleWarn (msg : jsstring) (e : option Exn)
| ConsoleError (msg : jsstring) (e : Exn)
| Download (content name : jsstring)
| Pdf (call : PdfCall).

(** The events that write the exporting flag. *)
Definition isFlagEvent (ev : Event) : bool :=
  match ev with SetIsExporting _ => true | _ => false end.

(** The state the code runs in.  [collected] and [seen] are the two variables
    the closures of [scanForTablesIncludingSubTabs] share.  [failAfter] lets a
    run fail: [Some k] lets [k] more calls into the browser or a library pass
    and makes the one after them throw.  [turn] counts the interactions with
    the page. *)
Record World := mkWorld {
  browser : Browser;
  isExporting : bool;
  events : list Event;
  collected : list DisplayedTable;
  seen : gset nat;
  failAfter : option nat;
  turn : nat
}.

Inductive Result (A : Type) :=
| Ok (a : A)
| Throw (e : Exn).
Arguments Ok {A} a.
Arguments Throw {A} e.

Definition M (A : Type) : Type := World -> Result A * World.

Definition ret {A} (a : A) : M A := fun w => (Ok a, w).

Definition bind {A B} (m : M A) (k : A -> M B) : M B :=
  fun w => match m w with
           | (Ok a, w') => k a w'
           | (Throw e, w') => (Throw e, w')
           end.

Definition throw {A} (e : Exn) : M A := fun w => (Throw e, w).

Definition tryCatch {A} (m : M A) (handler : Exn -> M A) : M A :=
  fun w => match m w with
           | (Ok a, w') => (Ok a, w')
           | (Throw e, w') => handler e w'
           end.

(** [try { m } finally { fin }]: [fin] runs on both exits and the outcome of
    [m] stands unless [fin] itself throws. *)
Definition tryFinally {A} (m : M A) (fin : M unit) : M A :=
  fun w => match m w with
           | (r, w') =>
               match fin w' with
               | (Ok _, w'') => (r, w'')
               | (Throw e, w'') => (Throw e, w'')
               end
           end.

Declare Scope js_scope.
Delimit Scope js_scope with js_m.
Notation "x <- m ;; k" := (bind m (fun x => k))
  (at level 100, m at next level, right associativity) : js_scope.
Notation "m ;;; k" := (bind m (fun _ => k))
  (at level 100, right associativity) : js_scope.
Local Open Scope js_scope.

Definition get : M World := fun w => (Ok w, w).
Definition modify (f : World -> World) : M unit := fun w => (Ok tt, f w).

Definition withBrowser (f : Browser -> Browser) (w : World) : World :=
  mkWorld (f (browser w)) (isExporting w) (events w) (collected w) (seen w)
          (failAfter w) (turn w).

Definition withFailAfter (k : option nat) (w : World) : World :=
  mkWorld (browser w) (isExporting w) (events w) (collected w) (seen w)
          k (turn w).

Definition emit (ev : Event) : M unit :=
  modify (fun w => mkWorld (browser w) (isExporting w) (events w ++ [ev])
                           (collected w) (seen w) (failAfter w) (turn w)).

(** The point where a call into the browser or a library may fail. *)
Definition tick : M unit :=
  fun w => match failAfter w with
           | None => (Ok tt, w)
           | Some O => (Throw InjectedFailure, withFailAfter None w)
           | Some (S k) => (Ok tt, withFailAfter (Some k) w)
           end.

Fixpoint forEach {A} (l : list A) (f : A -> M unit) : M unit :=
  match l with
  | [] => ret tt
  | x :: rest => f x ;;; forEach rest f
  end.

Fixpoint mapM {A B} (f : A -> M B) (l : list A) : M (list B) :=
  match l with
  | [] => ret []
  | x :: rest => y <- f x ;; ys <- mapM f rest ;; ret (y :: ys)
  end.

Definition setIsExporting (b : bool) : M unit :=
  modify (fun w => mkWorld (browser w) b (events w) (collected w) (seen w)
                           (failAfter w) (turn w)) ;;;
  emit (SetIsExporting b).

(** ** Cell/row extractor with the scroll/overflow neutraliser *)

Definition overflowContainer : list Complex :=
  [Sub [SelClass (js "overflow-x-auto")]; Sub [SelClass (js "overflow-auto")];
   Sub [SelClass (js "overflow-scroll")]].
Definition selTr : list Complex := [Sub [SelTag (js "TR")]].
Definition selTh : list Complex := [Sub [SelTag (js "TH")]].
Definition selTdTh : list Complex := [Sub [SelTag (js "TD")]; Sub [SelTag (js "TH")]].

Definition hasCurrency (s : jsstring) : bool :=
  includes s [DOLLAR] || includes s [EURO] || includes s [POUND].

(** First match of the character class the code searches the markup with.
    The class is written with a doubled backslash followed by the dollar,
    euro and pound signs, so it holds four characters: the backslash and the
    three currency signs. *)
Definition matchCurrencyClass (s : jsstring) : option jsstring :=
  (fun c => [c]) <$>
  List.find (fun c => (c =? BACKSLASH) || (c =? DOLLAR) || (c =? EURO) || (c =? POUND)) s.

Definition isEmpty (s : jsstring) : bool :=
  match s with [] => true | _ => false end.

(** [a || b] on strings: [b] when [a] is empty. *)
Definition orElse (a b : jsstring) : jsstring :=
  if isEmpty a then b else a.

Definition cellValue (options : Options) (cell : Located) : jsstring :=
  if preserveFormatting options then
    let cellValue := trim (textOf cell) in
    let innerHTML := innerHTML (self cell) in
    if hasCurrency innerHTML then
      let text := trim (textOf cell) in
      if negb (isEmpty text) && negb (includes text [DOLLAR])
         && negb (includes text [EURO]) && negb (includes text [POUND])
      then match matchCurrencyClass innerHTML with
           | Some currencyMatch => currencyMatch ++ text
           | None => cellValue
           end
      else cellValue
    else cellValue
  else trim (textOf cell).

(** One turn of [rows.forEach]: [acc] holds [headers] and [extractedData]. *)
Definition extractRow (options : Options)
    (acc : list jsstring * list (list jsstring)) (rowIndex : nat) (row : Located)
    : list jsstring * list (list jsstring) :=
  let cells := querySelectorAll row selTdTh in
  let rowData := List.map (cellValue options) cells in
  if Nat.eqb rowIndex 0
     && (bool_decide (is_Some (querySelector row selTh)) || includeHeaders options)
  then (rowData, snd acc)
  else
    (fst acc,
     snd acc ++
       [if includeRowNumbers options
        then toString (length (snd acc) + 1) :: rowData
        else rowData]).

Fixpoint extractRows (options : Options) (rows : list Located) (rowIndex : nat)
    (acc : list jsstring * list (list jsstring))
    : list jsstring * list (list jsstring) :=
  match rows with
  | [] => acc
  | row :: rest =>
      extractRows options rest (S rowIndex) (extractRow options acc rowIndex row)
  end.

(** [style.width] and [style.maxWidth], read: the value of the declaration,
    the empty string when there is none. *)
Definition propertyValue (d : option (Declaration jsstring)) : jsstring :=
  default [] (declared <$> d).

(** What writing [v] to [style.width] or [style.maxWidth] leaves: the empty
    string removes the declaration; another value replaces it, and the new
    declaration carries no priority.  (A value that does not parse would be
    ignored; the code writes two literals that parse and values it has read
    from a declaration.) *)
Definition declare (v : jsstring) : option (Declaration jsstring) :=
  if isEmpty v then None else Some (mkDeclaration v false).

Definition setWidth (v : jsstring) (i : Inline) : Inline :=
  mkInline (declare v) (styleMaxWidth i) (styleOverflowX i) (styleOverflowY i).
Definition setMaxWidth (v : jsstring) (i : Inline) : Inline :=
  mkInline (styleWidth i) (declare v) (styleOverflowX i) (styleOverflowY i).

Definition SPACE : N := 32.

Definition overflowName (k : Overflow) : jsstring :=
  match k with
  | OvVisible => js "visible"
  | OvHidden => js "hidden"
  | OvClip => js "clip"
  | OvScroll => js "scroll"
  | OvAuto => js "auto"
  end.

Definition parseKeyword (s : jsstring) : option Overflow :=
  List.find (fun k => jseq (overflowName k) s)
            [OvVisible; OvHidden; OvClip; OvScroll; OvAuto].

Definition sameKeyword (a b : Overflow) : bool :=
  jseq (overflowName a) (overflowName b).

(** [style.overflow], read.  The shorthand has a value only when both of
    its declarations are there and agree on the priority: one keyword when
    the two are the same, else the two with a space between. *)
Definition overflowValue (i : Inline) : jsstring :=
  match styleOverflowX i, styleOverflowY i with
  | Some x, Some y =>
      if Bool.eqb (important x) (important y) then
        if sameKeyword (declared x) (declared y) then overflowName (declared x)
        else overflowName (declared x) ++ [SPACE] ++ overflowName (declared y)
      else []
  | _, _ => []
  end.

(** The value of the shorthand, parsed: one keyword for both directions, or
    one for each. *)
Definition parseOverflow (v : jsstring) : option (Overflow * Overflow) :=
  match splitOn SPACE v with
  | [a] => (fun k => (k, k)) <$> parseKeyword a
  | [a; b] =>
      match parseKeyword a, parseKeyword b with
      | Some x, Some y => Some (x, y)
      | _, _ => None
      end
  | _ => None
  end.

(** [style.overflow = v]: the empty string removes both declarations; a
    value that parses replaces both, without priority; any other value is
    ignored. *)
Definition setOverflow (v : jsstring) (i : Inline) : Inline :=
  if isEmpty v then mkInline (styleWidth i) (styleMaxWidth i) None None
  else
    match parseOverflow v with
    | Some (x, y) =>
        mkInline (styleWidth i) (styleMaxWidth i)
                 (Some (mkDeclaration x false)) (Some (mkDeclaration y false))
    | None => i
    end.

Definition writeStyle (id : nat) (f : Inline -> Inline) : M unit :=
  modify (withBrowser (setInline id f)).

Definition writeScrollLeft (id : nat) (x : Z) : M unit :=
  modify (withBrowser (scrollTo id x)).

(** Reading a measure of the layout ([offsetWidth], [scrollLeft]) lays out
    the pending style changes first. *)
Definition forceLayout : M unit := modify (withBrowser layout).

Definition readScrollLeft (id : nat) : M Z :=
  forceLayout ;;;
  w <- get ;;
  ret (scrollLeft (browser w) id).

(** The container: the nearest scrollable ancestor (the table itself
    included, as [closest] has it), else the parent. *)
Definition tableContainerOf (tl : Located) : option nat :=
  match closest tl overflowContainer with
  | Some e => Some (nid e)
  | None => nid <$> parentElement tl
  end.

(** The reading part of the [try] block: the rows, the headers and the
    metadata as [extractTableData] returns them. *)
Definition readTable (b : Browser) (table : nat) (options : Options) : TableData :=
  let rows := querySelectorAll (locate b table) selTr in
  let acc := extractRows options rows 0 ([], []) in
  let headers :=
    if includeRowNumbers options && (0 <? length (fst acc))%nat
    then js "#" :: fst acc else fst acc in
  mkTableData [] headers (snd acc)
    (if includeMetadata options
     then Some (mkMetadata (length rows) (length headers) (nowFormatted b))
     else None).

(** The [try] block of [extractTableData].  A [tick] stands before every
    statement: the block may be cut short anywhere.  Reading [offsetWidth]
    forces the layout. *)
Definition extractBody (table : nat) (tableContainer : option nat)
    (options : Options) : M TableData :=
  match tableContainer with
  | Some c =>
      tick ;;; writeStyle c (setOverflow (js "visible")) ;;;
      tick ;;; writeScrollLeft c 0
  | None => ret tt
  end ;;;
  tick ;;; writeStyle table (setWidth (js "max-content")) ;;;
  tick ;;; writeStyle table (setMaxWidth (js "none")) ;;;
  tick ;;; forceLayout ;;;
  w <- get ;;
  ret (readTable (browser w) table options).

(** The [finally] block of [extractTableData]. *)
Definition restoreStyles (table : nat) (tableContainer : option nat)
    (originalWidth originalMaxWidth : jsstring)
    (originalOverflow : option jsstring) (originalScrollLeft : Z) : M unit :=
  writeStyle table (setWidth originalWidth) ;;;
  writeStyle table (setMaxWidth originalMaxWidth) ;;;
  match tableContainer with
  | Some c =>
      writeStyle c (setOverflow (orElse (default [] originalOverflow) [])) ;;;
      writeScrollLeft c originalScrollLeft
  | None => ret tt
  end.

Definition extractTableData (table : nat) (options : Options) : M TableData :=
  w <- get ;;
  let tableContainer := tableContainerOf (locate (browser w) table) in
  originalScrollLeft <-
    match tableContainer with
    | Some c => readScrollLeft c
    | None => ret 0%Z
    end ;;
  w <- get ;;
  let originalWidth := propertyValue (styleWidth (getInline (browser w) table)) in
  let originalMaxWidth :=
    propertyValue (styleMaxWidth (getInline (browser w) table)) in
  let originalOverflow :=
    (fun c => overflowValue (getInline (browser w) c)) <$> tableContainer in
  tryFinally
    (extractBody table tableContainer options)
    (restoreStyles table tableContainer originalWidth originalMaxWidth
                   originalOverflow originalScrollLeft).

(** *** The extraction, row by row

    What the loop of [extractTableData] computes, said per row: the values of
    a row, the test that makes a first row the header row, the number a data
    row gets, and the data rows numbered in sequence. *)

Definition rowValues (options : Options) (row : Located) : list jsstring :=
  List.map (cellValue options) (querySelectorAll row selTdTh).

Definition isHeaderRow (options : Options) (row : Located) : bool :=
  bool_decide (is_Some (querySelector row selTh)) || includeHeaders options.

Definition rowNumber (options : Options) (position : nat) : list jsstring :=
  if includeRowNumbers options then [toString (position + 1)] else [].

Definition numberedRows (options : Options) (rows : list Located)
    : list (list jsstring) :=
  imap (fun i row => rowNumber options i ++ rowValues options row) rows.

(** Whether the extraction takes the first row of a table for the header
    row. *)
Definition headerTaken (options : Options) (table : Located) : bool :=
  match querySelectorAll table selTr with
  | first :: _ => isHeaderRow options first
  | [] => false
  end.

(** The row of a table the extraction takes for the header row, and the
    rows it takes for data rows: all the rows of the table but that one. *)
Definition headerRowOf (options : Options) (table : Located) : option Located :=
  match querySelectorAll table selTr with
  | first :: _ => if isHeaderRow options first then Some first else None
  | [] => None
  end.

Definition dataRowsOf (options : Options) (table : Located) : list Located :=
  match querySelectorAll table selTr with
  | first :: rest => if isHeaderRow options first then rest else first :: rest
  | [] => []
  end.

(** The same options without row numbering. *)
Definition withoutRowNumbers (o : Options) : Options :=
  mkOptions (includeHeaders o) (preserveFormatting o) false
            (separateSheets o) (includeMetadata o).

(** The first currency sign of a string: what the comment of the code says
    is put back in front of the text. *)
Definition firstCurrencySymbol (s : jsstring) : option jsstring :=
  (fun c => [c]) <$>
  List.find (fun c => (c =? DOLLAR) || (c =? EURO) || (c =? POUND)) s.

(** ** CSV serialiser: the download *)

(** [downloadCSV] builds a blob and a temporary link, clicks it and removes
    it again; what remains of it is the download. *)
Definition downloadCSV (content name : jsstring) : M unit :=
  tick ;;; emit (Download content name).

Definition isAsciiAlnum (c : N) : bool :=
  ((48 <=? c) && (c <=? 57)) || ((65 <=? c) && (c <=? 90))
  || ((97 <=? c) && (c <=? 122)).

(** The file-name form of a table name: every character that is not an
    ASCII letter or digit becomes an underscore. *)
Definition sanitizeName (name : jsstring) : jsstring :=
  List.map (fun c => if isAsciiAlnum c then c else 95) name.

(** The [forEach] of the single-file branch, appending to [csvContent]. *)
Fixpoint csvSections (opts : Options) (index : nat) (tablesData : list TableData)
    (csvContent : jsstring) : jsstring :=
  match tablesData with
  | [] => csvContent
  | tableData :: rest =>
      let csvContent := if (0 <? index)%nat then csvContent ++ [LF] else csvContent in
      let csvContent := csvContent ++ td_name tableData ++ [LF] in
      let csvContent := csvContent ++ createCSVContent tableData opts in
      let csvContent := csvContent ++ [LF] in
      csvSections opts (S index) rest csvContent
  end.

Definition exportToCSV (tablesData : list TableData) (config : ExportConfig) : M unit :=
  if separateSheets (options config) && (1 <? length tablesData)%nat then
    forEach tablesData (fun tableData =>
      let csvContent := createCSVContent tableData (options config) in
      downloadCSV csvContent
        (fileName config ++ js "-" ++ sanitizeName (td_name tableData) ++ js ".csv"))
  else
    w <- get ;;
    let csvContent :=
      if includeMetadata (options config) then
        (tabName config ++ js " - Exported Data" ++ [LF])
        ++ (js "Generated: " ++ nowFormatted (browser w) ++ [LF])
        ++ (js "Tables: " ++ toString (length tablesData) ++ [LF; LF])
      else [] in
    let csvContent := csvSections (options config) 0 tablesData csvContent in
    downloadCSV csvContent (fileName config ++ js ".csv").

(** ** PDF serialiser

    The PDF library is an input: the page size it reports and the vertical
    position at which it says a table ended.  Lengths are rationals. *)

Record PdfLibrary := mkPdfLibrary {
  pageWidth : Q;
  pageHeight : Q;
  lastFinalY : AutoTableConfig -> Q
}.

Definition pdfCall (c : PdfCall) : M unit := tick ;;; emit (Pdf c).

Definition columnStylesFor (pageWidth : Q) (tableData : TableData) : list (nat * Q) :=
  if (0 <? length (headers tableData))%nat then
    let maxColumns := Nat.min (length (headers tableData)) 8 in
    let columnWidth := ((pageWidth - 40) / inject_Z (Z.of_nat maxColumns))%Q in
    List.map (fun i => (i, columnWidth)) (seq 0 maxColumns)
  else [].

Definition totalRows (tablesData : list TableData) : nat :=
  fold_left (fun sum t => (sum + length (rows t))%nat) tablesData 0%nat.

(** The [forEach] over the tables; [yPosition] is the running cursor. *)
Fixpoint pdfTables (lib : PdfLibrary) (config : ExportConfig) (index : nat)
    (tablesData : list TableData) (yPosition : Q) : M Q :=
  match tablesData with
  | [] => ret yPosition
  | tableData :: rest =>
      yPosition <-
        (if negb (Qle_bool yPosition (pageHeight lib - 60)%Q)
            || ((0 <? index)%nat && separateSheets (options config))
         then pdfCall PdfAddPage ;;; ret 20%Q
         else ret yPosition) ;;
      pdfCall (PdfSetFontSize 14) ;;;
      pdfCall (PdfSetTextColor 60 60 60) ;;;
      pdfCall (PdfText (td_name tableData) 20%Q yPosition false) ;;;
      let yPosition := (yPosition + 10)%Q in
      let tableConfig :=
        mkAutoTableConfig yPosition
          (if includeHeaders (options config) && (0 <? length (headers tableData))%nat
           then Some [headers tableData] else None)
          (rows tableData)
          (columnStylesFor (pageWidth lib) tableData) in
      pdfCall (PdfAutoTable tableConfig) ;;;
      pdfTables lib config (S index) rest (lastFinalY lib tableConfig + 15)%Q
  end.

Definition exportToPDF (lib : PdfLibrary) (tablesData : list TableData)
    (config : ExportConfig) : M unit :=
  pdfCall PdfNew ;;;
  let yPosition := 20%Q in
  pdfCall (PdfSetFontSize 18) ;;;
  pdfCall (PdfSetTextColor 40 40 40) ;;;
  pdfCall (PdfText (tabName config ++ js " - Exported Data")
                   (pageWidth lib / 2)%Q yPosition true) ;;;
  let yPosition := (yPosition + 15)%Q in
  yPosition <-
    (if includeMetadata (options config) then
       pdfCall (PdfSetFontSize 10) ;;;
       pdfCall (PdfSetTextColor 100 100 100) ;;;
       w <- get ;;
       pdfCall (PdfText (js "Generated: " ++ nowFormatted (browser w))
                        20%Q yPosition false) ;;;
       let yPosition := (yPosition + 8)%Q in
       pdfCall (PdfText (js "Tables: " ++ toString (length tablesData)
                           ++ js " | Total Rows: " ++ toString (totalRows tablesData))
                        20%Q yPosition false) ;;;
       ret (yPosition + 15)%Q
     else ret yPosition) ;;
  _ <- pdfTables lib config 0 tablesData yPosition ;;
  pdfCall (PdfSave (fileName config ++ js ".pdf")).

(** *** The PDF document, described *)

(** The calls that draw a table with its title at [y]: the title, and the
    table 10 below it. *)
Definition pdfTableAt (lib : PdfLibrary) (config : ExportConfig) (y : Q)
    (tableData : TableData) : list PdfCall :=
  [PdfSetFontSize 14;
   PdfSetTextColor 60 60 60;
   PdfText (td_name tableData) 20%Q y false;
   PdfAutoTable
     (mkAutoTableConfig (y + 10)%Q
        (if includeHeaders (options config) && (0 <? length (headers tableData))%nat
         then Some [headers tableData] else None)
        (rows tableData)
        (columnStylesFor (pageWidth lib) tableData))].

(** A table at the top of a page of its own. *)
Definition pdfPageOf (lib : PdfLibrary) (config : ExportConfig)
    (tableData : TableData) : list PdfCall :=
  PdfAddPage :: pdfTableAt lib config 20%Q tableData.

(** The calls before the tables: the new document, its centred title and,
    when asked for, the two metadata lines. *)
Definition pdfOpening (lib : PdfLibrary) (config : ExportConfig) (now : jsstring)
    (tablesData : list TableData) : list PdfCall :=
  [PdfNew;
   PdfSetFontSize 18;
   PdfSetTextColor 40 40 40;
   PdfText (tabName config ++ js " - Exported Data") (pageWidth lib / 2)%Q 20%Q true]
  ++ (if includeMetadata (options config) then
        [PdfSetFontSize 10;
         PdfSetTextColor 100 100 100;
         PdfText (js "Generated: " ++ now) 20%Q (20 + 15)%Q false;
         PdfText (js "Tables: " ++ toString (length tablesData)
                    ++ js " | Total Rows: " ++ toString (totalRows tablesData))
                 20%Q (20 + 15 + 8)%Q false]
      else []).

(** Where the cursor stands after the opening. *)
Definition pdfFirstY (config : ExportConfig) : Q :=
  if includeMetadata (options config) then (20 + 15 + 8 + 15)%Q else (20 + 15)%Q.

(** The first table: on the first page under the opening, unless the cursor
    is already within 60 of the foot of the page. *)
Definition pdfFirstTable (lib : PdfLibrary) (config : ExportConfig)
    (tableData : TableData) : list PdfCall :=
  if Qle_bool (pdfFirstY config) (pageHeight lib - 60)%Q
  then pdfTableAt lib config (pdfFirstY config) tableData
  else pdfPageOf lib config tableData.

(** The sum of the widths of the styled columns. *)
Definition styledWidth (styles : list (nat * Q)) : Q :=
  fold_right (fun s sum => (snd s + sum)%Q) 0%Q styles.

(** ** Export orchestrator *)

Definition withName (data : TableData) (name : jsstring) : TableData :=
  mkTableData name (headers data) (rows data) (metadata data).

(** The selected tables that still hold an element, each with it: the
    [filter] before the [map]. *)
Definition withElement (table : DisplayedTable) : option (DisplayedTable * nat) :=
  (fun el => (table, el)) <$> element table.

Definition extractSelected (opts : Options) (sel : DisplayedTable * nat) : M TableData :=
  data <- extractTableData (snd sel) opts ;;
  ret (withName data (dt_name (fst sel))).

Definition exportDisplayedData (lib : PdfLibrary) (config : ExportConfig) : M unit :=
  setIsExporting true ;;;
  tryFinally
    (tryCatch
       (tablesData <-
          mapM (extractSelected (options config))
               (omap withElement (tables config)) ;;
        if Nat.eqb (length tablesData) 0 then
          throw (Error (js "No table data to export"))
        else
          match format config with
          | FormatPdf => exportToPDF lib tablesData config
          | FormatCsv => exportToCSV tablesData config
          | FormatExcel => exportToCSV tablesData config
          | FormatOther name =>
              throw (Error (js "Unsupported export format: " ++ name))
          end)
       (fun error =>
          emit (ConsoleError (js "Export failed:") error) ;;; throw error))
    (setIsExporting false).

(** The [try] block of [exportDisplayedData] on its own: what the catch
    clause and the [finally] clause are wrapped around. *)
Definition exportAttempt (lib : PdfLibrary) (config : ExportConfig) : M unit :=
  tablesData <-
    mapM (extractSelected (options config))
         (omap withElement (tables config)) ;;
  if Nat.eqb (length tablesData) 0 then
    throw (Error (js "No table data to export"))
  else
    match format config with
    | FormatPdf => exportToPDF lib tablesData config
    | FormatCsv => exportToCSV tablesData config
    | FormatExcel => exportToCSV tablesData config
    | FormatOther name =>
        throw (Error (js "Unsupported export format: " ++ name))
    end.

(** ** Table discovery scanner *)

Definition selTable : list Complex := [Sub [SelTag (js "TABLE")]].
Definition selCaption : list Complex := [Sub [SelTag (js "CAPTION")]].

(** The tag names H1 to H6: an upper-case H and one digit from 1 to 6. *)
Definition isHeadingTag (t : jsstring) : bool :=
  match t with
  | [h; d] => (h =? 72) && (49 <=? d) && (d <=? 54)
  | _ => false
  end.

(** The [while] loop over the preceding siblings: [current] is the chain
    still to walk, and the result is [tableName] and [previousElements] as
    the loop leaves them. *)
Fixpoint nameLoop (current : list Located) (searchCount : nat)
    (tableName : jsstring) (previousElements : list jsstring)
    : jsstring * list jsstring :=
  match current with
  | [] => (tableName, previousElements)
  | cur :: rest =>
      if (searchCount <? 5)%nat then
        if isHeadingTag (tagName (self cur)) then
          (orElse (trim (textOf cur)) tableName, previousElements)
        else
          let previousElements :=
            if negb (isEmpty (trim (textOf cur)))
               && (length (trim (textOf cur)) <? 100)%nat
            then previousElements ++ [trim (textOf cur)]
            else previousElements in
          nameLoop rest (S searchCount) tableName previousElements
      else (tableName, previousElements)
  end.

Definition tableNameOf (index : nat) (table : Located) : jsstring :=
  let tableName := js "Table " ++ toString (index + 1) in
  match querySelector table selCaption with
  | Some caption => orElse (trim (textOf caption)) tableName
  | None =>
      let '(tableName, previousElements) :=
        nameLoop (previousElementSiblings table) 0 tableName [] in
      if startsWith tableName (js "Table ") && (0 <? length previousElements)%nat
      then default tableName (last previousElements)
      else tableName
  end.

Definition scanTable (b : Browser) (index : nat) (table : Located) : DisplayedTable :=
  let rows := querySelectorAll table selTr in
  let columnCount :=
    match head rows with
    | Some firstRow => length (querySelectorAll firstRow selTdTh)
    | None => 0%nat
    end in
  let isVisible :=
    bool_decide (is_Some (offsetParent (self table)))
    && negb (jseq (computedDisplay (self table)) (js "none"))
    && negb (jseq (computedVisibility (self table)) (js "hidden")) in
  mkDisplayedTable
    (js "table-" ++ toString index ++ js "-" ++ toStringN (dateNow b))
    (tableNameOf index table)
    (Some (nid (self table)))
    (length rows) columnCount isVisible.

Definition scanForTables (b : Browser) (container : nat) : list DisplayedTable :=
  imap (scanTable b) (querySelectorAll (locate b container) selTable).

(** The identifier [scanForTables] gives the table at [index] at time [now]. *)
Definition tableId (index : nat) (now : N) : jsstring :=
  js "table-" ++ toString index ++ js "-" ++ toStringN now.

Definition isDigit (c : N) : bool := (48 <=? c) && (c <=? 57).

(** *** The naming chain, described

    The preceding element siblings the loop may look at, the test for a
    heading, the short text of a sibling, and the siblings walked before the
    first heading. *)

Definition siblingWindow (table : Located) : list Located :=
  firstn 5 (previousElementSiblings table).

Definition isHeading (l : Located) : bool := isHeadingTag (tagName (self l)).

Definition shortText (l : Located) : option jsstring :=
  let t := trim (textOf l) in
  if negb (isEmpty t) && (length t <? 100)%nat then Some t else None.

Fixpoint beforeHeading (l : list Located) : list Located :=
  match l with
  | [] => []
  | x :: rest => if isHeading x then [] else x :: beforeHeading rest
  end.

Definition positionalName (index : nat) : jsstring :=
  js "Table " ++ toString (index + 1).

(** The chain as the specification states it: a caption with text; else
    the heading among the five siblings; else the short text nearest to the
    table; else the positional name. *)
Definition specifiedName (index : nat) (table : Located) : jsstring :=
  let captionText :=
    match querySelector table selCaption with
    | Some caption => trim (textOf caption)
    | None => []
    end in
  if negb (isEmpty captionText) then captionText
  else
    match List.find isHeading (siblingWindow table) with
    | Some heading => trim (textOf heading)
    | None =>
        match omap shortText (siblingWindow table) with
        | nearest :: _ => nearest
        | [] => positionalName index
        end
    end.

(** The chain as the code walks it: a caption decides alone (its text, or
    the positional name when it has none); without a caption, a heading with
    text among the five siblings gives the name; else the short text
    collected last on the way back from the table, the farthest one; else the
    positional name. *)
Definition describedName (index : nat) (table : Located) : jsstring :=
  match querySelector table selCaption with
  | Some caption => orElse (trim (textOf caption)) (positionalName index)
  | None =>
      let snippets := omap shortText (beforeHeading (siblingWindow table)) in
      let headingText :=
        match List.find isHeading (siblingWindow table) with
        | Some heading => trim (textOf heading)
        | None => []
        end in
      if negb (isEmpty headingText) then headingText
      else default (positionalName index) (last snippets)
  end.

(** The case the description leaves open: a heading whose text starts like
    a positional name, met after some short text. *)
Definition headingLooksPositional (table : Located) : bool :=
  match querySelector table selCaption with
  | Some _ => false
  | None =>
      match List.find isHeading (siblingWindow table) with
      | Some heading =>
          startsWith (trim (textOf heading)) (js "Table ")
          && negb (isEmpty (trim (textOf heading)))
          && (0 <? length (omap shortText (beforeHeading (siblingWindow table))))%nat
      | None => false
      end
  end.

(** ** Tab-aware recursive collector *)

(** What the code does to the page and then waits for.  How the application
    answers (which panel it shows, what it renders, what it takes out of the
    document) is not the collector's: the answer to the [n]-th interaction
    is an input, [react n]. *)
Inductive Interaction :=
| ScrollIntoView (id : nat)
| Focus (id : nat)
| Click (id : nat)
| Delay (ms : nat).

Definition selTab : list Complex := [Sub [SelAttr (js "role") (js "tab")]].
Definition selTablist : list Complex := [Sub [SelAttr (js "role") (js "tablist")]].
Definition selActiveTrigger : list Complex :=
  [Sub [SelAttr (js "role") (js "tab"); SelAttr (js "data-state") (js "active")];
   Sub [SelAttr (js "role") (js "tab"); SelAttr (js "aria-selected") (js "true")];
   Sub [SelClass (js "active")]].
Definition selActivePanel : list Complex :=
  [Sub [SelAttr (js "role") (js "tabpanel"); SelAttr (js "data-state") (js "active")];
   Desc [SelAttr (js "data-state") (js "active")] [SelAttr (js "role") (js "tabpanel")]].

Definition setCollector (c : list DisplayedTable) (s : gset nat) (w : World) : World :=
  mkWorld (browser w) (isExporting w) (events w) c s (failAfter w) (turn w).

(** The parent of the nearest element (the start included) that matches. *)
Fixpoint closestParentIn (sel : list Complex) (chain : list Element) : option Element :=
  match chain with
  | [] => None
  | e :: up =>
      if existsb (matchComplex up e) sel then head up else closestParentIn sel up
  end.

Definition isInactiveTrigger (l : Located) : bool :=
  jseq (tagName (self l)) (js "BUTTON")
  && negb (bool_decide (getAttribute (self l) (js "data-state") = Some (js "active")))
  && negb (bool_decide (getAttribute (self l) (js "aria-selected") = Some (js "true"))).

Definition triggerName (l : Located) : jsstring :=
  orElse
    (trim (orElse (orElse (textOf l)
                          (default [] (getAttribute (self l) (js "aria-label"))))
                  []))
    (js "Sub Tab").

Section Collector.

Variable react : nat -> Interaction -> Browser -> Browser.

Definition interact (a : Interaction) : M unit :=
  modify (fun w =>
    mkWorld (react (turn w) a (browser w)) (isExporting w) (events w)
            (collected w) (seen w) (failAfter w) (S (turn w))).

(** A method call on an element: it may throw. *)
Definition call (a : Interaction) : M unit := tick ;;; interact a.

(** [await new Promise(res => setTimeout(res, ms))]. *)
Definition await (ms : nat) : M unit := interact (Delay ms).

Definition collectOne (prefix : jsstring) (t : DisplayedTable) : M unit :=
  w <- get ;;
  match element t with
  | Some el =>
      if bool_decide (el ∈ seen w) then ret tt
      else
        modify (setCollector
          (collected w ++
             [mkDisplayedTable
                (dt_id t ++ js "-" ++ orElse prefix (js "active"))
                (if isEmpty prefix then dt_name t
                 else prefix ++ [32; EMDASH; 32] ++ dt_name t)
                (element t) (rowCount t) (columnCount t) true])
          ({[el]} ∪ seen w))
  | None => ret tt
  end.

(** [prefix] is the empty string where the code passes none. *)
Definition collectVisible (root : nat) (prefix : jsstring)
    (searchContext : option nat) : M unit :=
  w <- get ;;
  let searchRoot := default root searchContext in
  let found :=
    List.filter (fun t => isVisible t && (0 <? rowCount t)%nat)
                (scanForTables (browser w) searchRoot) in
  forEach found (collectOne prefix).

Definition getAllActiveTriggers (b : Browser) (searchRoot : nat) : list nat :=
  List.map (fun l => nid (self l))
    (List.filter
       (fun l => isHTMLElement (self l)
                 && bool_decide (getAttribute (self l) (js "role") = Some (js "tab")))
       (querySelectorAll (locate b searchRoot) selActiveTrigger)).

(** One turn of the loop over the triggers of a level; [recurse] is
    [processTabLevel] one level down. *)
Definition processTrigger (root searchRoot : nat) (levelPrefix : jsstring)
    (level : nat) (recurse : nat -> jsstring -> nat -> M unit)
    (trigger : nat) : M unit :=
  w <- get ;;
  let subTabName := triggerName (locate (browser w) trigger) in
  let fullTabName :=
    if isEmpty levelPrefix then subTabName
    else levelPrefix ++ js " > " ++ subTabName in
  tryCatch
    (emit (ConsoleLog (js "Level " ++ toString level ++ js ": Clicking tab: "
                         ++ fullTabName)) ;;;
     call (ScrollIntoView trigger) ;;;
     call (Focus trigger) ;;;
     call (Click trigger) ;;;
     await 1200 ;;;
     tick ;;;
     await 300 ;;;
     w1 <- get ;;
     let beforeCount := length (collected w1) in
     collectVisible root fullTabName (Some searchRoot) ;;;
     w2 <- get ;;
     let afterCount := length (collected w2) in
     emit (ConsoleLog (js "Level " ++ toString level ++ js ": Collected "
                         ++ toString (afterCount - beforeCount)
                         ++ js " tables from sub-tab: " ++ fullTabName)) ;;;
     match closestParentIn selTablist
             (self (locate (browser w2) trigger)
                :: ancestors (locate (browser w2) trigger)) with
     | Some tabsContainer =>
         match querySelector (locate (browser w2) (nid tabsContainer))
                             selActivePanel with
         | Some activeTabContent =>
             if isHTMLElement (self activeTabContent)
             then recurse (nid (self activeTabContent)) fullTabName (level + 1)%nat
             else ret tt
         | None => ret tt
         end
     | None => ret tt
     end)
    (fun e =>
       emit (ConsoleWarn (js "Level " ++ toString level
                            ++ js ": Sub-tab switch failed for " ++ fullTabName
                            ++ js ":") (Some e))).

(** [processTabLevel] at [level = 6 - budget]: the guard [level > 5] of the
    code is [budget = 0]. *)
Fixpoint processTabLevelFrom (budget : nat) (root searchRoot : nat)
    (levelPrefix : jsstring) (level : nat) : M unit :=
  match budget with
  | O =>
      emit (ConsoleWarn (js "Maximum tab nesting level reached ("
                           ++ toString level ++ js "), stopping recursion") None)
  | S budget' =>
      w <- get ;;
      let triggers :=
        List.map (fun l => nid (self l))
          (List.filter isInactiveTrigger
             (querySelectorAll (locate (browser w) searchRoot) selTab)) in
      emit (ConsoleLog (js "Level " ++ toString level ++ js ": Found "
                          ++ toString (length triggers)
                          ++ js " inactive tab triggers in "
                          ++ orElse levelPrefix (js "root"))) ;;;
      forEach triggers
        (processTrigger root searchRoot levelPrefix level
           (processTabLevelFrom budget' root))
  end.

Definition processTabLevel (root searchRoot : nat) (levelPrefix : jsstring)
    (level : nat) : M unit :=
  processTabLevelFrom (6 - level) root searchRoot levelPrefix level.

Definition restoreTrigger (trigger : nat) : M unit :=
  tryCatch
    (w <- get ;;
     emit (ConsoleLog (js "Restoring active tab: "
                         ++ trim (textOf (locate (browser w) trigger)))) ;;;
     call (ScrollIntoView trigger) ;;;
     call (Focus trigger) ;;;
     call (Click trigger) ;;;
     await 200)
    (fun e =>
       w <- get ;;
       emit (ConsoleWarn (js "Failed to restore initial active tab: "
                            ++ trim (textOf (locate (browser w) trigger)))
                         (Some e))).

Definition scanForTablesIncludingSubTabs (container : nat)
    : M (list DisplayedTable) :=
  modify (setCollector [] ∅) ;;;
  let root := container in
  w <- get ;;
  let initialActiveTriggers := getAllActiveTriggers (browser w) root in
  collectVisible root (js "Initial Active Content") None ;;;
  processTabLevel root root [] 0 ;;;
  w <- get ;;
  let activeTabContents :=
    List.map (fun l => nid (self l))
             (querySelectorAll (locate (browser w) root) selActivePanel) in
  forEach activeTabContents
    (fun activeContent =>
       processTabLevel root activeContent (js "Active Tab Content") 1) ;;;
  forEach (rev initialActiveTriggers) restoreTrigger ;;;
  await 500 ;;;
  collectVisible root (js "Final Restored State") None ;;;
  w <- get ;;
  emit (ConsoleLog (js "Total tables collected: "
                      ++ toString (length (collected w))
                      ++ js " across all tab levels")) ;;;
  ret (collected w).

End Collector.

(** *** The collector's bookkeeping, described *)

(** [collected] and [seen] agree: no element is referenced twice, every
    entry references an element, and the elements referenced are those of
    [seen]. *)
Definition collectorConsistent (w : World) : Prop :=
  NoDup (List.map element (collected w))
  /\ Forall (fun t => is_Some (element t)) (collected w)
  /\ forall el, Some el ∈ List.map element (collected w) <-> el ∈ seen w.

(** The tables a pass of [collectVisible] retains from a scan. *)
Definition visibleTables (b : Browser) (searchRoot : nat) : list DisplayedTable :=
  List.filter (fun t => isVisible t && (0 <? rowCount t)%nat)
              (scanForTables b searchRoot).

(** The entry [collectVisible] makes of a scanned table under [prefix]: the
    identifier with the prefix (or [active]) appended, the name behind the
    prefix and a dash, and the table marked visible. *)
Definition labelled (prefix : jsstring) (t : DisplayedTable) : DisplayedTable :=
  mkDisplayedTable
    (dt_id t ++ js "-" ++ orElse prefix (js "active"))
    (if isEmpty prefix then dt_name t
     else prefix ++ [32; EMDASH; 32] ++ dt_name t)
    (element t) (rowCount t) (columnCount t) true.

(** The test of the [filter] in [collectVisible]. *)
Definition retained (t : DisplayedTable) : bool :=
  isVisible t && (0 <? rowCount t)%nat.

(** [collected] still starts with the entries [entries]. *)
Definition startsWithEntries (entries : list DisplayedTable) (w : World) : Prop :=
  exists rest, collected w = entries ++ rest.

(** ** The earlier collector

    The repository holds a second, older copy of the hook.  Its scanner, its
    extractor, its serialisers and its orchestrator are those above; its
    collector walks one level of tabs only, always scans from the root,
    restores the first of the initially active triggers and makes no final
    pass. *)

Module Legacy.

Definition selInitiallyActive : list Complex :=
  [Sub [SelAttr (js "role") (js "tab"); SelAttr (js "data-state") (js "active")];
   Sub [SelAttr (js "aria-selected") (js "true")];
   Sub [SelClass (js "active")]].

Section Collector.

Variable react : nat -> Interaction -> Browser -> Browser.

Definition visitTrigger (root : nat) (trigger : nat) : M unit :=
  w <- get ;;
  let subTabName := triggerName (locate (browser w) trigger) in
  tryCatch
    (emit (ConsoleLog (js "Clicking tab: " ++ subTabName)) ;;;
     call react (ScrollIntoView trigger) ;;;
     call react (Focus trigger) ;;;
     call react (Click trigger) ;;;
     await react 300 ;;;
     tick ;;;
     w1 <- get ;;
     let beforeCount := length (collected w1) in
     collectVisible root subTabName None ;;;
     w2 <- get ;;
     let afterCount := length (collected w2) in
     emit (ConsoleLog (js "Collected " ++ toString (afterCount - beforeCount)
                         ++ js " tables from sub-tab: " ++ subTabName)))
    (fun e =>
       emit (ConsoleWarn (js "Sub-tab switch failed for " ++ subTabName ++ js ":")
                         (Some e))).

Definition restoreFirst (initialActiveTriggers : list nat) : M unit :=
  match initialActiveTriggers with
  | firstActive :: _ =>
      tryCatch
        (w <- get ;;
         emit (ConsoleLog (js "Restoring active tab: "
                             ++ trim (textOf (locate (browser w) firstActive)))) ;;;
         call react (ScrollIntoView firstActive) ;;;
         call react (Focus firstActive) ;;;
         call react (Click firstActive) ;;;
         await react 200)
        (fun e =>
           emit (ConsoleWarn (js "Failed to restore initial active tab:") (Some e)))
  | [] => ret tt
  end.

Definition scanForTablesIncludingSubTabs (container : nat)
    : M (list DisplayedTable) :=
  modify (setCollector [] ∅) ;;;
  let root := container in
  w <- get ;;
  let initialActiveTriggers :=
    List.map (fun l => nid (self l))
             (querySelectorAll (locate (browser w) root) selInitiallyActive) in
  collectVisible root [] None ;;;
  w <- get ;;
  let triggers :=
    List.map (fun l => nid (self l))
      (List.filter isInactiveTrigger
         (querySelectorAll (locate (browser w) root) selTab)) in
  emit (ConsoleLog (js "Found " ++ toString (length triggers)
                      ++ js " inactive tab triggers to scan")) ;;;
  forEach triggers (visitTrigger root) ;;;
  restoreFirst initialActiveTriggers ;;;
  w <- get ;;
  emit (ConsoleLog (js "Total tables collected: "
                      ++ toString (length (collected w))
                      ++ js " from " ++ toString (length triggers + 1)
                      ++ js " tabs")) ;;;
  ret (collected w).

End Collector.

End Legacy.

(** ** The export dialog

    [AdvancedTabExportControls] (TabLevelExportControls.tsx) is the dialog
    that calls the hook.  Its state is a record; the toasts it shows and the
    text it puts on the clipboard are kept beside the world of the hook.  Its
    handlers run in a state-and-exception monad over the four. *)

Module AdvancedTabExportControls.

Inductive Toast :=
| ToastSuccess (message : jsstring)
| ToastError (message : jsstring).

(** The three values the format of the dialog takes. *)
Inductive DialogFormat :=
| DialogPdf
| DialogCsv
| DialogExcel.

Definition formatName (f : DialogFormat) : jsstring :=
  match f with
  | DialogPdf => js "pdf"
  | DialogCsv => js "csv"
  | DialogExcel => js "excel"
  end.

Definition formatOf (f : DialogFormat) : Format :=
  match f with
  | DialogPdf => FormatPdf
  | DialogCsv => FormatCsv
  | DialogExcel => FormatExcel
  end.

(** [String.prototype.toUpperCase] on a string of ASCII characters, as the
    names of the formats are. *)
Definition toUpperCase (s : jsstring) : jsstring :=
  List.map (fun c => if (97 <=? c) && (c <=? 122) then c - 32 else c) s.

(** The properties every object inherits from [Object.prototype]; each
    reads as a function or an object, hence as true in a condition. *)
Definition objectPrototypeNames : list jsstring :=
  [js "constructor"; js "hasOwnProperty"; js "isPrototypeOf";
   js "propertyIsEnumerable"; js "toLocaleString"; js "toString"; js "valueOf";
   js "__defineGetter__"; js "__defineSetter__"; js "__lookupGetter__";
   js "__lookupSetter__"; js "__proto__"].

(** [record[key]] read as a condition, for a record of booleans: the own
    property when there is one, else what is inherited under that name, else
    undefined. *)
Definition truthyAt (record : gmap jsstring bool) (key : jsstring) : bool :=
  match record !! key with
  | Some v => v
  | None => bool_decide (key ∈ objectPrototypeNames)
  end.

(** The property [tabName] and the state of the component. *)
Record State := mkState {
  tabName : jsstring;
  isDialogOpen : bool;
  exportFormat : DialogFormat;
  fileName : jsstring;
  discoveredTables : list DisplayedTable;
  selectedTables : gmap jsstring bool;
  exportOptions : Options
}.

(** The hook's world, the state of the dialog, the toasts shown and the
    text on the clipboard. *)
Record Ui := mkUi {
  page : World;
  state : State;
  toasts : list Toast;
  clipboard : option jsstring
}.

Definition UI (A : Type) : Type := Ui -> Result A * Ui.

Definition retUi {A} (a : A) : UI A := fun u => (Ok a, u).

Definition bindUi {A B} (m : UI A) (k : A -> UI B) : UI B :=
  fun u => match m u with
           | (Ok a, u') => k a u'
           | (Throw e, u') => (Throw e, u')
           end.

Definition tryCatchUi {A} (m : UI A) (handler : Exn -> UI A) : UI A :=
  fun u => match m u with
           | (Ok a, u') => (Ok a, u')
           | (Throw e, u') => handler e u'
           end.

Declare Scope ui_scope.
Delimit Scope ui_scope with ui_m.
Notation "x <- m ;; k" := (bindUi m (fun x => k))
  (at level 100, m at next level, right associativity) : ui_scope.
Notation "m ;;; k" := (bindUi m (fun _ => k))
  (at level 100, right associativity) : ui_scope.

(** A call into the hook, or into anything else that runs on the page. *)
Definition lift {A} (m : M A) : UI A :=
  fun u => match m (page u) with
           | (r, w') => (r, mkUi w' (state u) (toasts u) (clipboard u))
           end.

Definition getUi : UI Ui := fun u => (Ok u, u).

Definition toast (t : Toast) : UI unit :=
  fun u => (Ok tt, mkUi (page u) (state u) (toasts u ++ [t]) (clipboard u)).

Definition setIsDialogOpen (open : bool) : UI unit :=
  fun u =>
    (Ok tt,
     mkUi (page u)
          (mkState (tabName (state u)) open (exportFormat (state u))
                   (fileName (state u)) (discoveredTables (state u))
                   (selectedTables (state u)) (exportOptions (state u)))
          (toasts u) (clipboard u)).

(** [f?.()] for an optional callback. *)
Definition optionalCall (f : option (M unit)) : UI unit :=
  match f with
  | Some g => lift g
  | None => retUi tt
  end.

(** The tables of the dialog that are ticked. *)
Definition selectedOf (s : State) : list DisplayedTable :=
  List.filter (fun table => truthyAt (selectedTables s) (dt_id table))
              (discoveredTables s).

Definition handleExport (lib : PdfLibrary)
    (onExportStart onExportComplete : option (M unit)) : UI unit :=
  tryCatchUi
    (optionalCall onExportStart ;;;
     u <- getUi ;;
     let tablesToExport := selectedOf (state u) in
     if Nat.eqb (length tablesToExport) 0 then
       toast (ToastError (js "Please select at least one table to export"))
     else
       let exportConfig :=
         mkExportConfig (formatOf (exportFormat (state u))) (fileName (state u))
                        (exportOptions (state u)) tablesToExport
                        (tabName (state u)) in
       lift (exportDisplayedData lib exportConfig) ;;;
       toast (ToastSuccess (toUpperCase (formatName (exportFormat (state u)))
                              ++ js " exported successfully")) ;;;
       setIsDialogOpen false ;;;
       optionalCall onExportComplete)%ui_m
    (fun error =>
       lift (emit (ConsoleError (js "Export failed:") error)) ;;;
       toast (ToastError (js "Export failed")))%ui_m.

Definition getTotalSelectedRecords (s : State) : nat :=
  fold_left (fun sum table => (sum + rowCount table)%nat) (selectedOf s) 0%nat.

(** [navigator.clipboard.writeText]: the browser may refuse. *)
Definition writeText (content : jsstring) : UI unit :=
  (lift tick ;;;
   (fun u => (Ok tt, mkUi (page u) (state u) (toasts u) (Some content))))%ui_m.

(** The texts of the cells of a table as [handleCopyDisplayedData] reads
    them, row by row. *)
Definition copiedCells (b : Browser) (table : nat) : list (list jsstring) :=
  List.map
    (fun row =>
       List.map (fun cell => orElse (trim (textOf cell)) [])
                (querySelectorAll row selTdTh))
    (querySelectorAll (locate b table) selTr).

(** What a table adds to the text: its name, a line of hyphens as long as
    the name, a line per row with the cells a tab apart, and an empty line. *)
Definition copiedTable (b : Browser) (table : DisplayedTable) : jsstring :=
  match element table with
  | Some el =>
      dt_name table ++ [LF]
      ++ repeat 45 (length (dt_name table)) ++ [LF]
      ++ flat_map (fun rowData => join [9] rowData ++ [LF]) (copiedCells b el)
      ++ [LF]
  | None => []
  end.

Definition handleCopyDisplayedData : UI unit :=
  tryCatchUi
    (u <- getUi ;;
     let tablesToCopy := selectedOf (state u) in
     if Nat.eqb (length tablesToCopy) 0 then
       toast (ToastError (js "No tables selected to copy"))
     else
       let clipboardContent :=
         (tabName (state u) ++ js " - Exported Data" ++ [LF])
         ++ (js "Generated: " ++ nowFormatted (browser (page u)) ++ [LF; LF])
         ++ flat_map (copiedTable (browser (page u))) tablesToCopy in
       writeText clipboardContent ;;;
       toast (ToastSuccess (js "Table data copied to clipboard")))%ui_m
    (fun error =>
       lift (emit (ConsoleError (js "Failed to copy data:") error)) ;;;
       toast (ToastError (js "Failed to copy data")))%ui_m.

End AdvancedTabExportControls.

(** ** The quick export buttons

    [TableExportControls] (TabLevelExportControls.tsx) scans the page with
    the collector and exports what it finds in one go.  The toasts it shows
    are kept in a log beside the world of the hook.  The wording that belongs
    to the JavaScript engine (the message of the error for a call on [null],
    the message of a failure of the browser or of a library) is an input. *)

Module TableExportControls.

Inductive Toast :=
| ToastInfo (message : jsstring)
| ToastSuccess (message : jsstring)
| ToastError (message : jsstring).

(** The two formats the buttons pass. *)
Inductive ButtonFormat :=
| ButtonPdf
| ButtonCsv.

Definition formatName (f : ButtonFormat) : jsstring :=
  match f with
  | ButtonPdf => js "pdf"
  | ButtonCsv => js "csv"
  end.

Definition formatOf (f : ButtonFormat) : Format :=
  match f with
  | ButtonPdf => FormatPdf
  | ButtonCsv => FormatCsv
  end.

Definition isCsv (f : ButtonFormat) : bool :=
  match f with
  | ButtonPdf => false
  | ButtonCsv => true
  end.

Record Engine := mkEngine {
  nullDereference : jsstring;
  failureMessage : option jsstring
}.

(** [error instanceof Error ? error.message : 'Unknown error']. *)
Definition messageOf (engine : Engine) (error : Exn) : jsstring :=
  match error with
  | Error message => message
  | InjectedFailure => default (js "Unknown error") (failureMessage engine)
  end.

(** [document.querySelector]: the first element of the document, its root
    included, that matches. *)
Definition documentQuerySelector (b : Browser) (sel : list Complex)
    : option Located :=
  head (List.filter (matches sel) (walk [] [] (tree b))).

(** [document.body]: the first child of the root element [html] that is a
    [body] or a [frameset]. *)
Definition documentBody (b : Browser) : option Located :=
  match walk [] [] (tree b) with
  | root :: below =>
      if jseq (tagName (self root)) (js "HTML") then
        head (List.filter
                (fun l => Nat.eqb (length (ancestors l)) 1
                          && (jseq (tagName (self l)) (js "BODY")
                              || jseq (tagName (self l)) (js "FRAMESET")))
                below)
      else None
  | [] => None
  end.

Definition sectionContainer (b : Browser) : option nat :=
  (fun l => nid (self l)) <$>
  match documentQuerySelector b [Sub [SelAttr (js "data-lov-name") (js "Tabs")]] with
  | Some l => Some l
  | None =>
      match documentQuerySelector b [Sub [SelTag (js "MAIN")]] with
      | Some l => Some l
      | None => documentBody b
      end
  end.

(** A plain object used as a table of counts: its own properties in the
    order of their creation; the count [None] is [NaN]. *)
Definition Counts : Type := list (jsstring * option nat).

Definition ownCount (acc : Counts) (key : jsstring) : option (option nat) :=
  snd <$> List.find (fun kv => jseq (fst kv) key) acc.

(** [!acc[key]]: zero and [NaN] are false; what is inherited from
    [Object.prototype] is a function or an object; anything else is
    undefined. *)
Definition isFalsyAt (acc : Counts) (key : jsstring) : bool :=
  match ownCount acc key with
  | Some (Some n) => Nat.eqb n 0
  | Some None => true
  | None => negb (bool_decide (key ∈ AdvancedTabExportControls.objectPrototypeNames))
  end.

(** [acc[key] = v] for a number [v]: the accessor [__proto__] ignores it. *)
Definition assign (acc : Counts) (key : jsstring) (v : option nat) : Counts :=
  if jseq key (js "__proto__") then acc
  else if bool_decide (is_Some (ownCount acc key))
       then List.map (fun kv => if jseq (fst kv) key then (key, v) else kv) acc
       else acc ++ [(key, v)].

(** [acc[key]++]: what is not a number counts as [NaN]. *)
Definition increment (acc : Counts) (key : jsstring) : Counts :=
  assign acc key (S <$> default None (ownCount acc key)).

(** The decimal value of a string of digits. *)
Definition digitsValue (s : jsstring) : N :=
  fold_left (fun n c => 10 * n + (c - 48)) s 0.

(** An array index: the canonical decimal form of an integer below
    [2^32 - 1]. *)
Definition arrayIndex (key : jsstring) : option N :=
  if negb (isEmpty key) && forallb isDigit key
     && jseq (toStringN (digitsValue key)) key
     && (digitsValue key <? 4294967295)
  then Some (digitsValue key) else None.

Fixpoint insertByIndex {A} (x : N * A) (l : list (N * A)) : list (N * A) :=
  match l with
  | [] => [x]
  | y :: rest => if fst x <? fst y then x :: l else y :: insertByIndex x rest
  end.

(** [Object.entries]: the properties named by an array index first, in
    ascending order, then the others in the order of their creation. *)
Definition entries (acc : Counts) : list (jsstring * option nat) :=
  List.map snd
    (fold_right insertByIndex []
       (omap (fun kv => (fun n => (n, kv)) <$> arrayIndex (fst kv)) acc))
  ++ List.filter (fun kv => negb (bool_decide (is_Some (arrayIndex (fst kv))))) acc.

Definition showCount (count : option nat) : jsstring :=
  match count with
  | Some n => toString n
  | None => js "NaN"
  end.

(** The source a table is counted under: what stands before the first dash
    of its name, or [Main Content] for a name without a dash. *)
Definition sourceOf (table : DisplayedTable) : jsstring :=
  if includes (dt_name table) [EMDASH]
  then trim (default [] (head (splitOn EMDASH (dt_name table))))
  else js "Main Content".

Definition countSource (acc : Counts) (table : DisplayedTable) : Counts :=
  let source := sourceOf table in
  let acc := if isFalsyAt acc source then assign acc source (Some 0%nat) else acc in
  increment acc source.

Definition sourcesSummary (availableTables : list DisplayedTable) : jsstring :=
  join (js ", ")
       (List.map (fun kv => fst kv ++ js ": " ++ showCount (snd kv))
                 (entries (fold_left countSource availableTables []))).

Record Ui := mkUi {
  page : World;
  toasts : list Toast
}.

Definition UI (A : Type) : Type := Ui -> Result A * Ui.

Definition retUi {A} (a : A) : UI A := fun u => (Ok a, u).

Definition throwUi {A} (e : Exn) : UI A := fun u => (Throw e, u).

Definition bindUi {A B} (m : UI A) (k : A -> UI B) : UI B :=
  fun u => match m u with
           | (Ok a, u') => k a u'
           | (Throw e, u') => (Throw e, u')
           end.

Definition tryCatchUi {A} (m : UI A) (handler : Exn -> UI A) : UI A :=
  fun u => match m u with
           | (Ok a, u') => (Ok a, u')
           | (Throw e, u') => handler e u'
           end.

Declare Scope quick_scope.
Delimit Scope quick_scope with quick_m.
Notation "x <- m ;; k" := (bindUi m (fun x => k))
  (at level 100, m at next level, right associativity) : quick_scope.
Notation "m ;;; k" := (bindUi m (fun _ => k))
  (at level 100, right associativity) : quick_scope.

Definition lift {A} (m : M A) : UI A :=
  fun u => match m (page u) with
           | (r, w') => (r, mkUi w' (toasts u))
           end.

Definition getUi : UI Ui := fun u => (Ok u, u).

Definition toast (t : Toast) : UI unit :=
  fun u => (Ok tt, mkUi (page u) (toasts u ++ [t])).

(** The options of the quick export. *)
Definition quickOptions (exportFormat : ButtonFormat) : Options :=
  mkOptions true true false (isCsv exportFormat) true.

Section Handlers.

Variable react : nat -> Interaction -> Browser -> Browser.
Variable lib : PdfLibrary.
Variable engine : Engine.
Variable baseFilename : jsstring.
Variable title : jsstring.

Definition handleAdvancedExport (exportFormat : ButtonFormat) : UI unit :=
  tryCatchUi
    (toast (ToastInfo
              (js "Scanning all tables and horizontal sub-tabs... This may take a moment.")) ;;;
     u <- getUi ;;
     let sectionContainer := sectionContainer (browser (page u)) in
     toast (ToastInfo (js "Activating sub-tabs to collect all table data...")) ;;;
     availableTables <-
       match sectionContainer with
       | Some container => lift (scanForTablesIncludingSubTabs react container)
       | None =>
           lift (modify (setCollector [] ∅)) ;;;
           throwUi (Error (nullDereference engine))
       end ;;
     if Nat.eqb (length availableTables) 0 then
       toast (ToastError (js "No tables found to export"))
     else
       toast (ToastSuccess (js "Found " ++ toString (length availableTables)
                              ++ js " tables from: "
                              ++ sourcesSummary availableTables)) ;;;
       let config :=
         mkExportConfig (formatOf exportFormat) baseFilename
                        (quickOptions exportFormat) availableTables title in
       lift (exportDisplayedData lib config) ;;;
       toast (ToastSuccess (js "Successfully exported "
                              ++ toString (length availableTables)
                              ++ js " tables as "
                              ++ AdvancedTabExportControls.toUpperCase
                                   (formatName exportFormat))))%quick_m
    (fun error =>
       lift (emit (ConsoleError (js "Advanced export failed:") error)) ;;;
       toast (ToastError (js "Export failed: " ++ messageOf engine error)))%quick_m.

End Handlers.

End TableExportControls.

(** ** The end-to-end CSV scenario *)

(** The two tables of the end-to-end CSV scenario. *)
Definition scenarioTableA : TableData :=
  mkTableData (js "Table A") [js "Name"; js "Revenue"]
    [[js "Alice"; js "1,200"]; [js "Bob"; js "800"]] None.

Definition scenarioTableB : TableData :=
  mkTableData (js "Table B") [js "Month"; js "Count"] [[js "Jan"; js "5"]] None.

(** ** Sample documents

    Small pages to run the code on.  [node] builds an element whose
    [innerHTML] is the markup of its children; the sample texts and attribute
    values hold no character that markup would escape. *)

Module Samples.

Definition lowerCase (s : jsstring) : jsstring :=
  List.map (fun c => if (65 <=? c) && (c <=? 90) then c + 32 else c) s.

Definition attributeMarkup (kv : jsstring * jsstring) : jsstring :=
  js " " ++ fst kv ++ js "=" ++ [DQUOTE] ++ snd kv ++ [DQUOTE].

Definition outerHTML (n : Node) : jsstring :=
  match n with
  | Text d => d
  | Elem e _ =>
      js "<" ++ lowerCase (tagName e)
      ++ (if isEmpty (join (js " ") (classList e)) then []
          else attributeMarkup (js "class", join (js " ") (classList e)))
      ++ flat_map attributeMarkup (attributes e)
      ++ js ">" ++ innerHTML e ++ js "</" ++ lowerCase (tagName e) ++ js ">"
  end.

(** A rendered HTML element. *)
Definition node (id : nat) (tag : string) (classes : list string)
    (attrs : list (string * string)) (kids : list Node) : Node :=
  Elem (mkElement id (js tag) true
          (List.map (fun kv => (js (fst kv), js (snd kv))) attrs)
          (List.map js classes)
          (flat_map outerHTML kids)
          (Some 0%nat) (js "block") (js "visible"))
       kids.

Definition text (s : string) : Node := Text (js s).

(** A scroll container around a table with a header row and two data
    rows; the amount of the first data row carries its currency sign in an
    attribute only. *)
Definition salesPage : Node :=
  node 1 "DIV" ["overflow-x-auto"%string] [] [
    node 2 "TABLE" [] [] [
      node 3 "TR" [] [] [
        node 4 "TH" [] [] [text "Name"];
        node 5 "TH" [] [] [text "Revenue"]];
      node 6 "TR" [] [] [
        node 7 "TD" [] [] [text " Alice "];
        node 8 "TD" [] [] [
          node 9 "SPAN" [] [("data-symbol", "$")%string] [text "1,200"]]];
      node 10 "TR" [] [] [
        node 11 "TD" [] [] [text "Bob"];
        node 12 "TD" [] [] [text "800"]]]].

(** A layout in which nothing scrolls. *)
Definition noLayout (styles : list (nat * Inline)) (id : nat) : nat * nat :=
  (0%nat, 0%nat).

(** The keyword of the inline [overflow-x] of an element, if it has one. *)
Definition inlineOverflowX (styles : list (nat * Inline)) (id : nat)
    : option Overflow :=
  match List.find (fun s => Nat.eqb (fst s) id) styles with
  | Some s => declared <$> styleOverflowX (snd s)
  | None => None
  end.

(** An element whose overflow is visible or clipped without scrolling has
    no scroll range. *)
Definition scrollsWith (k : Overflow) : bool :=
  match k with
  | OvVisible => false
  | OvClip => false
  | _ => true
  end.

(** A layout with one element whose content is [reach] pixels wider than
    the element itself: it scrolls that far to the right as long as its
    [overflow-x] makes it a scroll container, by its inline declaration or,
    without one, by its style sheet. *)
Definition layoutOf (container : nat) (sheet : Overflow) (reach : nat)
    (styles : list (nat * Inline)) (id : nat) : nat * nat :=
  if Nat.eqb id container
     && scrollsWith (default sheet (inlineOverflowX styles container))
  then (0%nat, reach) else (0%nat, 0%nat).

(** The table of the sales page is 60 pixels wider than its container,
    which scrolls sideways by its class. *)
Definition salesLayout : list (nat * Inline) -> nat -> nat * nat :=
  layoutOf 1 OvAuto 60.

(** The container is clipped and scrolled 40 pixels to the right. *)
Definition salesBrowser : Browser :=
  mkBrowser salesPage []
    {[ 1%nat := mkInline None None (Some (mkDeclaration OvHidden false))
                         (Some (mkDeclaration OvHidden false)) ]}
    {[ 1%nat := 40%Z ]}
    salesLayout
    1700000000000 (js "January 1st, 2025 at 9:00 AM").

(** A table that is 600 pixels wide by an inline declaration that carries
    the priority, in a container 60 pixels narrower.  The container has no
    class: it scrolls sideways by its inline [overflow-x] alone, and is
    scrolled 40 pixels to the right. *)
Definition inlinePage : Node :=
  node 1 "DIV" [] [] [
    node 2 "TABLE" [] [] [
      node 3 "TR" [] [] [node 4 "TD" [] [] [text "1"]]]].

Definition inlineBrowser : Browser :=
  mkBrowser inlinePage []
    {[ 1%nat := mkInline None None (Some (mkDeclaration OvAuto false)) None;
       2%nat := mkInline (Some (mkDeclaration (js "600px") true)) None None None ]}
    {[ 1%nat := 40%Z ]}
    (layoutOf 1 OvVisible 60)
    0 [].

Definition world (b : Browser) (failure : option nat) : World :=
  mkWorld b false [] [] ∅ failure 0.

Definition allOn : Options := mkOptions true true true true true.
Definition plain : Options := mkOptions true false false false false.
Definition noHeaders : Options := mkOptions false false false false false.
Definition formatted : Options := mkOptions false true false false false.

(** A cell whose markup holds a backslash before its currency sign. *)
Definition feeCell : Node :=
  node 21 "TD" [] [] [
    node 22 "SPAN" [] [("data-path", "C:\fees"); ("data-currency", "$")]%string
      [text "100"]].

Definition feePage : Node :=
  node 20 "TABLE" [] [] [node 23 "TR" [] [] [feeCell]].

(** Two paragraphs before a table without caption. *)
Definition notesPage : Node :=
  node 30 "DIV" [] [] [
    node 31 "P" [] [] [text "Far"];
    node 32 "P" [] [] [text "Near"];
    node 33 "TABLE" [] [] [node 34 "TR" [] [] [node 35 "TD" [] [] [text "1"]]]].

(** A heading before a table with an empty caption. *)
Definition captionPage : Node :=
  node 40 "DIV" [] [] [
    node 41 "H2" [] [] [text "Revenue"];
    node 42 "TABLE" [] [] [
      node 43 "CAPTION" [] [] [];
      node 44 "TR" [] [] [node 45 "TD" [] [] [text "1"]]]].

(** A heading, then a paragraph, then a table; and a second table with a
    caption. *)
Definition headingPage : Node :=
  node 50 "DIV" [] [] [
    node 51 "H2" [] [] [text "Revenue"];
    node 52 "P" [] [] [text "in thousands"];
    node 53 "TABLE" [] [] [node 54 "TR" [] [] [node 55 "TD" [] [] [text "1"]]];
    node 56 "TABLE" [] [] [
      node 57 "CAPTION" [] [] [text " Attendance "];
      node 58 "TR" [] [] [node 59 "TD" [] [] [text "2"]]];
    node 60 "SECTION" [] [] [
      node 61 "TABLE" [] [] [node 62 "TR" [] [] [node 63 "TD" [] [] [text "3"]]]]].

Definition browserOf (page : Node) : Browser := mkBrowser page [] ∅ ∅ noLayout 0 [].

(** A page with two tabs.  The panel of the active tab holds one table; a
    second table, of totals, stands below the panels and shows under both
    tabs. *)
Definition salesTab (active : bool) : Node :=
  node 72 "BUTTON" []
    [("role", "tab"); ("data-state", if active then "active" else "inactive")]%string
    [text "Sales"].

Definition leadsTab (active : bool) : Node :=
  node 73 "BUTTON" []
    [("role", "tab"); ("data-state", if active then "active" else "inactive")]%string
    [text "Leads"].

Definition salesTable : Node :=
  node 76 "TABLE" [] [] [node 77 "TR" [] [] [node 78 "TD" [] [] [text "10"]]].

Definition leadsTable : Node :=
  node 79 "TABLE" [] [] [node 80 "TR" [] [] [node 81 "TD" [] [] [text "20"]]].

Definition totalsTable : Node :=
  node 82 "TABLE" [] [] [node 83 "TR" [] [] [node 84 "TD" [] [] [text "30"]]].

Definition tabsPage (leads : bool) : Node :=
  node 70 "DIV" [] [] [
    node 71 "DIV" [] [("role", "tablist")%string]
      [salesTab (negb leads); leadsTab leads];
    node 74 "DIV" []
      [("role", "tabpanel");
       ("data-state", if leads then "inactive" else "active")]%string
      (if leads then []
       else [node 85 "H3" [] [] [text "Sales by month"]; salesTable]);
    node 75 "DIV" []
      [("role", "tabpanel");
       ("data-state", if leads then "active" else "inactive")]%string
      (if leads
       then [node 86 "H3" [] [] [text "Leads by source"]; leadsTable]
       else []);
    node 87 "H3" [] [] [text "Totals"];
    totalsTable].

Definition tabsBrowser (leads : bool) : Browser :=
  mkBrowser (tabsPage leads) (if leads then [salesTable] else [leadsTable])
            ∅ ∅ noLayout 0 [].

(** The application: a click on a tab shows its panel; nothing else
    changes the page. *)
Definition tabsReact (n : nat) (a : Interaction) (b : Browser) : Browser :=
  match a with
  | Click id =>
      if Nat.eqb id 73 then tabsBrowser true
      else if Nat.eqb id 72 then tabsBrowser false
      else b
  | _ => b
  end.

(** The table of [salesPage] as a scan would hand it to the export. *)
Definition salesSelection : list DisplayedTable :=
  [mkDisplayedTable (js "table-0-1") (js "Sales") (Some 2%nat) 3 2 true].

Definition located (page : Node) (id : nat) : Located :=
  locate (mkBrowser page [] ∅ ∅ noLayout 0 []) id.

End Samples.

(** The dialog over the sample page after a scan: the table of the page is
    ticked, a table that has gone is listed but not ticked. *)
Module DialogSamples.

Definition salesDialog : AdvancedTabExportControls.Ui :=
  AdvancedTabExportControls.mkUi
    (Samples.world Samples.salesBrowser None)
    (AdvancedTabExportControls.mkState
       (js "Sales") true AdvancedTabExportControls.DialogCsv (js "report")
       (mkDisplayedTable (js "table-9-1") (js "Gone") None 4 2 true
          :: Samples.salesSelection)
       {[ js "table-0-1" := true; js "table-9-1" := false ]}
       Samples.plain)
    [] None.

End DialogSamples.

(** The two-tab sample page as the content of a whole document. *)
Module QuickSamples.

Definition quickPage (leads : bool) : Node :=
  Samples.node 1 "HTML" [] [] [
    Samples.node 2 "BODY" [] [] [
      Samples.node 3 "MAIN" [] [] [Samples.tabsPage leads]]].

Definition quickBrowser (leads : bool) : Browser :=
  mkBrowser (quickPage leads)
            (if leads then [Samples.salesTable] else [Samples.leadsTable])
            ∅ ∅ Samples.noLayout 0 [].

Definition quickReact (n : nat) (a : Interaction) (b : Browser) : Browser :=
  match a with
  | Click id =>
      if Nat.eqb id 73 then quickBrowser true
      else if Nat.eqb id 72 then quickBrowser false
      else b
  | _ => b
  end.

Definition quickUi : TableExportControls.Ui :=
  TableExportControls.mkUi (Samples.world (quickBrowser false) None) [].

Definition engine : TableExportControls.Engine :=
  TableExportControls.mkEngine (js "null has no properties") None.

End QuickSamples.

(** ** The vocabulary of the proofs *)

(** A computation keeps a property of the world whatever way it ends. *)
Definition preserves {A} (I : World -> Prop) (m : M A) : Prop :=
  forall w, I w -> I (snd (m w)).

(** A computation that returns, whatever the world. *)
Definition total {A} (m : M A) : Prop :=
  forall w, exists a, fst (m w) = Ok a.

(** [returning P m Q]: from a world in [P], [m] returns, with a result and in
    a world that satisfy [Q]. *)
Definition returning {A} (P : World -> Prop) (m : M A) (Q : A -> World -> Prop) : Prop :=
  forall w, P w -> exists a, fst (m w) = Ok a /\ Q a (snd (m w)).

(** Two states of the browser over the same document: the same tree, the
    same detached subtrees, the same layout and the same clock.  The inline
    styles and the scroll offsets may differ. *)
Definition sameDocument (b b' : Browser) : Prop :=
  tree b' = tree b /\ detached b' = detached b
  /\ dateNow b' = dateNow b /\ nowFormatted b' = nowFormatted b
  /\ scrollRange b' = scrollRange b.

(** Every element has the same inline declarations in both states. *)
Definition sameStyles (b b' : Browser) : Prop :=
  forall x, getInline b' x = getInline b x.

(** What the [try] block may have changed of the inline styles when it is
    left: the width and max-width of the table and the overflow of the
    container, nothing else. *)
Definition onlyNeutralised (b0 : Browser) (table : nat) (container : option nat)
    (b : Browser) : Prop :=
  sameDocument b0 b
  /\ forall x,
       (x <> table ->
        styleWidth (getInline b x) = styleWidth (getInline b0 x)
        /\ styleMaxWidth (getInline b x) = styleMaxWidth (getInline b0 x))
       /\ (container <> Some x ->
           styleOverflowX (getInline b x) = styleOverflowX (getInline b0 x)
           /\ styleOverflowY (getInline b x) = styleOverflowY (getInline b0 x)).

(** A width declaration that reads and writes back as it is: it has a value
    and carries no priority. *)
Definition plainDeclaration (d : option (Declaration jsstring)) : bool :=
  match d with
  | None => true
  | Some d => negb (important d) && negb (isEmpty (declared d))
  end.

Definition plainSize (i : Inline) : bool :=
  plainDeclaration (styleWidth i) && plainDeclaration (styleMaxWidth i).

(** Overflow declarations that the shorthand reads and writes back as they
    are: both or none, and without priority. *)
Definition plainOverflow (i : Inline) : bool :=
  match styleOverflowX i, styleOverflowY i with
  | None, None => true
  | Some x, Some y => negb (important x) && negb (important y)
  | _, _ => false
  end.

(** The inline styles [extractTableData] writes for a table are plain: the
    sizes of the table, and the overflow of its container. *)
Definition plainAround (b : Browser) (table : nat) : bool :=
  plainSize (getInline b table)
  && match tableContainerOf (locate b table) with
     | Some c => plainOverflow (getInline b c)
     | None => true
     end.

(** [quiet w w']: from [w] to [w'] the flag was not written and the log only
    grew, by events that are not writes of the flag. *)
Definition quiet (w w' : World) : Prop :=
  isExporting w' = isExporting w
  /\ exists mid, events w' = events w ++ mid /\ forallb (fun ev => negb (isFlagEvent ev)) mid = true.

Definition steady {A} (m : M A) : Prop := forall w, quiet w (snd (m w)).

(** A property that looks at [collected] and [seen] only. *)
Definition collectorOnly (I : World -> Prop) : Prop :=
  forall w w', collected w' = collected w -> seen w' = seen w -> I w -> I w'.

(** What one table of a pass leaves in [seen]. *)
Definition noticed (w : World) (t : DisplayedTable) : Prop :=
  match element t with
  | Some el => el ∈ seen w
  | None => True
  end.

(** The state the walk is in from the first pass on: the bookkeeping is
    consistent and the tables of the first pass are in [seen]. *)
Definition afterFirstPass (found : list DisplayedTable) (w : World) : Prop :=
  collectorConsistent w /\ Forall (noticed w) found.

(** ** Reading a CSV document back

    The standard reading of a CSV text whose records are separated by line
    feeds: the fields of a record are separated by commas; a field that opens
    with a double quote runs to its closing quote, two quotes inside standing
    for one, and may hold commas and line feeds; a quote inside an unquoted
    field, or anything but a separator after a closing quote, is malformed
    ([None]). *)

Inductive CsvMode :=
| FieldStart
| InPlain
| InQuoted
| AfterQuote.

Fixpoint csvRead (mode : CsvMode) (field : jsstring) (record : list jsstring)
    (s : jsstring) : option (list (list jsstring)) :=
  match s with
  | [] =>
      match mode with
      | InQuoted => None
      | _ => Some [record ++ [field]]
      end
  | c :: rest =>
      match mode with
      | InQuoted =>
          if c =? DQUOTE then csvRead AfterQuote field record rest
          else csvRead InQuoted (field ++ [c]) record rest
      | _ =>
          if c =? COMMA then csvRead FieldStart [] (record ++ [field]) rest
          else if c =? LF then
            cons (record ++ [field]) <$> csvRead FieldStart [] [] rest
          else if c =? DQUOTE then
            match mode with
            | FieldStart => csvRead InQuoted [] record rest
            | AfterQuote => csvRead InQuoted (field ++ [DQUOTE]) record rest
            | _ => None
            end
          else
            match mode with
            | AfterQuote => None
            | _ => csvRead InPlain (field ++ [c]) record rest
            end
      end
  end.

Definition parseCSV (s : jsstring) : option (list (list jsstring)) :=
  csvRead FieldStart [] [] s.

(** Where a field may end: at the end of the text, before a comma or before
    a line feed. *)
Definition atSeparator (tail : jsstring) : bool :=
  match tail with
  | [] => true
  | c :: _ => (c =? COMMA) || (c =? LF)
  end.

(** The text of one record. *)
Definition csvRecordText (row : list jsstring) : jsstring :=
  join [COMMA] (List.map escapeCSVValue row).

(** The records [createCSVContent] writes: the header row when it is asked
    for and there is one, then the data rows. *)
Definition csvRecords (tableData : TableData) (options : Options)
    : list (list jsstring) :=
  (if includeHeaders options && (0 <? length (headers tableData))%nat
   then [headers tableData] else [])
  ++ rows tableData.

(** *** The files of [exportToCSV], described *)

(** The file a table gets in the branch that writes one file per table. *)
Definition separateFile (config : ExportConfig) (tableData : TableData) : Event :=
  Download (createCSVContent tableData (options config))
           (fileName config ++ js "-" ++ sanitizeName (td_name tableData) ++ js ".csv").

(** The block a table gets in the single file: its name on a line of its
    own, its CSV text, and a line feed. *)
Definition csvBlock (options : Options) (tableData : TableData) : jsstring :=
  td_name tableData ++ [LF] ++ createCSVContent tableData options ++ [LF].

(** The lines the single file opens with when metadata is asked for. *)
Definition csvPreamble (config : ExportConfig) (now : jsstring) (count : nat)
    : jsstring :=
  if includeMetadata (options config) then
    tabName config ++ js " - Exported Data" ++ [LF]
    ++ js "Generated: " ++ now ++ [LF]
    ++ js "Tables: " ++ toString count ++ [LF; LF]
  else [].

(** How many of [n] downloads are made before the failure, if one is due. *)
Definition downloadsMade (failure : option nat) (n : nat) : nat :=
  match failure with
  | None => n
  | Some k => Nat.min k n
  end.

(** The events that hand a file to the user. *)
Definition isArtifact (ev : Event) : bool :=
  match ev with
  | Download _ _ => true
  | Pdf (PdfSave _) => true
  | _ => false
  end.

Definition noArtifact (evs : list Event) : Prop :=
  forallb (fun ev => negb (isArtifact ev)) evs = true.

(** A computation that only adds to the log, and no file. *)
Definition drafting {A} (m : M A) : Prop :=
  forall w, exists mid, events (snd (m w)) = events w ++ mid /\ noArtifact mid.

(** A computation that only adds to the log and hands over one file, of the
    kind [P], as the last thing it does when it returns, and none when it
    throws. *)
Definition delivering (P : Event -> Prop) (m : M unit) : Prop :=
  forall w, exists mid,
    events (snd (m w)) = events w ++ mid
    /\ match fst (m w) with
       | Ok _ => exists before file, mid = before ++ [file] /\ noArtifact before /\ P file
       | Throw _ => noArtifact mid
       end.

(** The world with more events in its log. *)
Definition withEvents (evs : list Event) (w : World) : World :=
  mkWorld (browser w) (isExporting w) (events w ++ evs) (collected w) (seen w)
          (failAfter w) (turn w).

(** What [exportDisplayedData] hands to a serialiser: for every selected
    table that holds an element, in the order of the selection, what
    [extractTableData] reads from the element, under the name of the
    table. *)
Definition extracted (config : ExportConfig) (b : Browser) : list TableData :=
  List.map
    (fun sel => withName (readTable b (snd sel) (options config)) (dt_name (fst sel)))
    (omap withElement (tables config)).

(** * Properties *)

(** ** Reasoning about computations *)

Lemma snd_tryFinally {A} (m : M A) (fin : M unit) (w : World) :
  snd (tryFinally m fin w) = snd (fin (snd (m w))).
Proof.
  unfold tryFinally. destruct (m w) as [r w']. simpl.
  destruct (fin w') as [[u|e] w'']; reflexivity.
Qed.

Lemma fst_tryFinally {A} (m : M A) (fin : M unit) (w : World) :
  (forall w1, fst (fin w1) = Ok tt) ->
  fst (tryFinally m fin w) = fst (m w).
Proof.
  intros Hfin. unfold tryFinally. destruct (m w) as [r w1]. simpl.
  specialize (Hfin w1). destruct (fin w1) as [[u|e] w2]; simpl in *;
    [reflexivity | discriminate].
Qed.

Lemma tick_idle (w : World) : failAfter w = None -> tick w = (Ok tt, w).
Proof. intros H. unfold tick. rewrite H. reflexivity. Qed.

Section Preserving.

Variable I : World -> Prop.

Lemma preserves_ret {A} (a : A) : preserves I (ret a).
Proof. intros w H. exact H. Qed.

Lemma preserves_get : preserves I get.
Proof. intros w H. exact H. Qed.

Lemma preserves_bind {A B} (m : M A) (k : A -> M B) :
  preserves I m -> (forall a, preserves I (k a)) -> preserves I (bind m k).
Proof.
  intros Hm Hk w H. unfold bind. specialize (Hm w H).
  destruct (m w) as [[a|e] w']; simpl in *; [apply Hk; exact Hm | exact Hm].
Qed.

Lemma preserves_tryCatch {A} (m : M A) (h : Exn -> M A) :
  preserves I m -> (forall e, preserves I (h e)) -> preserves I (tryCatch m h).
Proof.
  intros Hm Hh w H. unfold tryCatch. specialize (Hm w H).
  destruct (m w) as [[a|e] w']; simpl in *; [exact Hm | apply Hh; exact Hm].
Qed.

Lemma preserves_forEach {A} (l : list A) (f : A -> M unit) :
  (forall x, preserves I (f x)) -> preserves I (forEach l f).
Proof.
  intros Hf. induction l as [|x l IH]; simpl.
  - apply preserves_ret.
  - apply preserves_bind; [apply Hf | intros _; exact IH].
Qed.

End Preserving.

Lemma total_ret {A} (a : A) : total (ret a).
Proof. intros w. eexists. reflexivity. Qed.

Lemma total_get : total get.
Proof. intros w. eexists. reflexivity. Qed.

Lemma total_modify f : total (modify f).
Proof. intros w. eexists. reflexivity. Qed.

Lemma total_emit ev : total (emit ev).
Proof. intros w. eexists. reflexivity. Qed.

Lemma total_bind {A B} (m : M A) (k : A -> M B) :
  total m -> (forall a, total (k a)) -> total (bind m k).
Proof.
  intros Hm Hk w. unfold bind. destruct (Hm w) as [a Ha].
  destruct (m w) as [[a'|e] w']; simpl in Ha; [|discriminate].
  apply Hk.
Qed.

Lemma total_tryCatch {A} (m : M A) (h : Exn -> M A) :
  (forall e, total (h e)) -> total (tryCatch m h).
Proof.
  intros Hh w. unfold tryCatch.
  destruct (m w) as [[a|e] w']; [eexists; reflexivity | apply Hh].
Qed.

Lemma total_forEach {A} (l : list A) (f : A -> M unit) :
  (forall x, total (f x)) -> total (forEach l f).
Proof.
  intros Hf. induction l as [|x l IH]; simpl.
  - apply total_ret.
  - apply total_bind; [apply Hf | intros _; exact IH].
Qed.

Lemma returning_bind {A B} P (m : M A) (R : A -> World -> Prop) (k : A -> M B) Q :
  returning P m R -> (forall a, returning (R a) (k a) Q) -> returning P (bind m k) Q.
Proof.
  intros Hm Hk w Hw. destruct (Hm w Hw) as (a & Ha & HR). unfold bind.
  destruct (m w) as [[a'|e] w1]; simpl in Ha; [|discriminate].
  injection Ha as ->. apply (Hk a w1 HR).
Qed.

Lemma returning_get P : returning P get (fun a w => a = w /\ P w).
Proof. intros w Hw. exists w. repeat split; assumption. Qed.

Lemma returning_steps {A} (I : World -> Prop) (m : M A) :
  total m -> preserves I m -> returning I m (fun _ => I).
Proof.
  intros Ht Hp w Hw. destruct (Ht w) as [a Ha]. exists a. split; [exact Ha|].
  apply Hp, Hw.
Qed.

(** ** CSV field escaping *)

Lemma includes_single (s : jsstring) (c : N) :
  includes s [c] = existsb (N.eqb c) s.
Proof.
  induction s as [|d s IH]; simpl; [reflexivity|].
  rewrite IH. destruct (c =? d); simpl; [|reflexivity].
  destruct s; reflexivity.
Qed.

Lemma includes_single_false (s : jsstring) (c : N) :
  includes s [c] = false -> Forall (fun d => (c =? d) = false) s.
Proof.
  rewrite includes_single. induction s as [|d s IH]; simpl; intros H.
  - constructor.
  - apply orb_false_iff in H as [H1 H2]. constructor; auto.
Qed.

Lemma csvUnquoteBody_doubleQuotes (v : jsstring) :
  csvUnquoteBody (doubleQuotes v ++ [DQUOTE]) = Some v.
Proof.
  induction v as [|c v IH]; [reflexivity|].
  unfold doubleQuotes in *. simpl flat_map.
  destruct (c =? DQUOTE) eqn:E.
  - apply N.eqb_eq in E. subst c. simpl. rewrite IH. reflexivity.
  - simpl. rewrite E, IH. reflexivity.
Qed.

(** C3. [escapeCSVValue] wraps a value in double quotes, its own quotes
    doubled, exactly when the value holds a comma, a double quote or a line
    feed; any other value comes out unchanged; and reading the escaped field
    back by the standard CSV rule gives the value again (for the quoted
    values, and for the others too). *)
Theorem escapeCSVValue_quotes_iff_special (value : jsstring) :
  (escapeCSVValue value = [DQUOTE] ++ doubleQuotes value ++ [DQUOTE]
   <-> needsQuoting value = true)
  /\ (needsQuoting value = false -> escapeCSVValue value = value)
  /\ (needsQuoting value = true -> csvUnquote (escapeCSVValue value) = Some value)
  /\ csvUnquote (escapeCSVValue value) = Some value.
Proof.
  unfold escapeCSVValue.
  assert (Hq : csvUnquote ([DQUOTE] ++ doubleQuotes value ++ [DQUOTE]) = Some value).
  { simpl. apply csvUnquoteBody_doubleQuotes. }
  destruct (needsQuoting value) eqn:E.
  - repeat split; auto; discriminate.
  - assert (Hd : Forall (fun d => (DQUOTE =? d) = false) value).
    { apply includes_single_false. unfold needsQuoting in E.
      apply orb_false_iff in E as [E _]. apply orb_false_iff in E as [_ E]. exact E. }
    assert (Hu : csvUnquote value = Some value).
    { destruct Hd as [|d v Hd _]; [reflexivity|].
      simpl. rewrite N.eqb_sym, Hd. reflexivity. }
    repeat split; auto; try discriminate.
    intros H. exfalso.
    destruct Hd as [|d v Hd _]; [discriminate|].
    injection H as H _. subst d. discriminate.
Qed.

(** ** The CSV document *)

(** C4. The two tables of the scenario, serialised into one file with
    headers and without metadata: one download, whose text is, line by line,
    the name of table A, its header line, its two rows (the amount with a
    comma quoted), an empty line, the name of table B, its header line and
    its row.  The text ends with a line feed, hence the last empty piece. *)
Theorem csv_end_to_end_scenario (fmt : Format) (name tab : jsstring)
    (preserve numbers : bool) (selected : list DisplayedTable) (w : World) :
  failAfter w = None ->
  let config :=
    mkExportConfig fmt name (mkOptions true preserve numbers false false)
                   selected tab in
  let r := exportToCSV [scenarioTableA; scenarioTableB] config w in
  exists content,
    fst r = Ok tt
    /\ events (snd r) = events w ++ [Download content (name ++ js ".csv")]
    /\ splitOn LF content
       = [js "Table A";
          js "Name,Revenue";
          js "Alice," ++ [DQUOTE] ++ js "1,200" ++ [DQUOTE];
          js "Bob,800";
          [];
          js "Table B";
          js "Month,Count";
          js "Jan,5";
          []].
Proof.
  intros Hidle config r.
  destruct w as [b ex ev col sn fa tu]. simpl in Hidle. subst fa.
  eexists. subst r config. unfold exportToCSV. cbn [options separateSheets andb
    includeMetadata]. unfold bind, get, downloadCSV, bind, tick, emit, modify.
  cbn [failAfter fst snd events].
  split; [reflexivity|]. split; [reflexivity|].
  vm_compute. reflexivity.
Qed.

Lemma csv_end_to_end_scenario_witness :
  let w := Samples.world Samples.salesBrowser None in
  let config :=
    mkExportConfig FormatCsv (js "report") (mkOptions true false false false false)
                   [] (js "Sales") in
  let r := exportToCSV [scenarioTableA; scenarioTableB] config w in
  failAfter w = None
  /\ exists content,
       fst r = Ok tt
       /\ events (snd r) = events w ++ [Download content (js "report" ++ js ".csv")]
       /\ splitOn LF content
          = [js "Table A";
             js "Name,Revenue";
             js "Alice," ++ [DQUOTE] ++ js "1,200" ++ [DQUOTE];
             js "Bob,800";
             [];
             js "Table B";
             js "Month,Count";
             js "Jan,5";
             []].
Proof.
  split; [reflexivity|].
  apply (csv_end_to_end_scenario FormatCsv (js "report") (js "Sales") false false []
           (Samples.world Samples.salesBrowser None)).
  reflexivity.
Defined.

(** ** The neutraliser: what it restores *)

Lemma getInline_setInline (b : Browser) (id x : nat) (f : Inline -> Inline) :
  getInline (setInline id f b) x =
  if decide (x = id) then f (getInline b id) else getInline b x.
Proof.
  unfold getInline, setInline. simpl.
  destruct (decide (x = id)) as [->|Hne].
  - rewrite lookup_insert_eq. reflexivity.
  - rewrite lookup_insert_ne by congruence. reflexivity.
Qed.

Lemma getInline_layout (b : Browser) (x : nat) :
  getInline (layout b) x = getInline b x.
Proof. reflexivity. Qed.

Lemma getInline_scrollTo (b : Browser) (id : nat) (v : Z) (x : nat) :
  getInline (scrollTo id v b) x = getInline b x.
Proof. reflexivity. Qed.

Lemma sameDocument_refl (b : Browser) : sameDocument b b.
Proof. repeat split. Qed.

Lemma sameDocument_trans (b1 b2 b3 : Browser) :
  sameDocument b1 b2 -> sameDocument b2 b3 -> sameDocument b1 b3.
Proof.
  intros (H1 & H2 & H3 & H4 & H5) (K1 & K2 & K3 & K4 & K5).
  unfold sameDocument.
  split; [congruence|]. split; [congruence|]. split; [congruence|].
  split; congruence.
Qed.

Lemma sameDocument_setInline (b : Browser) (id : nat) (f : Inline -> Inline) :
  sameDocument b (setInline id f b).
Proof. repeat split. Qed.

Lemma sameDocument_layout (b : Browser) : sameDocument b (layout b).
Proof. repeat split. Qed.

Lemma sameDocument_scrollTo (b : Browser) (id : nat) (v : Z) :
  sameDocument b (scrollTo id v b).
Proof. repeat split. Qed.

(** The layout is computed from the document and its inline styles. *)
Lemma scrollRangeOf_same (b b' : Browser) (id : nat) :
  sameDocument b b' -> sameStyles b b' ->
  scrollRangeOf b' id = scrollRangeOf b id.
Proof.
  intros (Ht & _ & _ & _ & Hr) Hs. unfold scrollRangeOf, inlineStyles.
  rewrite Hr, Ht. f_equal. apply map_ext. intros l. rewrite Hs. reflexivity.
Qed.

Lemma clamp_idem (range : nat * nat) (x : Z) :
  clamp range (clamp range x) = clamp range x.
Proof. unfold clamp. lia. Qed.

Lemma clamp_origin (range : nat * nat) : clamp range 0 = 0%Z.
Proof. unfold clamp. lia. Qed.

(** What [scrollLeft] reads is an offset the layout allows. *)
Lemma clamp_scrollLeft_layout (b : Browser) (id : nat) :
  clamp (scrollRangeOf b id) (scrollLeft (layout b) id) = scrollLeft (layout b) id.
Proof.
  unfold scrollLeft, layout. cbn [scrollOffsets].
  rewrite map_lookup_imap.
  destruct (scrollOffsets b !! id) as [x|]; cbn.
  - apply clamp_idem.
  - apply clamp_origin.
Qed.

Lemma scrollLeft_scrollTo (b : Browser) (id : nat) (v : Z) :
  scrollLeft (scrollTo id v b) id = clamp (scrollRangeOf b id) v.
Proof.
  unfold scrollLeft, scrollTo. cbv zeta. cbn [scrollOffsets].
  rewrite lookup_insert_eq. cbn [default].
  rewrite (scrollRangeOf_same b (layout b) id (sameDocument_layout b))
    by (intros x; apply getInline_layout).
  reflexivity.
Qed.

Lemma onlyNeutralised_split b0 table container b :
  onlyNeutralised b0 table container b ->
  (forall x, x <> table -> styleWidth (getInline b x) = styleWidth (getInline b0 x))
  /\ (forall x, x <> table ->
       styleMaxWidth (getInline b x) = styleMaxWidth (getInline b0 x))
  /\ (forall x, container <> Some x ->
       styleOverflowX (getInline b x) = styleOverflowX (getInline b0 x))
  /\ (forall x, container <> Some x ->
       styleOverflowY (getInline b x) = styleOverflowY (getInline b0 x)).
Proof.
  intros (_ & H).
  repeat split; intros x Hx; destruct (H x) as [Ha Hb];
    first [apply Ha, Hx | apply Hb, Hx].
Qed.

Lemma onlyNeutralised_table b0 table container f b :
  (forall i, styleOverflowX (f i) = styleOverflowX i
             /\ styleOverflowY (f i) = styleOverflowY i) ->
  onlyNeutralised b0 table container b ->
  onlyNeutralised b0 table container (setInline table f b).
Proof.
  intros Hf Hb.
  destruct (onlyNeutralised_split _ _ _ _ Hb) as (HW & HM & HO & HS).
  destruct Hb as (Hd & _).
  split; [eapply sameDocument_trans; [exact Hd | apply sameDocument_setInline]|].
  intros x. split; intros Hx;
    rewrite getInline_setInline; destruct (decide (x = table)) as [->|Hne];
    try congruence; auto.
  rewrite (proj1 (Hf _)), (proj2 (Hf _)). auto.
Qed.

Lemma onlyNeutralised_container b0 table c f b :
  (forall i, styleWidth (f i) = styleWidth i
             /\ styleMaxWidth (f i) = styleMaxWidth i) ->
  onlyNeutralised b0 table (Some c) b ->
  onlyNeutralised b0 table (Some c) (setInline c f b).
Proof.
  intros Hf Hb.
  destruct (onlyNeutralised_split _ _ _ _ Hb) as (HW & HM & HO & HS).
  destruct Hb as (Hd & _).
  split; [eapply sameDocument_trans; [exact Hd | apply sameDocument_setInline]|].
  intros x. split; intros Hx;
    rewrite getInline_setInline; destruct (decide (x = c)) as [->|Hne];
    try congruence; auto.
  rewrite (proj1 (Hf _)), (proj2 (Hf _)). auto.
Qed.

Lemma onlyNeutralised_layout b0 table container b :
  onlyNeutralised b0 table container b ->
  onlyNeutralised b0 table container (layout b).
Proof.
  intros (Hd & H). split; [|exact H].
  eapply sameDocument_trans; [exact Hd | apply sameDocument_layout].
Qed.

Lemma onlyNeutralised_scrollTo b0 table container id v b :
  onlyNeutralised b0 table container b ->
  onlyNeutralised b0 table container (scrollTo id v b).
Proof.
  intros (Hd & H). split; [|exact H].
  eapply sameDocument_trans; [exact Hd | apply sameDocument_scrollTo].
Qed.

Lemma preserves_browser_tick (I : Browser -> Prop) :
  preserves (fun w => I (browser w)) tick.
Proof.
  intros w H. unfold tick. destruct (failAfter w) as [[|k]|]; exact H.
Qed.

Lemma preserves_writeStyle (I : Browser -> Prop) (id : nat) (f : Inline -> Inline) :
  (forall b, I b -> I (setInline id f b)) ->
  preserves (fun w => I (browser w)) (writeStyle id f).
Proof. intros Hf w H. simpl. apply Hf, H. Qed.

Lemma preserves_writeScrollLeft (I : Browser -> Prop) (id : nat) (v : Z) :
  (forall b, I b -> I (scrollTo id v b)) ->
  preserves (fun w => I (browser w)) (writeScrollLeft id v).
Proof. intros Hf w H. simpl. apply Hf, H. Qed.

Lemma preserves_forceLayout (I : Browser -> Prop) :
  (forall b, I b -> I (layout b)) ->
  preserves (fun w => I (browser w)) forceLayout.
Proof. intros Hf w H. simpl. apply Hf, H. Qed.

Lemma setOverflow_sizes (v : jsstring) (i : Inline) :
  styleWidth (setOverflow v i) = styleWidth i
  /\ styleMaxWidth (setOverflow v i) = styleMaxWidth i.
Proof.
  unfold setOverflow. destruct (isEmpty v); [split; reflexivity|].
  destruct (parseOverflow v) as [[x y]|]; split; reflexivity.
Qed.

(** However the [try] block ends, it has changed nothing else. *)
Lemma extractBody_onlyNeutralised b0 table container options :
  preserves (fun w => onlyNeutralised b0 table container (browser w))
            (extractBody table container options).
Proof.
  unfold extractBody.
  repeat (first
    [ apply preserves_bind; [|intros ?]
    | apply preserves_browser_tick
    | apply preserves_get
    | apply preserves_ret
    | apply preserves_forceLayout; intros b Hb; apply onlyNeutralised_layout, Hb
    | apply preserves_writeStyle; intros b Hb;
      apply onlyNeutralised_table; [intros l; split; reflexivity | exact Hb] ]).
  destruct container as [c|].
  - repeat (first
      [ apply preserves_bind; [|intros ?]
      | apply preserves_browser_tick
      | apply preserves_writeScrollLeft; intros b Hb;
        apply onlyNeutralised_scrollTo, Hb
      | apply preserves_writeStyle; intros b Hb;
        apply onlyNeutralised_container; [apply setOverflow_sizes | exact Hb] ]).
  - apply preserves_ret.
Qed.

Lemma inline_eta (i1 i2 : Inline) :
  styleWidth i1 = styleWidth i2 -> styleMaxWidth i1 = styleMaxWidth i2 ->
  styleOverflowX i1 = styleOverflowX i2 -> styleOverflowY i1 = styleOverflowY i2 ->
  i1 = i2.
Proof. destruct i1, i2; simpl; congruence. Qed.

Lemma orElse_nil (a : jsstring) : orElse a [] = a.
Proof. destruct a; reflexivity. Qed.

(** A plain declaration is what writing back its value leaves. *)
Lemma declare_propertyValue (d : option (Declaration jsstring)) :
  plainDeclaration d = true -> declare (propertyValue d) = d.
Proof.
  destruct d as [[v p]|]; [|reflexivity]. cbn.
  intros H. apply andb_true_iff in H. destruct H as [Hp Hv].
  apply negb_true_iff in Hp. apply negb_true_iff in Hv. subst p.
  unfold declare. rewrite Hv. reflexivity.
Qed.

(** The value of the shorthand parses back into its two keywords. *)
Lemma parseOverflow_shorthand (x y : Overflow) :
  let v := if sameKeyword x y then overflowName x
           else overflowName x ++ [SPACE] ++ overflowName y in
  isEmpty v = false /\ parseOverflow v = Some (x, y).
Proof. destruct x, y; vm_compute; split; reflexivity. Qed.

(** Plain overflow declarations are what writing back the value of the
    shorthand leaves, whatever the shorthand was set to in between. *)
Lemma setOverflow_overflowValue (i j : Inline) :
  plainOverflow i = true ->
  styleWidth j = styleWidth i -> styleMaxWidth j = styleMaxWidth i ->
  setOverflow (orElse (overflowValue i) []) j = i.
Proof.
  intros Hp Hw Hm. rewrite orElse_nil.
  destruct i as [w m ox oy]. unfold plainOverflow in Hp.
  unfold overflowValue, setOverflow.
  cbn [styleOverflowX styleOverflowY styleWidth styleMaxWidth] in *.
  destruct ox as [[x px]|], oy as [[y py]|]; try discriminate.
  - cbn [important declared] in *.
    apply andb_true_iff in Hp. destruct Hp as [Hx Hy].
    apply negb_true_iff in Hx. apply negb_true_iff in Hy. subst px py.
    cbn [Bool.eqb].
    destruct (parseOverflow_shorthand x y) as [He Hparse].
    cbv zeta in He, Hparse. rewrite He, Hparse, Hw, Hm. reflexivity.
  - cbn [isEmpty]. rewrite Hw, Hm. reflexivity.
Qed.

(** The run of [extractTableData]: the layout is forced where the scroll
    offset of a container is read, and the [finally] block works on the state
    the [try] block was left in. *)
Lemma extractTableData_run (table : nat) (options : Options) (w : World) :
  let container := tableContainerOf (locate (browser w) table) in
  let w0 := match container with
            | Some _ => withBrowser layout w
            | None => w
            end in
  extractTableData table options w =
  tryFinally
    (extractBody table container options)
    (restoreStyles table container
       (propertyValue (styleWidth (getInline (browser w) table)))
       (propertyValue (styleMaxWidth (getInline (browser w) table)))
       ((fun c => overflowValue (getInline (browser w) c)) <$> container)
       (match container with
        | Some c => scrollLeft (layout (browser w)) c
        | None => 0%Z
        end))
    w0.
Proof.
  intros container w0. subst container w0. unfold extractTableData.
  unfold bind at 1, get at 1. cbv beta iota.
  destruct (tableContainerOf (locate (browser w) table)) as [c|]; reflexivity.
Qed.

Lemma extractTableData_state (table : nat) (options : Options) (w : World) :
  snd (extractTableData table options w) =
  let container := tableContainerOf (locate (browser w) table) in
  snd (restoreStyles table container
         (propertyValue (styleWidth (getInline (browser w) table)))
         (propertyValue (styleMaxWidth (getInline (browser w) table)))
         ((fun c => overflowValue (getInline (browser w) c)) <$> container)
         (match container with
          | Some c => scrollLeft (layout (browser w)) c
          | None => 0%Z
          end)
         (snd (extractBody table container options
                 (match container with
                  | Some _ => withBrowser layout w
                  | None => w
                  end)))).
Proof.
  rewrite extractTableData_run. apply snd_tryFinally.
Qed.

(** [extractTableData] works on one document: it changes inline styles and
    scroll offsets only. *)
Lemma extractTableData_sameDocument (table : nat) (options : Options) (w : World) :
  sameDocument (browser w) (browser (snd (extractTableData table options w))).
Proof.
  rewrite extractTableData_state.
  set (container := tableContainerOf (locate (browser w) table)).
  set (w0 := match container with Some _ => withBrowser layout w | None => w end).
  assert (H0 : sameDocument (browser w) (browser w0)).
  { subst w0. destruct container; [apply sameDocument_layout | apply sameDocument_refl]. }
  pose proof (extractBody_onlyNeutralised (browser w0) table container options w0) as Hb.
  set (w1 := snd (extractBody table container options w0)) in *.
  assert (H1 : sameDocument (browser w0) (browser w1)).
  { apply Hb. split; [apply sameDocument_refl|]. intros x. repeat split. }
  cbv zeta. eapply sameDocument_trans; [exact H0|].
  eapply sameDocument_trans; [exact H1|].
  destruct container; repeat split.
Qed.

(** What the [finally] block leaves of the inline styles, where the
    declarations it writes back were plain before the call. *)
Lemma restore_sameStyles (b0 : Browser) (table : nat) (container : option nat)
    (originalScrollLeft : Z) (w1 : World) :
  onlyNeutralised b0 table container (browser w1) ->
  plainSize (getInline b0 table) = true ->
  match container with
  | Some c => plainOverflow (getInline b0 c) = true
  | None => True
  end ->
  sameStyles b0
    (browser (snd (restoreStyles table container
                     (propertyValue (styleWidth (getInline b0 table)))
                     (propertyValue (styleMaxWidth (getInline b0 table)))
                     ((fun c => overflowValue (getInline b0 c)) <$> container)
                     originalScrollLeft w1))).
Proof.
  intros Hb Hsize Hover.
  apply andb_true_iff in Hsize. destruct Hsize as [Hwidth Hmax].
  destruct (onlyNeutralised_split _ _ _ _ Hb) as (HW & HM & HO & HS). clear Hb.
  intros x.
  destruct container as [c|];
    unfold restoreStyles, bind, writeStyle, writeScrollLeft, modify, ret, withBrowser;
    cbn [snd fst browser fmap option_fmap option_map default];
    rewrite ?getInline_scrollTo; repeat rewrite getInline_setInline.
  - repeat case_decide; subst; try congruence;
      first
        [ apply setOverflow_overflowValue; [exact Hover|..]
        | apply inline_eta ];
      cbn [setMaxWidth setWidth styleWidth styleMaxWidth styleOverflowX styleOverflowY];
      first
        [ apply declare_propertyValue; assumption
        | apply HW; congruence | apply HM; congruence
        | apply HO; congruence | apply HS; congruence ].
  - repeat case_decide; subst; try congruence;
      apply inline_eta;
      cbn [setMaxWidth setWidth styleWidth styleMaxWidth styleOverflowX styleOverflowY];
      first
        [ apply declare_propertyValue; assumption
        | apply HW; congruence | apply HM; congruence
        | apply HO; congruence | apply HS; congruence ].
Qed.

(** Where the declarations the call writes are plain, it leaves the inline
    styles of every element as they were, and the container scrolled where
    its [scrollLeft] read before the call: whether the call returns or
    throws. *)
Lemma extractTableData_restores_plain (table : nat) (options : Options) (w : World) :
  plainAround (browser w) table = true ->
  let w' := snd (extractTableData table options w) in
  sameStyles (browser w) (browser w')
  /\ match tableContainerOf (locate (browser w) table) with
     | Some c => scrollLeft (browser w') c = scrollLeft (layout (browser w)) c
     | None => True
     end.
Proof.
  intros Hplain w'. unfold plainAround in Hplain.
  apply andb_true_iff in Hplain. destruct Hplain as [Hsize Hover].
  pose proof (extractTableData_sameDocument table options w) as Hdoc.
  fold w' in Hdoc.
  assert (Hstyles : sameStyles (browser w) (browser w')).
  { subst w'. rewrite extractTableData_state. cbv zeta.
    set (container := tableContainerOf (locate (browser w) table)) in *.
    set (w0 := match container with Some _ => withBrowser layout w | None => w end).
    apply restore_sameStyles; [|exact Hsize|destruct container; [exact Hover|exact I]].
    assert (H0 : onlyNeutralised (browser w) table container (browser w0)).
    { split.
      - subst w0. destruct container; [apply sameDocument_layout | apply sameDocument_refl].
      - intros x. subst w0. destruct container; repeat split. }
    exact (extractBody_onlyNeutralised (browser w) table container options w0 H0). }
  split; [exact Hstyles|].
  destruct (tableContainerOf (locate (browser w) table)) as [c|] eqn:Hc; [|exact I].
  revert Hstyles Hdoc. subst w'. rewrite extractTableData_state, Hc. cbv zeta.
  unfold restoreStyles, bind, writeStyle, writeScrollLeft, modify, ret, withBrowser.
  cbn [snd fst browser fmap option_fmap option_map default].
  match goal with
  | |- context [scrollTo c ?v ?b] => set (b3 := b)
  end.
  intros Hstyles Hdoc.
  rewrite scrollLeft_scrollTo.
  assert (Hs3 : sameStyles (browser w) b3).
  { intros x. rewrite <- (Hstyles x). symmetry. apply getInline_scrollTo. }
  assert (Hd3 : sameDocument (browser w) b3).
  { destruct Hdoc as (H1 & H2 & H3 & H4 & H5). repeat split; assumption. }
  rewrite (scrollRangeOf_same _ _ c Hd3 Hs3).
  apply clamp_scrollLeft_layout.
Qed.

(** The sample page, the extraction cut short after the container was
    unclipped: the call throws and the container is clipped and scrolled as
    before. *)
Example extract_sales_cut_short :
  let r := extractTableData 2 Samples.plain
             (Samples.world Samples.salesBrowser (Some 1%nat)) in
  fst r = Throw InjectedFailure
  /\ getInline (browser (snd r)) 1 = getInline Samples.salesBrowser 1
  /\ scrollLeft (browser (snd r)) 1 = 40%Z
  /\ getInline (browser (snd r)) 2 = noInline.
Proof. vm_compute. repeat split; reflexivity. Qed.

(** C1.  The claim fails on [Samples.inlineBrowser]: a table whose inline
    width carries the priority, in a container that scrolls sideways by an
    inline [overflow-x] alone and is scrolled 40 pixels to the right.
    Wherever the [try] block is cut short, and also when it is not, after the
    call the width of the table has lost its priority, the container has
    lost its [overflow-x], and with it its scroll offset.  The [finally]
    block writes back what [style.width] and [style.overflow] read, and these
    read the value of a declaration without its priority and nothing of a
    shorthand of which one declaration is missing. *)
Theorem extractTableData_does_not_restore (failure : option nat) :
  let before := Samples.inlineBrowser in
  let r := extractTableData 2 Samples.plain (Samples.world before failure) in
  let after := browser (snd r) in
  (tableContainerOf (locate before 2) = Some 1%nat
   /\ styleWidth (getInline before 2) = Some (mkDeclaration (js "600px") true)
   /\ styleOverflowX (getInline before 1) = Some (mkDeclaration OvAuto false)
   /\ scrollLeft (layout before) 1 = 40%Z)
  /\ (styleWidth (getInline after 2) = Some (mkDeclaration (js "600px") false)
      /\ styleOverflowX (getInline after 1) = None
      /\ scrollLeft (layout after) 1 = 0%Z).
Proof.
  destruct failure as [[|[|[|[|[|k]]]]]|]; vm_compute; repeat split; reflexivity.
Qed.

(** ** What the extractor returns *)

Lemma readTable_sameDocument (b b' : Browser) (table : nat) (options : Options) :
  sameDocument b b' -> readTable b' table options = readTable b table options.
Proof.
  intros (Ht & Hd & _ & Hn & _). unfold readTable, locate, allElements.
  rewrite Ht, Hd, Hn. reflexivity.
Qed.

Lemma extractBody_returns (table : nat) (container : option nat)
    (options : Options) (w : World) :
  failAfter w = None ->
  fst (extractBody table container options w)
  = Ok (readTable (browser w) table options).
Proof.
  intros H. destruct w as [b ex ev col sn fa tu]. simpl in H. subst fa.
  destruct container as [c|]; reflexivity.
Qed.

Lemma restoreStyles_returns table container ow omw oo osl (w : World) :
  fst (restoreStyles table container ow omw oo osl w) = Ok tt.
Proof. destruct container; reflexivity. Qed.

(** Without a failure, [extractTableData] returns what [readTable] reads
    from the document. *)
Lemma extractTableData_returns (table : nat) (options : Options) (w : World) :
  failAfter w = None ->
  fst (extractTableData table options w)
  = Ok (readTable (browser w) table options).
Proof.
  intros H. rewrite extractTableData_run. cbv zeta.
  rewrite fst_tryFinally by (intros; apply restoreStyles_returns).
  destruct (tableContainerOf (locate (browser w) table)) as [c|].
  - rewrite extractBody_returns by exact H. reflexivity.
  - apply extractBody_returns, H.
Qed.

(** The state of the failure counter after an extraction that started
    without one. *)
Lemma extractTableData_idle (table : nat) (options : Options) (w : World) :
  failAfter w = None ->
  failAfter (snd (extractTableData table options w)) = None.
Proof.
  intros H. destruct w as [b ex ev col sn fa tu]. simpl in H. subst fa.
  rewrite extractTableData_state. cbv zeta. cbn [browser].
  destruct (tableContainerOf _); reflexivity.
Qed.

(** The [try] block can indeed be left by a throw: a failure due within its
    first three calls interrupts the extraction, with or without a
    container. *)
Lemma extractTableData_cut_short (table : nat) (options : Options) (w : World)
    (k : nat) :
  failAfter w = Some k -> (k <= 2)%nat ->
  fst (extractTableData table options w) = Throw InjectedFailure.
Proof.
  intros Hk Hle. destruct w as [b ex ev col sn fa tu]. simpl in Hk. subst fa.
  rewrite extractTableData_run. cbv zeta.
  rewrite fst_tryFinally by (intros; apply restoreStyles_returns).
  cbn [browser]. unfold extractBody.
  destruct (tableContainerOf (locate b table)) as [c|];
    destruct k as [|[|[|k]]]; try lia; reflexivity.
Qed.

(** The values of the cells of a row, and whether a first row is the header
    row. *)
Lemma extractRow_unfold options acc rowIndex row :
  extractRow options acc rowIndex row =
  if Nat.eqb rowIndex 0 && isHeaderRow options row
  then (rowValues options row, snd acc)
  else (fst acc,
        snd acc ++ [rowNumber options (length (snd acc)) ++ rowValues options row]).
Proof.
  unfold extractRow, isHeaderRow, rowValues, rowNumber.
  destruct (Nat.eqb rowIndex 0 && _); [reflexivity|].
  destruct (includeRowNumbers options); reflexivity.
Qed.

Lemma extractRows_data options rows k hdr acc :
  extractRows options rows (S k) (hdr, acc) =
  (hdr, acc ++ imap (fun i row => rowNumber options (length acc + i)
                                    ++ rowValues options row) rows).
Proof.
  revert k acc. induction rows as [|row rows IH]; intros k acc.
  - simpl. rewrite app_nil_r. reflexivity.
  - simpl extractRows. rewrite extractRow_unfold. simpl.
    rewrite IH. f_equal. rewrite <- app_assoc. f_equal. simpl.
    rewrite Nat.add_0_r. f_equal.
    apply imap_ext. intros i x _. rewrite length_app. simpl.
    f_equal. f_equal. lia.
Qed.

Lemma extractRows_all options rows :
  extractRows options rows 0 ([], []) =
  match rows with
  | [] => ([], [])
  | first :: rest =>
      if isHeaderRow options first
      then (rowValues options first, numberedRows options rest)
      else ([], numberedRows options (first :: rest))
  end.
Proof.
  destruct rows as [|first rest]; [reflexivity|].
  simpl extractRows. rewrite extractRow_unfold. simpl.
  unfold numberedRows.
  destruct (isHeaderRow options first); rewrite extractRows_data; reflexivity.
Qed.

(** ** Row numbers *)

Lemma imap_imap {A B C} (f : nat -> B -> C) (g : nat -> A -> B) (l : list A) :
  imap f (imap g l) = imap (fun i x => f i (g i x)) l.
Proof.
  revert f g. induction l as [|x l IH]; intros f g; [reflexivity|].
  simpl. f_equal. apply IH.
Qed.

Lemma rowValues_withoutRowNumbers options row :
  rowValues (withoutRowNumbers options) row = rowValues options row.
Proof. reflexivity. Qed.

Lemma readTable_rows (b : Browser) (table : nat) (options : Options) :
  fst (extractRows options (querySelectorAll (locate b table) selTr) 0 ([], []))
  = match querySelectorAll (locate b table) selTr with
    | [] => []
    | first :: rest =>
        if isHeaderRow options first then rowValues options first else []
    end
  /\ rows (readTable b table options)
     = match querySelectorAll (locate b table) selTr with
       | [] => []
       | first :: rest =>
           if isHeaderRow options first then numberedRows options rest
           else numberedRows options (first :: rest)
       end.
Proof.
  unfold readTable. simpl. rewrite extractRows_all.
  destruct (querySelectorAll _ _) as [|first rest]; [split; reflexivity|].
  destruct (isHeaderRow options first); split; reflexivity.
Qed.

(** C7. With [includeRowNumbers] set, for every table.  Without the
    option the extraction returns the values of the header row of the table
    (no header when no row is taken for it) and the values of its data rows,
    row by row.  With the option, where there is a header row (the headers
    are not empty) the headers are the hash sign followed by those original
    headers, and where there is none no label is added; and every data row is
    that original row preceded by its position among the data rows, counted
    from one, as a string: the first data row of the table gets 1, the Nth
    gets N. *)
Theorem rowNumbers_injected (table : nat) (options : Options) (w : World) :
  failAfter w = None ->
  includeRowNumbers options = true ->
  let tl := locate (browser w) table in
  exists original numbered,
    fst (extractTableData table (withoutRowNumbers options) w) = Ok original
    /\ fst (extractTableData table options w) = Ok numbered
    /\ headers original
       = match headerRowOf options tl with
         | Some row => rowValues options row
         | None => []
         end
    /\ rows original = List.map (rowValues options) (dataRowsOf options tl)
    /\ headers numbered
       = match headers original with
         | [] => []
         | _ :: _ => js "#" :: headers original
         end
    /\ rows numbered = imap (fun i row => toString (i + 1) :: row) (rows original)
    /\ forall n row,
         dataRowsOf options tl !! n = Some row ->
         rows numbered !! n = Some (toString (n + 1) :: rowValues options row).
Proof.
  intros Hidle Hnum tl.
  exists (readTable (browser w) table (withoutRowNumbers options)),
         (readTable (browser w) table options).
  split; [apply extractTableData_returns, Hidle|].
  split; [apply extractTableData_returns, Hidle|].
  destruct (readTable_rows (browser w) table options) as [Hh Hr].
  destruct (readTable_rows (browser w) table (withoutRowNumbers options)) as [Hh' Hr'].
  assert (Hplain : forall l,
    numberedRows (withoutRowNumbers options) l = List.map (rowValues options) l).
  { intros l. unfold numberedRows. induction l as [|row l IH] using rev_ind;
      [reflexivity|].
    rewrite imap_app, IH, map_app. reflexivity. }
  assert (Hrows : forall l,
    numberedRows options l
    = imap (fun i row => toString (i + 1) :: row)
           (numberedRows (withoutRowNumbers options) l)).
  { intros l. unfold numberedRows. rewrite imap_imap.
    apply imap_ext. intros i x _. unfold rowNumber. rewrite Hnum. reflexivity. }
  assert (Horiginal :
    rows (readTable (browser w) table (withoutRowNumbers options))
    = List.map (rowValues options) (dataRowsOf options tl)).
  { rewrite Hr'. unfold dataRowsOf. subst tl.
    destruct (querySelectorAll _ _) as [|first rest]; [reflexivity|].
    change (isHeaderRow (withoutRowNumbers options) first)
      with (isHeaderRow options first).
    destruct (isHeaderRow options first); apply Hplain. }
  assert (Hnumbered :
    rows (readTable (browser w) table options)
    = imap (fun i row => toString (i + 1) :: row)
           (rows (readTable (browser w) table (withoutRowNumbers options)))).
  { rewrite Hr, Hr'.
    destruct (querySelectorAll _ _) as [|first rest]; [reflexivity|].
    change (isHeaderRow (withoutRowNumbers options) first)
      with (isHeaderRow options first).
    destruct (isHeaderRow options first); apply Hrows. }
  split.
  { unfold readTable at 1. cbn [headers]. rewrite Hh'. unfold headerRowOf. subst tl.
    destruct (querySelectorAll _ _) as [|first rest]; [reflexivity|].
    change (isHeaderRow (withoutRowNumbers options) first)
      with (isHeaderRow options first).
    destruct (isHeaderRow options first); reflexivity. }
  split; [exact Horiginal|].
  split.
  { unfold readTable at 1 2 3. cbn [headers]. rewrite Hh, Hh', Hnum.
    destruct (querySelectorAll _ _) as [|first rest]; [reflexivity|].
    change (isHeaderRow (withoutRowNumbers options) first)
      with (isHeaderRow options first).
    destruct (isHeaderRow options first); [|reflexivity].
    rewrite rowValues_withoutRowNumbers.
    destruct (rowValues options first); reflexivity. }
  split; [exact Hnumbered|].
  intros n row Hrow.
  rewrite Hnumbered, Horiginal, list_lookup_imap, list_lookup_fmap, Hrow.
  reflexivity.
Qed.

Lemma rowNumbers_injected_witness :
  let w := Samples.world Samples.salesBrowser None in
  let tl := locate (browser w) 2 in
  failAfter w = None
  /\ includeRowNumbers Samples.allOn = true
  /\ exists original numbered,
       fst (extractTableData 2 (withoutRowNumbers Samples.allOn) w) = Ok original
       /\ fst (extractTableData 2 Samples.allOn w) = Ok numbered
       /\ headers original
          = match headerRowOf Samples.allOn tl with
            | Some row => rowValues Samples.allOn row
            | None => []
            end
       /\ rows original
          = List.map (rowValues Samples.allOn) (dataRowsOf Samples.allOn tl)
       /\ headers numbered
          = match headers original with
            | [] => []
            | _ :: _ => js "#" :: headers original
            end
       /\ rows numbered
          = imap (fun i row => toString (i + 1) :: row) (rows original)
       /\ forall n row,
            dataRowsOf Samples.allOn tl !! n = Some row ->
            rows numbered !! n
            = Some (toString (n + 1) :: rowValues Samples.allOn row).
Proof.
  split; [reflexivity|]. split; [reflexivity|].
  apply (rowNumbers_injected 2 Samples.allOn
           (Samples.world Samples.salesBrowser None)); reflexivity.
Defined.

(** The sample table, numbered: the header gains the label, the rows are
    numbered 1 and 2. *)
Example rowNumbers_on_sales :
  fst (extractTableData 2 Samples.allOn (Samples.world Samples.salesBrowser None))
  = Ok (mkTableData []
          [js "#"; js "Name"; js "Revenue"]
          [[js "1"; js "Alice"; js "$1,200"]; [js "2"; js "Bob"; js "800"]]
          (Some (mkMetadata 3 3 (js "January 1st, 2025 at 9:00 AM")))).
Proof. vm_compute. reflexivity. Qed.

(** ** Currency recovery *)

Lemma hasCurrency_find (s : jsstring) :
  hasCurrency s =
  bool_decide (is_Some (List.find (fun c => (c =? DOLLAR) || (c =? EURO) || (c =? POUND)) s)).
Proof.
  unfold hasCurrency. rewrite !includes_single.
  induction s as [|c s IH]; [reflexivity|].
  cbn [existsb List.find].
  rewrite (N.eqb_sym DOLLAR c), (N.eqb_sym EURO c), (N.eqb_sym POUND c).
  destruct (c =? DOLLAR), (c =? EURO), (c =? POUND); cbn [orb];
    rewrite ?orb_true_r; try reflexivity.
  exact IH.
Qed.

(** Without formatting the value of a cell is its trimmed text. *)
Lemma cellValue_plain options cell :
  preserveFormatting options = false ->
  cellValue options cell = trim (textOf cell).
Proof. intros H. unfold cellValue. rewrite H. reflexivity. Qed.

(** With formatting, a markup without backslash gives what the comment of
    the code describes: the first currency sign of the markup in front of a
    non-empty text that has none, the text alone otherwise. *)
Lemma cellValue_without_backslash options cell :
  preserveFormatting options = true ->
  includes (innerHTML (self cell)) [BACKSLASH] = false ->
  cellValue options cell =
  let text := trim (textOf cell) in
  match firstCurrencySymbol (innerHTML (self cell)) with
  | Some symbol =>
      if negb (isEmpty text) && negb (hasCurrency text) then symbol ++ text else text
  | None => text
  end.
Proof.
  intros Hp Hb. unfold cellValue. rewrite Hp. simpl.
  assert (Hm : matchCurrencyClass (innerHTML (self cell))
               = firstCurrencySymbol (innerHTML (self cell))).
  { unfold matchCurrencyClass, firstCurrencySymbol. f_equal.
    apply includes_single_false in Hb.
    induction Hb as [|c s Hc _ IH]; [reflexivity|].
    cbn [List.find]. rewrite (N.eqb_sym c BACKSLASH), Hc. cbn [orb].
    destruct (_ || _); [reflexivity | exact IH]. }
  rewrite Hm, hasCurrency_find. unfold firstCurrencySymbol.
  destruct (List.find _ (innerHTML (self cell))) as [c|]; simpl; [|reflexivity].
  unfold hasCurrency.
  destruct (isEmpty _), (includes _ [DOLLAR]), (includes _ [EURO]),
    (includes _ [POUND]); reflexivity.
Qed.

(** C8. The cell of [Samples.feeCell] has the markup of a span with a path
    attribute and a currency attribute around the text 100.  Its markup holds
    the dollar sign, its trimmed text is 100 and holds no currency sign, and
    the first currency sign of the markup is the dollar sign; yet the value
    extracted with [preserveFormatting] is the text preceded by a backslash,
    the first character of the markup that the searched class matches. *)
Theorem cellValue_backslash_before_currency :
  let cell := Samples.located Samples.feePage 21 in
  hasCurrency (innerHTML (self cell)) = true
  /\ trim (textOf cell) = js "100"
  /\ hasCurrency (trim (textOf cell)) = false
  /\ firstCurrencySymbol (innerHTML (self cell)) = Some (js "$")
  /\ cellValue Samples.formatted cell = js "\100"
  /\ fst (extractTableData 20 Samples.formatted
            (Samples.world (mkBrowser Samples.feePage [] ∅ ∅ Samples.noLayout 0 []) None))
     = Ok (mkTableData [] [] [[js "\100"]] None).
Proof. vm_compute. repeat split; reflexivity. Qed.

(** ** The header row without [includeHeaders] *)

Lemma matches_th_td_th (l : Located) :
  matches selTh l = true -> matches selTdTh l = true.
Proof.
  unfold matches, selTh, selTdTh. cbn [existsb].
  intros H. rewrite orb_false_r in H. rewrite H, orb_true_r. reflexivity.
Qed.

Lemma filter_head_weaken {A} (P Q : A -> bool) (l : list A) :
  (forall x, P x = true -> Q x = true) ->
  is_Some (head (List.filter P l)) ->
  exists v rest, List.filter Q l = v :: rest.
Proof.
  intros HPQ. induction l as [|d ds IH]; cbn [List.filter].
  - intros [x Hx]. discriminate.
  - destruct (P d) eqn:E.
    + intros _. rewrite (HPQ d E). eauto.
    + intros H. destruct (Q d); eauto.
Qed.

(** A row in which [querySelector] finds a header cell has at least one
    cell. *)
Lemma rowValues_of_header_row options row :
  is_Some (querySelector row selTh) ->
  exists v rest, rowValues options row = v :: rest.
Proof.
  unfold rowValues, querySelector, querySelectorAll. intros H.
  destruct (filter_head_weaken _ (matches selTdTh) _ matches_th_td_th H)
    as (v & vs & Hv).
  rewrite Hv. cbn [List.map]. eauto.
Qed.

Lemma createCSVContent_without_headers data options :
  includeHeaders options = false ->
  createCSVContent data options
  = join [LF] (List.map (fun row => join [COMMA] (List.map escapeCSVValue row))
                        (rows data)).
Proof. intros H. unfold createCSVContent. rewrite H. reflexivity. Qed.

(** C10. A table whose first row holds a header cell, exported without
    [includeHeaders]: the first row is taken as the headers (after the row
    number label, if rows are numbered) and not as a data row; the data rows
    are the rows after it; and the CSV text is made of the lines of those
    data rows only, so nothing of the first row is written. *)
Theorem header_row_omitted_without_includeHeaders
    (table : nat) (options : Options) (w : World)
    (first : Located) (rest : list Located) :
  failAfter w = None ->
  includeHeaders options = false ->
  querySelectorAll (locate (browser w) table) selTr = first :: rest ->
  is_Some (querySelector first selTh) ->
  exists data,
    fst (extractTableData table options w) = Ok data
    /\ headers data
       = (if includeRowNumbers options then [js "#"] else [])
         ++ rowValues options first
    /\ rows data = numberedRows options rest
    /\ createCSVContent data options
       = join [LF]
           (List.map (fun row => join [COMMA] (List.map escapeCSVValue row))
                     (numberedRows options rest)).
Proof.
  intros Hidle Hinc Hrows Hth.
  exists (readTable (browser w) table options).
  split; [apply extractTableData_returns, Hidle|].
  destruct (readTable_rows (browser w) table options) as [Hh Hr].
  rewrite Hrows in Hh, Hr.
  assert (Hhead : isHeaderRow options first = true).
  { unfold isHeaderRow. rewrite bool_decide_eq_true_2 by exact Hth. reflexivity. }
  rewrite Hhead in Hh, Hr. cbv iota in Hh, Hr.
  split; [|split; [exact Hr|]].
  - unfold readTable. cbn [headers]. rewrite Hrows, Hh.
    destruct (rowValues_of_header_row options first Hth) as (v & vs & Hv).
    rewrite Hv. destruct (includeRowNumbers options); reflexivity.
  - rewrite createCSVContent_without_headers by exact Hinc.
    rewrite Hr. reflexivity.
Qed.

Lemma header_row_omitted_witness :
  let w := Samples.world Samples.salesBrowser None in
  let first := Samples.located Samples.salesPage 3 in
  let rest := [Samples.located Samples.salesPage 6;
               Samples.located Samples.salesPage 10] in
  failAfter w = None
  /\ includeHeaders Samples.noHeaders = false
  /\ querySelectorAll (locate (browser w) 2) selTr = first :: rest
  /\ is_Some (querySelector first selTh)
  /\ exists data,
       fst (extractTableData 2 Samples.noHeaders w) = Ok data
       /\ headers data
          = (if includeRowNumbers Samples.noHeaders then [js "#"] else [])
            ++ rowValues Samples.noHeaders first
       /\ rows data = numberedRows Samples.noHeaders rest
       /\ createCSVContent data Samples.noHeaders
          = join [LF]
              (List.map (fun row => join [COMMA] (List.map escapeCSVValue row))
                        (numberedRows Samples.noHeaders rest)).
Proof.
  assert (H1 : querySelectorAll
                 (locate (browser (Samples.world Samples.salesBrowser None)) 2) selTr
               = [Samples.located Samples.salesPage 3;
                  Samples.located Samples.salesPage 6;
                  Samples.located Samples.salesPage 10])
    by (vm_compute; reflexivity).
  assert (H2 : is_Some (querySelector (Samples.located Samples.salesPage 3) selTh))
    by (vm_compute; eauto).
  split; [reflexivity|]. split; [reflexivity|].
  split; [exact H1|]. split; [exact H2|].
  exact (header_row_omitted_without_includeHeaders 2 Samples.noHeaders
           (Samples.world Samples.salesBrowser None)
           (Samples.located Samples.salesPage 3)
           [Samples.located Samples.salesPage 6;
            Samples.located Samples.salesPage 10]
           eq_refl eq_refl H1 H2).
Defined.

(** The sample table without [includeHeaders]: the CSV text has the two data
    rows and no header line. *)
Example csv_of_sales_without_headers :
  (fun r => match r with
            | Ok data => createCSVContent data Samples.noHeaders
            | Throw _ => []
            end)
    (fst (extractTableData 2 Samples.noHeaders
            (Samples.world Samples.salesBrowser None)))
  = js "Alice," ++ [DQUOTE] ++ js "1,200" ++ [DQUOTE] ++ [LF] ++ js "Bob,800".
Proof. vm_compute. reflexivity. Qed.

(** ** The exporting flag *)

Lemma quiet_refl w : quiet w w.
Proof. split; [reflexivity|]. exists []. rewrite app_nil_r. split; reflexivity. Qed.

Lemma quiet_trans w1 w2 w3 : quiet w1 w2 -> quiet w2 w3 -> quiet w1 w3.
Proof.
  intros [H1 (m1 & E1 & F1)] [H2 (m2 & E2 & F2)]. split; [congruence|].
  exists (m1 ++ m2). rewrite E2, E1, forallb_app, F1, F2, app_assoc.
  split; reflexivity.
Qed.

Lemma steady_ret {A} (a : A) : steady (ret a).
Proof. intros w. apply quiet_refl. Qed.

Lemma steady_get : steady get.
Proof. intros w. apply quiet_refl. Qed.

Lemma steady_throw {A} (e : Exn) : steady (@throw A e).
Proof. intros w. apply quiet_refl. Qed.

Lemma steady_tick : steady tick.
Proof.
  intros w. unfold tick. destruct (failAfter w) as [[|k]|]; simpl;
    (split; [reflexivity|]; exists []; rewrite app_nil_r; split; reflexivity).
Qed.

Lemma steady_emit (ev : Event) : isFlagEvent ev = false -> steady (emit ev).
Proof.
  intros H w. split; [reflexivity|]. exists [ev]. simpl. rewrite H.
  split; reflexivity.
Qed.

Lemma steady_bind {A B} (m : M A) (k : A -> M B) :
  steady m -> (forall a, steady (k a)) -> steady (bind m k).
Proof.
  intros Hm Hk w. unfold bind. specialize (Hm w).
  destruct (m w) as [[a|e] w1]; simpl in *; [|exact Hm].
  eapply quiet_trans; [exact Hm | apply Hk].
Qed.

Lemma steady_tryFinally {A} (m : M A) (fin : M unit) :
  steady m -> steady fin -> steady (tryFinally m fin).
Proof.
  intros Hm Hf w. rewrite snd_tryFinally.
  eapply quiet_trans; [apply Hm | apply Hf].
Qed.

Lemma steady_withBrowser f : steady (modify (withBrowser f)).
Proof.
  intros w. split; [reflexivity|]. exists []. simpl. rewrite app_nil_r.
  split; reflexivity.
Qed.

Lemma steady_writeStyle id f : steady (writeStyle id f).
Proof. apply steady_withBrowser. Qed.

Lemma steady_writeScrollLeft id x : steady (writeScrollLeft id x).
Proof. apply steady_withBrowser. Qed.

Lemma steady_forceLayout : steady forceLayout.
Proof. apply steady_withBrowser. Qed.

Lemma steady_forEach {A} (l : list A) (f : A -> M unit) :
  (forall x, steady (f x)) -> steady (forEach l f).
Proof.
  intros Hf. induction l as [|x l IH]; simpl.
  - apply steady_ret.
  - apply steady_bind; [apply Hf | intros _; exact IH].
Qed.

Lemma steady_mapM {A B} (f : A -> M B) (l : list A) :
  (forall x, steady (f x)) -> steady (mapM f l).
Proof.
  intros Hf. induction l as [|x l IH]; simpl.
  - apply steady_ret.
  - apply steady_bind; [apply Hf | intros y].
    apply steady_bind; [exact IH | intros ys; apply steady_ret].
Qed.

Ltac steady_step :=
  first
    [ apply steady_ret | apply steady_get | apply steady_throw | apply steady_tick
    | apply steady_writeStyle | apply steady_writeScrollLeft
    | apply steady_forceLayout
    | apply steady_emit; reflexivity
    | apply steady_bind; [|intros ?]
    | apply steady_tryFinally ].

Lemma steady_extractTableData table options : steady (extractTableData table options).
Proof.
  unfold extractTableData. apply steady_bind; [apply steady_get | intros w0].
  apply steady_bind.
  { unfold readScrollLeft. destruct (tableContainerOf _); repeat steady_step. }
  intros originalScrollLeft. apply steady_bind; [apply steady_get | intros w1].
  apply steady_tryFinally.
  - unfold extractBody. destruct (tableContainerOf _); repeat steady_step.
  - unfold restoreStyles. destruct (tableContainerOf _); repeat steady_step.
Qed.

Lemma steady_downloadCSV content name : steady (downloadCSV content name).
Proof. unfold downloadCSV. repeat steady_step. Qed.

Lemma steady_exportToCSV tablesData config : steady (exportToCSV tablesData config).
Proof.
  unfold exportToCSV. destruct (_ && _).
  - apply steady_forEach. intros x. apply steady_downloadCSV.
  - apply steady_bind; [apply steady_get | intros w0]. apply steady_downloadCSV.
Qed.

Lemma steady_pdfCall c : steady (pdfCall c).
Proof. unfold pdfCall. repeat steady_step. Qed.

Lemma steady_pdfTables lib config index tablesData y :
  steady (pdfTables lib config index tablesData y).
Proof.
  revert index y. induction tablesData as [|t ts IH]; intros index y; simpl.
  - apply steady_ret.
  - apply steady_bind.
    + destruct (_ || _); [|apply steady_ret].
      apply steady_bind; [apply steady_pdfCall | intros _; apply steady_ret].
    + intros y'. repeat (apply steady_bind; [apply steady_pdfCall | intros _]).
      apply IH.
Qed.

Lemma steady_exportToPDF lib tablesData config :
  steady (exportToPDF lib tablesData config).
Proof.
  unfold exportToPDF.
  repeat (apply steady_bind; [apply steady_pdfCall | intros _]).
  apply steady_bind.
  - destruct (includeMetadata _); [|apply steady_ret].
    repeat (apply steady_bind; [apply steady_pdfCall | intros _]).
    apply steady_bind; [apply steady_get | intros w0].
    repeat (apply steady_bind; [apply steady_pdfCall | intros _]).
    apply steady_ret.
  - intros y. apply steady_bind; [apply steady_pdfTables | intros _].
    apply steady_pdfCall.
Qed.

(** The [try] block of [exportDisplayedData]. *)
Lemma steady_export_body lib config :
  steady
    (tablesData <-
       mapM (extractSelected (options config)) (omap withElement (tables config)) ;;
     if Nat.eqb (length tablesData) 0 then
       throw (Error (js "No table data to export"))
     else
       match format config with
       | FormatPdf => exportToPDF lib tablesData config
       | FormatCsv => exportToCSV tablesData config
       | FormatExcel => exportToCSV tablesData config
       | FormatOther name =>
           throw (Error (js "Unsupported export format: " ++ name))
       end).
Proof.
  apply steady_bind.
  - apply steady_mapM. intros x. unfold extractSelected.
    apply steady_bind; [apply steady_extractTableData | intros d; apply steady_ret].
  - intros tablesData. destruct (Nat.eqb _ _); [apply steady_throw|].
    destruct (format config);
      [apply steady_exportToPDF | apply steady_exportToCSV
      | apply steady_exportToCSV | apply steady_throw].
Qed.

(** The frame of [exportDisplayedData] around any steady [try] block. *)
Lemma flag_bracket (body : M unit) (w : World) :
  steady body ->
  let r :=
    (setIsExporting true ;;;
     tryFinally
       (tryCatch body
          (fun error =>
             emit (ConsoleError (js "Export failed:") error) ;;; throw error))
       (setIsExporting false)) w in
  isExporting (snd r) = false
  /\ exists mid,
       events (snd r)
       = events w ++ [SetIsExporting true] ++ mid ++ [SetIsExporting false]
       /\ forallb (fun ev => negb (isFlagEvent ev)) mid = true
       /\ match fst r with
          | Ok _ => True
          | Throw e => last mid = Some (ConsoleError (js "Export failed:") e)
          end.
Proof.
  intros Hbody r. subst r.
  cbv beta iota zeta delta
    [bind setIsExporting tryFinally tryCatch modify emit throw fst snd].
  cbn [browser isExporting events collected seen failAfter turn].
  match goal with |- context [body ?w0] => set (w1 := w0) end.
  specialize (Hbody w1).
  destruct (body w1) as [[u|e] w2]; cbn [snd] in Hbody;
    destruct Hbody as [Hflag (mid & Hev & Hmid)];
    cbv beta iota zeta.
  - split; [reflexivity|]. exists mid. rewrite Hev. subst w1.
    cbn [events]. rewrite <- !app_assoc. repeat split; auto.
  - split; [reflexivity|].
    exists (mid ++ [ConsoleError (js "Export failed:") e]).
    rewrite Hev. subst w1. cbn [events]. rewrite <- !app_assoc.
    split; [reflexivity|]. split.
    + rewrite forallb_app, Hmid. reflexivity.
    + apply last_snoc.
Qed.

(** The frame of [exportDisplayedData] around any steady [try] block: what
    the block ends in is what the call ends in. *)
Lemma flag_bracket_outcome (body : M unit) (w : World) :
  steady body ->
  let r :=
    (setIsExporting true ;;;
     tryFinally
       (tryCatch body
          (fun error =>
             emit (ConsoleError (js "Export failed:") error) ;;; throw error))
       (setIsExporting false)) w in
  let attempt := body (snd (setIsExporting true w)) in
  isExporting (snd r) = false
  /\ exists mid,
       events (snd attempt) = events w ++ [SetIsExporting true] ++ mid
       /\ forallb (fun ev => negb (isFlagEvent ev)) mid = true
       /\ match fst attempt with
          | Ok _ =>
              fst r = Ok tt
              /\ events (snd r)
                 = events w ++ [SetIsExporting true] ++ mid ++ [SetIsExporting false]
          | Throw e =>
              fst r = Throw e
              /\ events (snd r)
                 = events w ++ [SetIsExporting true] ++ mid
                   ++ [ConsoleError (js "Export failed:") e; SetIsExporting false]
          end.
Proof.
  intros Hbody r attempt. subst r attempt.
  cbv beta iota zeta delta
    [bind setIsExporting tryFinally tryCatch modify emit throw fst snd].
  cbn [browser isExporting events collected seen failAfter turn].
  match goal with |- context [body ?w0] => set (w1 := w0) end.
  specialize (Hbody w1).
  destruct (body w1) as [[u|e] w2]; cbn [snd] in Hbody;
    destruct Hbody as [Hflag (mid & Hev & Hmid)];
    cbv beta iota zeta.
  - split; [reflexivity|]. exists mid. rewrite Hev. subst w1.
    cbn [events]. rewrite <- !app_assoc. destruct u. repeat split; auto.
  - split; [reflexivity|]. exists mid. rewrite Hev. subst w1.
    cbn [events]. rewrite <- !app_assoc. repeat split; auto.
Qed.

(** C9. Whatever the configuration, the library and the world (a failure
    may strike any call): [exportDisplayedData] first sets the flag, which
    the log shows as its first event; then its [try] block runs, and nothing
    in it writes the flag.  When the block returns, the call returns, and
    the last event clears the flag.  When the block fails, the call throws
    that same failure to its caller, after [console.error] has logged it and
    after the flag was cleared, as the last two events.  In both cases the
    flag is clear in the end. *)
Theorem exportDisplayedData_flag (lib : PdfLibrary) (config : ExportConfig)
    (w : World) :
  let r := exportDisplayedData lib config w in
  let attempt := exportAttempt lib config (snd (setIsExporting true w)) in
  isExporting (snd r) = false
  /\ exists mid,
       events (snd attempt) = events w ++ [SetIsExporting true] ++ mid
       /\ forallb (fun ev => negb (isFlagEvent ev)) mid = true
       /\ match fst attempt with
          | Ok _ =>
              fst r = Ok tt
              /\ events (snd r)
                 = events w ++ [SetIsExporting true] ++ mid ++ [SetIsExporting false]
          | Throw e =>
              fst r = Throw e
              /\ events (snd r)
                 = events w ++ [SetIsExporting true] ++ mid
                   ++ [ConsoleError (js "Export failed:") e; SetIsExporting false]
          end.
Proof.
  apply flag_bracket_outcome, steady_export_body.
Qed.

(** The [try] block does fail: in an export of at least one table, a
    failure of its first call into the browser is the failure of the
    block. *)
Lemma exportAttempt_fails (lib : PdfLibrary) (config : ExportConfig)
    (first : DisplayedTable * nat) (rest : list (DisplayedTable * nat)) (w : World) :
  omap withElement (tables config) = first :: rest ->
  failAfter w = Some 0%nat ->
  fst (exportAttempt lib config w) = Throw InjectedFailure.
Proof.
  intros Hsel Hk. unfold exportAttempt. rewrite Hsel. cbn [mapM].
  unfold bind at 1, bind at 1, extractSelected, bind at 1.
  rewrite (surjective_pairing (extractTableData (snd first) (options config) w)).
  rewrite (extractTableData_cut_short (snd first) (options config) w 0 Hk)
    by lia.
  reflexivity.
Qed.

(** ** The empty export *)

Lemma omap_withElement_none (l : list DisplayedTable) :
  Forall (fun t => element t = None) l -> omap withElement l = [].
Proof.
  induction 1 as [|t l Ht _ IH]; [reflexivity|].
  simpl. unfold withElement at 1. rewrite Ht. simpl. exact IH.
Qed.

(** C5. When every selected table has a null element, whatever the format,
    the library and the world: [exportDisplayedData] throws the error of the
    empty export, and all it did is set the flag, log the error and clear the
    flag: the log gains no download and no call on a PDF document, and the
    page is untouched. *)
Theorem empty_export_rejected (lib : PdfLibrary) (config : ExportConfig)
    (w : World) :
  Forall (fun t => element t = None) (tables config) ->
  let r := exportDisplayedData lib config w in
  fst r = Throw (Error (js "No table data to export"))
  /\ events (snd r)
     = events w ++
       [SetIsExporting true;
        ConsoleError (js "Export failed:") (Error (js "No table data to export"));
        SetIsExporting false]
  /\ browser (snd r) = browser w
  /\ isExporting (snd r) = false.
Proof.
  intros Hnull r. subst r. unfold exportDisplayedData.
  rewrite (omap_withElement_none _ Hnull).
  destruct w as [b ex ev col sn fa tu]. simpl.
  rewrite <- !app_assoc. simpl. repeat split; reflexivity.
Qed.

Lemma empty_export_rejected_witness :
  let lib := mkPdfLibrary 297 210 (fun _ => 100%Q) in
  let config :=
    mkExportConfig FormatCsv (js "report") Samples.plain
      [mkDisplayedTable (js "table-0-1") (js "Table 1") None 3 2 true] (js "Sales") in
  let r := exportDisplayedData lib config (Samples.world Samples.salesBrowser None) in
  Forall (fun t => element t = None) (tables config)
  /\ fst r = Throw (Error (js "No table data to export"))
  /\ events (snd r)
     = events (Samples.world Samples.salesBrowser None) ++
       [SetIsExporting true;
        ConsoleError (js "Export failed:") (Error (js "No table data to export"));
        SetIsExporting false]
  /\ browser (snd r) = browser (Samples.world Samples.salesBrowser None)
  /\ isExporting (snd r) = false.
Proof.
  assert (H : Forall (fun t => element t = None)
                [mkDisplayedTable (js "table-0-1") (js "Table 1") None 3 2 true])
    by (constructor; [reflexivity | constructor]).
  split; [exact H|].
  exact (empty_export_rejected (mkPdfLibrary 297 210 (fun _ => 100%Q))
           (mkExportConfig FormatCsv (js "report") Samples.plain
              [mkDisplayedTable (js "table-0-1") (js "Table 1") None 3 2 true]
              (js "Sales"))
           (Samples.world Samples.salesBrowser None) H).
Defined.

(** *** The orchestrator on the sample page *)

(** A CSV export that succeeds: one download between the two writes of the
    flag. *)
Example export_sales_csv :
  let r :=
    exportDisplayedData (mkPdfLibrary 297 210 (fun _ => 100%Q))
      (mkExportConfig FormatCsv (js "report") Samples.plain Samples.salesSelection (js "Sales"))
      (Samples.world Samples.salesBrowser None) in
  fst r = Ok tt
  /\ events (snd r)
     = [SetIsExporting true;
        Download (js "Sales" ++ [LF] ++ js "Name,Revenue" ++ [LF]
                    ++ js "Alice," ++ [DQUOTE] ++ js "1,200" ++ [DQUOTE] ++ [LF]
                    ++ js "Bob,800" ++ [LF])
                 (js "report.csv");
        SetIsExporting false]
  /\ isExporting (snd r) = false.
Proof. vm_compute. repeat split; reflexivity. Qed.

(** The same export cut short inside the extraction, after the container was
    unclipped and the table widened: the failure is logged and thrown, nothing
    is downloaded, the flag is cleared and the container is clipped and
    scrolled as before. *)
Example export_sales_interrupted :
  let r :=
    exportDisplayedData (mkPdfLibrary 297 210 (fun _ => 100%Q))
      (mkExportConfig FormatCsv (js "report") Samples.plain Samples.salesSelection (js "Sales"))
      (Samples.world Samples.salesBrowser (Some 3%nat)) in
  fst r = Throw InjectedFailure
  /\ events (snd r)
     = [SetIsExporting true;
        ConsoleError (js "Export failed:") InjectedFailure;
        SetIsExporting false]
  /\ isExporting (snd r) = false
  /\ getInline (browser (snd r)) 1 = getInline Samples.salesBrowser 1
  /\ scrollLeft (browser (snd r)) 1 = 40%Z
  /\ getInline (browser (snd r)) 2 = noInline.
Proof. vm_compute. repeat split; reflexivity. Qed.

(** A format outside the three known ones is refused after the extraction. *)
Example export_sales_unknown_format :
  let r :=
    exportDisplayedData (mkPdfLibrary 297 210 (fun _ => 100%Q))
      (mkExportConfig (FormatOther (js "xml")) (js "report") Samples.plain
         Samples.salesSelection (js "Sales"))
      (Samples.world Samples.salesBrowser None) in
  fst r = Throw (Error (js "Unsupported export format: xml"))
  /\ isExporting (snd r) = false.
Proof. vm_compute. repeat split; reflexivity. Qed.

(** A PDF export of the sample table: the title, the table title, one grid
    with its header row and two columns of equal width, and the save. *)
Example export_sales_pdf :
  let r :=
    exportDisplayedData (mkPdfLibrary 297 210 (fun _ => 100%Q))
      (mkExportConfig FormatPdf (js "report") Samples.plain Samples.salesSelection
         (js "Sales"))
      (Samples.world Samples.salesBrowser None) in
  fst r = Ok tt
  /\ events (snd r)
     = [SetIsExporting true;
        Pdf PdfNew;
        Pdf (PdfSetFontSize 18);
        Pdf (PdfSetTextColor 40 40 40);
        Pdf (PdfText (js "Sales - Exported Data") (297 # 2) 20 true);
        Pdf (PdfSetFontSize 14);
        Pdf (PdfSetTextColor 60 60 60);
        Pdf (PdfText (js "Sales") 20 35 false);
        Pdf (PdfAutoTable
               (mkAutoTableConfig 45
                  (Some [[js "Name"; js "Revenue"]])
                  [[js "Alice"; js "1,200"]; [js "Bob"; js "800"]]
                  [(0%nat, 257 # 2); (1%nat, 257 # 2)]));
        Pdf (PdfSave (js "report.pdf"));
        SetIsExporting false].
Proof. vm_compute. repeat split; reflexivity. Qed.

(** ** Naming of the scanned tables *)

Lemma startsWith_app (p s : jsstring) : startsWith (p ++ s) p = true.
Proof.
  induction p as [|c p IH]; [destruct s; reflexivity|].
  simpl. rewrite N.eqb_refl. exact IH.
Qed.

(** The loop over the preceding siblings, said without the loop: the name is
    the text of the first heading among the siblings still in reach (if it
    has text), and the snippets are the short texts of the siblings walked
    before that heading, in the order walked. *)
Lemma nameLoop_spec (current : list Located) (k : nat) (name : jsstring)
    (acc : list jsstring) :
  nameLoop current k name acc =
  let reach := firstn (5 - k) current in
  (match List.find isHeading reach with
   | Some heading => orElse (trim (textOf heading)) name
   | None => name
   end,
   acc ++ omap shortText (beforeHeading reach)).
Proof.
  revert k acc. induction current as [|cur rest IH]; intros k acc.
  - cbn [nameLoop]. rewrite firstn_nil. cbn. rewrite app_nil_r. reflexivity.
  - cbn [nameLoop]. destruct (k <? 5)%nat eqn:Hk.
    + apply Nat.ltb_lt in Hk.
      replace (5 - k)%nat with (S (5 - S k)) by lia.
      cbn [firstn List.find beforeHeading]. fold (isHeading cur).
      destruct (isHeading cur).
      * cbn. rewrite app_nil_r. reflexivity.
      * rewrite IH. cbn zeta. f_equal.
        cbn [omap list_omap]. unfold shortText at 2.
        destruct (negb (isEmpty (trim (textOf cur))) && _);
          cbn; [rewrite <- app_assoc|]; reflexivity.
    + apply Nat.ltb_ge in Hk.
      replace (5 - k)%nat with 0%nat by lia.
      cbn. rewrite app_nil_r. reflexivity.
Qed.

(** The name the code gives is the described one, the open case apart. *)
Lemma tableNameOf_described (index : nat) (table : Located) :
  headingLooksPositional table = false ->
  tableNameOf index table = describedName index table.
Proof.
  unfold headingLooksPositional, tableNameOf, describedName.
  fold (positionalName index).
  destruct (querySelector table selCaption) as [caption|]; [reflexivity|].
  rewrite nameLoop_spec. cbn zeta. rewrite Nat.sub_0_r. fold (siblingWindow table).
  cbn [app].
  assert (Hpos : forall s,
    (if startsWith (positionalName index) (js "Table ") && (0 <? length s)%nat
     then default (positionalName index) (last s) else positionalName index)
    = default (positionalName index) (last s)).
  { intros s. unfold positionalName at 1. rewrite startsWith_app.
    destruct s; reflexivity. }
  destruct (List.find isHeading (siblingWindow table)) as [heading|].
  - unfold orElse. destruct (isEmpty (trim (textOf heading))) eqn:He.
    + intros _. cbn [negb]. apply Hpos.
    + cbn [negb]. rewrite andb_true_r. intros Hopen. rewrite Hopen. reflexivity.
  - intros _. cbn [isEmpty negb]. apply Hpos.
Qed.

(** C6 (amended). Every table [scanForTables] returns, at its position in
    the list, refers to the table found at that position and bears the
    described name: with a caption, the trimmed text of the caption, or the
    positional name when the caption has no text; without a caption, the
    trimmed text of the first heading among the five preceding element
    siblings when it has text; else the short text collected last while
    walking back from the table (the farthest of those walked before the
    heading); else the positional name.  Nothing is said of a heading whose
    text starts like a positional name and which is met after some short
    text. *)
Theorem scanForTables_names (b : Browser) (container index : nat)
    (table : Located) :
  querySelectorAll (locate b container) selTable !! index = Some table ->
  headingLooksPositional table = false ->
  exists dt,
    scanForTables b container !! index = Some dt
    /\ element dt = Some (nid (self table))
    /\ dt_name dt = describedName index table.
Proof.
  intros Hfound Hopen. exists (scanTable b index table).
  split; [|split].
  - unfold scanForTables. rewrite list_lookup_imap, Hfound. reflexivity.
  - reflexivity.
  - cbn [scanTable dt_name]. apply tableNameOf_described, Hopen.
Qed.

Lemma scanForTables_names_witness :
  let b := Samples.browserOf Samples.headingPage in
  let table := Samples.located Samples.headingPage 53 in
  querySelectorAll (locate b 50) selTable !! 0%nat = Some table
  /\ headingLooksPositional table = false
  /\ exists dt,
       scanForTables b 50 !! 0%nat = Some dt
       /\ element dt = Some (nid (self table))
       /\ dt_name dt = describedName 0 table.
Proof.
  assert (H1 : querySelectorAll (locate (Samples.browserOf Samples.headingPage) 50)
                 selTable !! 0%nat
               = Some (Samples.located Samples.headingPage 53))
    by (vm_compute; reflexivity).
  assert (H2 : headingLooksPositional (Samples.located Samples.headingPage 53) = false)
    by (vm_compute; reflexivity).
  split; [exact H1|]. split; [exact H2|].
  exact (scanForTables_names (Samples.browserOf Samples.headingPage) 50 0
           (Samples.located Samples.headingPage 53) H1 H2).
Defined.

(** C6, as stated, fails.  Two paragraphs before a table without caption:
    the specification names the table after the nearer one, the code after
    the farther one.  A heading before a table with an empty caption: the
    specification names the table after the heading, the code gives the
    positional name. *)
Lemma scanForTables_name_not_nearest :
  (List.map dt_name (scanForTables (Samples.browserOf Samples.notesPage) 30)
   = [js "Far"]
   /\ specifiedName 0 (Samples.located Samples.notesPage 33) = js "Near")
  /\ (List.map dt_name (scanForTables (Samples.browserOf Samples.captionPage) 40)
      = [js "Table 1"]
      /\ specifiedName 0 (Samples.located Samples.captionPage 42) = js "Revenue").
Proof. vm_compute. repeat split; reflexivity. Qed.

(** The names on the page of the specification's examples: a heading within
    reach, a caption, and neither. *)
Example scanForTables_on_headingPage :
  List.map dt_name (scanForTables (Samples.browserOf Samples.headingPage) 50)
  = [js "Revenue"; js "Attendance"; js "Table 3"].
Proof. vm_compute. reflexivity. Qed.

(** ** The collector never lists a table twice *)

Section Preservation.

Variable I : World -> Prop.
Hypothesis I_local : collectorOnly I.

Lemma preserves_tick : preserves I tick.
Proof.
  intros w H. unfold tick.
  destruct (failAfter w) as [[|k]|]; simpl; try exact H;
    eapply I_local; try exact H; reflexivity.
Qed.

Lemma preserves_emit (ev : Event) : preserves I (emit ev).
Proof. intros w H. eapply I_local; try exact H; reflexivity. Qed.

Lemma preserves_interact react (a : Interaction) : preserves I (interact react a).
Proof. intros w H. eapply I_local; try exact H; reflexivity. Qed.

Lemma preserves_call react (a : Interaction) : preserves I (call react a).
Proof.
  unfold call. apply preserves_bind; [apply preserves_tick|].
  intros _. apply preserves_interact.
Qed.

Hypothesis I_collectOne : forall prefix t, preserves I (collectOne prefix t).

Lemma preserves_collectVisible root prefix searchContext :
  preserves I (collectVisible root prefix searchContext).
Proof.
  unfold collectVisible. apply preserves_bind; [apply preserves_get|].
  intros w0. apply preserves_forEach. intros t. apply I_collectOne.
Qed.

Lemma preserves_processTrigger react root searchRoot levelPrefix level recurse trigger :
  (forall sr p l, preserves I (recurse sr p l)) ->
  preserves I (processTrigger react root searchRoot levelPrefix level recurse trigger).
Proof.
  intros Hrec. unfold processTrigger.
  apply preserves_bind; [apply preserves_get | intros w0].
  apply preserves_tryCatch; [|intros e; apply preserves_emit].
  repeat (apply preserves_bind;
          [first [ apply preserves_emit | apply preserves_call
                 | apply preserves_interact | apply preserves_tick
                 | apply preserves_get | apply preserves_collectVisible ]
          | intros ?]).
  destruct (closestParentIn _ _); [|apply preserves_ret].
  destruct (querySelector _ _); [|apply preserves_ret].
  destruct (isHTMLElement _); [apply Hrec | apply preserves_ret].
Qed.

Lemma preserves_processTabLevelFrom react budget root searchRoot levelPrefix level :
  preserves I (processTabLevelFrom react budget root searchRoot levelPrefix level).
Proof.
  revert searchRoot levelPrefix level.
  induction budget as [|budget IH]; intros searchRoot levelPrefix level; simpl.
  - apply preserves_emit.
  - apply preserves_bind; [apply preserves_get | intros w0].
    apply preserves_bind; [apply preserves_emit | intros _].
    apply preserves_forEach. intros trigger.
    apply preserves_processTrigger. intros sr p l. apply IH.
Qed.

Lemma preserves_processTabLevel react root searchRoot levelPrefix level :
  preserves I (processTabLevel react root searchRoot levelPrefix level).
Proof. unfold processTabLevel. apply preserves_processTabLevelFrom. Qed.

Lemma preserves_restoreTrigger react trigger :
  preserves I (restoreTrigger react trigger).
Proof.
  unfold restoreTrigger. apply preserves_tryCatch.
  - repeat (apply preserves_bind;
            [first [ apply preserves_emit | apply preserves_call
                   | apply preserves_get ]
            | intros ?]).
    apply preserves_interact.
  - intros e. apply preserves_bind; [apply preserves_get | intros w0].
    apply preserves_emit.
Qed.

End Preservation.

(** *** Everything outside the [try] blocks returns *)

Lemma total_collectOne prefix t : total (collectOne prefix t).
Proof.
  unfold collectOne. apply total_bind; [apply total_get | intros w0].
  destruct (element t); [|apply total_ret].
  destruct (bool_decide _); [apply total_ret | apply total_modify].
Qed.

Lemma total_collectVisible root prefix searchContext :
  total (collectVisible root prefix searchContext).
Proof.
  unfold collectVisible. apply total_bind; [apply total_get | intros w0].
  apply total_forEach. intros t. apply total_collectOne.
Qed.

Lemma total_processTabLevelFrom react budget root searchRoot levelPrefix level :
  total (processTabLevelFrom react budget root searchRoot levelPrefix level).
Proof.
  destruct budget as [|budget]; simpl.
  - apply total_emit.
  - apply total_bind; [apply total_get | intros w0].
    apply total_bind; [apply total_emit | intros _].
    apply total_forEach. intros trigger. unfold processTrigger.
    apply total_bind; [apply total_get | intros w1].
    apply total_tryCatch. intros e. apply total_emit.
Qed.

Lemma total_processTabLevel react root searchRoot levelPrefix level :
  total (processTabLevel react root searchRoot levelPrefix level).
Proof. unfold processTabLevel. apply total_processTabLevelFrom. Qed.

Lemma total_restoreTrigger react trigger : total (restoreTrigger react trigger).
Proof.
  unfold restoreTrigger. apply total_tryCatch. intros e.
  apply total_bind; [apply total_get | intros w0]. apply total_emit.
Qed.

(** *** The bookkeeping stays consistent *)

Lemma collectorConsistent_local : collectorOnly collectorConsistent.
Proof.
  intros w w' Hc Hs (Hnd & Hsome & Hiff). unfold collectorConsistent.
  rewrite Hc, Hs. repeat split; try assumption; apply Hiff.
Qed.

Lemma collectOne_consistent prefix t :
  preserves collectorConsistent (collectOne prefix t).
Proof.
  intros w (Hnd & Hsome & Hiff). unfold collectOne, bind, get.
  destruct (element t) as [el|] eqn:Hel; [|repeat split; try assumption; apply Hiff].
  destruct (bool_decide (el ∈ seen w)) eqn:Hseen;
    [repeat split; try assumption; apply Hiff|].
  apply bool_decide_eq_false in Hseen.
  unfold collectorConsistent. cbn [modify snd setCollector collected seen].
  rewrite map_app. cbn [List.map element].
  split; [|split].
  - apply NoDup_app. split; [exact Hnd|]. split; [|apply NoDup_singleton].
    intros x Hx Hx'. apply list_elem_of_singleton in Hx'. subst x.
    apply Hseen, Hiff, Hx.
  - apply Forall_app. split; [exact Hsome|]. constructor; [|constructor].
    cbn [element]. eauto.
  - intros x. rewrite elem_of_app, list_elem_of_singleton, elem_of_union,
      elem_of_singleton, Hiff.
    split; [intros [H|H]; [right; exact H | left; congruence]
          | intros [H|H]; [right; congruence | left; exact H]].
Qed.

Lemma seen_local (el : nat) : collectorOnly (fun w => el ∈ seen w).
Proof. intros w w' _ Hs H. rewrite Hs. exact H. Qed.

Lemma collectOne_seen_grows (el : nat) prefix t :
  preserves (fun w => el ∈ seen w) (collectOne prefix t).
Proof.
  intros w H. unfold collectOne, bind, get.
  destruct (element t) as [el'|]; [|exact H].
  destruct (bool_decide (el' ∈ seen w)); [exact H|].
  cbn [modify snd setCollector seen]. apply elem_of_union. right. exact H.
Qed.

Lemma noticed_local t : collectorOnly (fun w => noticed w t).
Proof. intros w w' _ Hs H. unfold noticed in *. rewrite Hs. exact H. Qed.

Lemma collectOne_noticed_stays t prefix t' :
  preserves (fun w => noticed w t) (collectOne prefix t').
Proof.
  unfold noticed. destruct (element t) as [el|].
  - apply collectOne_seen_grows.
  - intros w _. exact I.
Qed.

Lemma collectOne_notices prefix t (w : World) :
  noticed (snd (collectOne prefix t w)) t.
Proof.
  unfold noticed, collectOne, bind, get.
  destruct (element t) as [el|]; [|exact I].
  destruct (bool_decide (el ∈ seen w)) eqn:Hseen.
  - apply bool_decide_eq_true in Hseen. exact Hseen.
  - cbn [modify snd setCollector seen]. apply elem_of_union. left.
    apply elem_of_singleton. reflexivity.
Qed.

Lemma forEach_collectOne_notices prefix (l : list DisplayedTable) (w : World) :
  Forall (noticed (snd (forEach l (collectOne prefix) w))) l.
Proof.
  revert w. induction l as [|t l IH]; intros w; [constructor|].
  cbn [forEach]. unfold bind at 1.
  pose proof (collectOne_notices prefix t w) as Ht.
  destruct (total_collectOne prefix t w) as [u Hu].
  destruct (collectOne prefix t w) as [[u'|e] w1]; [|discriminate].
  cbn [snd] in Ht. constructor; [|apply IH].
  apply (preserves_forEach (fun w => noticed w t) l (collectOne prefix)).
  - intros t'. apply collectOne_noticed_stays.
  - exact Ht.
Qed.

Lemma afterFirstPass_local found : collectorOnly (afterFirstPass found).
Proof.
  intros w w' Hc Hs [Hcons Hfound]. split.
  - eapply collectorConsistent_local; eauto.
  - eapply Forall_impl; [exact Hfound|]. intros t Ht.
    eapply (noticed_local t); eauto.
Qed.

Lemma collectOne_afterFirstPass found prefix t :
  preserves (afterFirstPass found) (collectOne prefix t).
Proof.
  intros w [Hcons Hfound]. split.
  - apply collectOne_consistent, Hcons.
  - apply Forall_forall. intros t' Ht'.
    apply (collectOne_noticed_stays t' prefix t).
    eapply Forall_forall in Hfound; eauto.
Qed.

Lemma scanForTables_has_element b container t :
  t ∈ scanForTables b container -> is_Some (element t).
Proof.
  unfold scanForTables. intros H.
  apply list_elem_of_lookup in H as [i Hi].
  rewrite list_lookup_imap in Hi.
  destruct (querySelectorAll _ _ !! i) as [x|]; [|discriminate].
  injection Hi as <-. eexists. reflexivity.
Qed.

(** C2. Whatever the page and however the application answers the clicks
    and the waits, [scanForTablesIncludingSubTabs] returns, and in the list
    it returns every entry refers to a table element and no two entries
    refer to the same one.  Every table the first pass finds visible and with
    rows is referred to by an entry of the list, hence by exactly one, also
    when later panels show it again. *)
Theorem scan_lists_each_table_once
    (react : nat -> Interaction -> Browser -> Browser)
    (container : nat) (w : World) :
  exists result,
    fst (scanForTablesIncludingSubTabs react container w) = Ok result
    /\ NoDup (List.map element result)
    /\ Forall (fun t => is_Some (element t)) result
    /\ Forall (fun t => element t ∈ List.map element result)
              (visibleTables (browser w) container).
Proof.
  set (found := visibleTables (browser w) container).
  set (J := afterFirstPass found).
  assert (JL : collectorOnly J) by apply afterFirstPass_local.
  assert (JO : forall prefix t, preserves J (collectOne prefix t))
    by (intros; apply collectOne_afterFirstPass).
  assert (Hrun : returning (fun w' => w' = w)
                   (scanForTablesIncludingSubTabs react container)
                   (fun result w' =>
                      NoDup (List.map element result)
                      /\ Forall (fun t => is_Some (element t)) result
                      /\ Forall (fun t => element t ∈ List.map element result) found)).
  { unfold scanForTablesIncludingSubTabs.
    eapply returning_bind with (R := fun _ w' => w' = setCollector [] ∅ w).
    { intros w' ->. exists tt. split; reflexivity. }
    intros _.
    eapply returning_bind; [apply returning_get|]. intros w0.
    eapply returning_bind with (R := fun _ => J).
    { intros w' [-> ->]. destruct (total_collectVisible container
        (js "Initial Active Content") None (setCollector [] ∅ w)) as [u Hu].
      exists u. split; [exact Hu|]. split.
      - apply (preserves_collectVisible collectorConsistent collectOne_consistent).
        split; [constructor|]. split; [constructor|].
        intros el. cbn. split; intros H.
        + apply elem_of_nil in H. contradiction.
        + apply elem_of_empty in H. contradiction.
      - unfold collectVisible, bind at 1, get at 1.
        apply forEach_collectOne_notices. }
    intros _.
    eapply returning_bind with (R := fun _ => J).
    { apply returning_steps; [apply total_processTabLevel|].
      apply preserves_processTabLevel; assumption. }
    intros _.
    eapply returning_bind; [apply returning_get|]. intros w1.
    eapply returning_bind with (R := fun _ => J).
    { intros w' [_ Hw']. revert w' Hw'. apply returning_steps.
      - apply total_forEach. intros x. apply total_processTabLevel.
      - apply preserves_forEach. intros x.
        apply preserves_processTabLevel; assumption. }
    intros _.
    eapply returning_bind with (R := fun _ => J).
    { apply returning_steps.
      - apply total_forEach. intros x. apply total_restoreTrigger.
      - apply preserves_forEach. intros x.
        apply preserves_restoreTrigger; assumption. }
    intros _.
    eapply returning_bind with (R := fun _ => J).
    { apply returning_steps; [apply total_modify|].
      apply preserves_interact; assumption. }
    intros _.
    eapply returning_bind with (R := fun _ => J).
    { apply returning_steps; [apply total_collectVisible|].
      apply preserves_collectVisible; assumption. }
    intros _.
    eapply returning_bind; [apply returning_get|]. intros w2.
    intros w' [-> [(Hnd & Hsome & Hiff) Hfound]].
    eexists. split; [reflexivity|]. split; [exact Hnd|]. split; [exact Hsome|].
    apply Forall_forall. intros t Ht.
    pose proof (proj1 (Forall_forall _ _) Hfound t Ht) as Hn.
    assert (Hs : is_Some (element t)).
    { apply (scanForTables_has_element (browser w) container).
      apply list_elem_of_In. apply list_elem_of_In in Ht.
      unfold found, visibleTables in Ht. apply filter_In in Ht. apply Ht. }
    destruct Hs as [el Hel]. unfold noticed in Hn. rewrite Hel in *.
    apply Hiff, Hn. }
  destruct (Hrun w eq_refl) as (result & Hres & Hnd & Hsome & Hall).
  exists result. repeat split; assumption.
Qed.

(** *** The recursion of [processTabLevel]

    The two equations of the code: past level 5 the walk warns and stops;
    up to level 5 it lists the inactive triggers and handles each, going one
    level down with [processTabLevel] itself. *)

Lemma processTabLevel_beyond react root searchRoot levelPrefix level :
  (5 < level)%nat ->
  processTabLevel react root searchRoot levelPrefix level
  = emit (ConsoleWarn (js "Maximum tab nesting level reached ("
                         ++ toString level ++ js "), stopping recursion") None).
Proof.
  intros H. unfold processTabLevel.
  replace (6 - level)%nat with 0%nat by lia. reflexivity.
Qed.

Lemma processTabLevel_within react root searchRoot levelPrefix level :
  (level <= 5)%nat ->
  processTabLevel react root searchRoot levelPrefix level
  = (w <- get ;;
     let triggers :=
       List.map (fun l => nid (self l))
         (List.filter isInactiveTrigger
            (querySelectorAll (locate (browser w) searchRoot) selTab)) in
     emit (ConsoleLog (js "Level " ++ toString level ++ js ": Found "
                         ++ toString (length triggers)
                         ++ js " inactive tab triggers in "
                         ++ orElse levelPrefix (js "root"))) ;;;
     forEach triggers
       (processTrigger react root searchRoot levelPrefix level
          (processTabLevel react root))).
Proof.
  intros H. unfold processTabLevel.
  replace (6 - level)%nat with (S (6 - (level + 1))) by lia.
  reflexivity.
Qed.

(** The two-tab sample page: the sales table and the totals table are found
    in the first pass, the leads table after the click on its tab; the totals
    table, which shows under both tabs, is listed once. *)
Example scan_on_tabsPage :
  (fun r => match r with
            | Ok l => List.map (fun t => (dt_name t, element t)) l
            | Throw _ => []
            end)
    (fst (scanForTablesIncludingSubTabs Samples.tabsReact 70
            (Samples.world (Samples.tabsBrowser false) None)))
  = [(js "Initial Active Content" ++ [32; EMDASH; 32] ++ js "Sales by month", Some 76%nat);
     (js "Initial Active Content" ++ [32; EMDASH; 32] ++ js "Totals", Some 82%nat);
     (js "Leads" ++ [32; EMDASH; 32] ++ js "Leads by source", Some 79%nat)].
Proof. vm_compute. reflexivity. Qed.

(** *** The earlier collector *)

Lemma legacy_total_visitTrigger react root trigger :
  total (Legacy.visitTrigger react root trigger).
Proof.
  unfold Legacy.visitTrigger. apply total_bind; [apply total_get | intros w0].
  apply total_tryCatch. intros e. apply total_emit.
Qed.

Lemma legacy_total_restoreFirst react l : total (Legacy.restoreFirst react l).
Proof.
  destruct l as [|x l]; simpl; [apply total_ret|].
  apply total_tryCatch. intros e. apply total_emit.
Qed.

Lemma legacy_preserves_visitTrigger (I : World -> Prop) react root trigger :
  collectorOnly I ->
  (forall prefix t, preserves I (collectOne prefix t)) ->
  preserves I (Legacy.visitTrigger react root trigger).
Proof.
  intros IL IO. unfold Legacy.visitTrigger.
  apply preserves_bind; [apply preserves_get | intros w0].
  apply preserves_tryCatch; [|intros e; apply preserves_emit; exact IL].
  repeat (apply preserves_bind;
          [first [ apply preserves_emit; exact IL | apply preserves_call; exact IL
                 | apply preserves_interact; exact IL | apply preserves_tick; exact IL
                 | apply preserves_get | apply preserves_collectVisible; exact IO ]
          | intros ?]).
  apply preserves_emit; exact IL.
Qed.

Lemma legacy_preserves_restoreFirst (I : World -> Prop) react l :
  collectorOnly I -> preserves I (Legacy.restoreFirst react l).
Proof.
  intros IL. destruct l as [|x l]; simpl; [apply preserves_ret|].
  apply preserves_tryCatch; [|intros e; apply preserves_emit; exact IL].
  repeat (apply preserves_bind;
          [first [ apply preserves_emit; exact IL | apply preserves_call; exact IL
                 | apply preserves_get ]
          | intros ?]).
  apply preserves_interact; exact IL.
Qed.

(** The earlier collector returns a list without repeated table element
    too, with every table of its first pass in it. *)
Lemma legacy_scan_lists_each_table_once
    (react : nat -> Interaction -> Browser -> Browser)
    (container : nat) (w : World) :
  exists result,
    fst (Legacy.scanForTablesIncludingSubTabs react container w) = Ok result
    /\ NoDup (List.map element result)
    /\ Forall (fun t => is_Some (element t)) result
    /\ Forall (fun t => element t ∈ List.map element result)
              (visibleTables (browser w) container).
Proof.
  set (found := visibleTables (browser w) container).
  set (J := afterFirstPass found).
  assert (JL : collectorOnly J) by apply afterFirstPass_local.
  assert (JO : forall prefix t, preserves J (collectOne prefix t))
    by (intros; apply collectOne_afterFirstPass).
  assert (Hrun : returning (fun w' => w' = w)
                   (Legacy.scanForTablesIncludingSubTabs react container)
                   (fun result w' =>
                      NoDup (List.map element result)
                      /\ Forall (fun t => is_Some (element t)) result
                      /\ Forall (fun t => element t ∈ List.map element result) found)).
  { unfold Legacy.scanForTablesIncludingSubTabs.
    eapply returning_bind with (R := fun _ w' => w' = setCollector [] ∅ w).
    { intros w' ->. exists tt. split; reflexivity. }
    intros _.
    eapply returning_bind; [apply returning_get|]. intros w0.
    eapply returning_bind with (R := fun _ => J).
    { intros w' [-> ->].
      destruct (total_collectVisible container [] None (setCollector [] ∅ w))
        as [u Hu].
      exists u. split; [exact Hu|]. split.
      - apply (preserves_collectVisible collectorConsistent collectOne_consistent).
        split; [constructor|]. split; [constructor|].
        intros el. cbn. split; intros H.
        + apply elem_of_nil in H. contradiction.
        + apply elem_of_empty in H. contradiction.
      - unfold collectVisible, bind at 1, get at 1.
        apply forEach_collectOne_notices. }
    intros _.
    eapply returning_bind; [apply returning_get|]. intros w1.
    eapply returning_bind with (R := fun _ => J).
    { intros w' [_ Hw']. revert w' Hw'. apply returning_steps;
        [apply total_emit | apply preserves_emit; exact JL]. }
    intros _.
    eapply returning_bind with (R := fun _ => J).
    { apply returning_steps.
      - apply total_forEach. intros x. apply legacy_total_visitTrigger.
      - apply preserves_forEach. intros x.
        apply legacy_preserves_visitTrigger; assumption. }
    intros _.
    eapply returning_bind with (R := fun _ => J).
    { apply returning_steps; [apply legacy_total_restoreFirst|].
      apply legacy_preserves_restoreFirst; assumption. }
    intros _.
    eapply returning_bind; [apply returning_get|]. intros w2.
    intros w' [-> [(Hnd & Hsome & Hiff) Hfound]].
    eexists. split; [reflexivity|]. split; [exact Hnd|]. split; [exact Hsome|].
    apply Forall_forall. intros t Ht.
    pose proof (proj1 (Forall_forall _ _) Hfound t Ht) as Hn.
    assert (Hs : is_Some (element t)).
    { apply (scanForTables_has_element (browser w) container).
      apply list_elem_of_In. apply list_elem_of_In in Ht.
      unfold found, visibleTables in Ht. apply filter_In in Ht. apply Ht. }
    destruct Hs as [el Hel]. unfold noticed in Hn. rewrite Hel in *.
    apply Hiff, Hn. }
  destruct (Hrun w eq_refl) as (result & Hres & Hnd & Hsome & Hall).
  exists result. repeat split; assumption.
Qed.

(** ** The CSV document read back *)

Lemma csvRead_quoted (v field : jsstring) (record : list jsstring) (tail : jsstring) :
  csvRead InQuoted field record (doubleQuotes v ++ DQUOTE :: tail)
  = csvRead AfterQuote (field ++ v) record tail.
Proof.
  revert field. induction v as [|c v IH]; intros field.
  - rewrite app_nil_r. reflexivity.
  - unfold doubleQuotes. cbn [flat_map]. fold (doubleQuotes v).
    destruct (c =? DQUOTE) eqn:Hc.
    + apply N.eqb_eq in Hc. subst c. cbn -[doubleQuotes].
      rewrite IH, <- app_assoc. reflexivity.
    + cbn -[doubleQuotes]. rewrite Hc, IH, <- app_assoc. reflexivity.
Qed.

Lemma csvRead_at_separator (m1 m2 : CsvMode) field record tail :
  atSeparator tail = true -> m1 <> InQuoted -> m2 <> InQuoted ->
  csvRead m1 field record tail = csvRead m2 field record tail.
Proof.
  intros Hsep H1 H2. destruct tail as [|c tail].
  - destruct m1, m2; try reflexivity; contradiction.
  - cbn in Hsep. cbn [csvRead].
    destruct (c =? COMMA); [destruct m1, m2; try reflexivity; contradiction|].
    destruct (c =? LF); [destruct m1, m2; try reflexivity; contradiction|].
    discriminate.
Qed.

Lemma csvRead_plain (v field : jsstring) (record : list jsstring) (tail : jsstring) :
  Forall (fun d => (COMMA =? d) = false) v ->
  Forall (fun d => (DQUOTE =? d) = false) v ->
  Forall (fun d => (LF =? d) = false) v ->
  csvRead InPlain field record (v ++ tail) = csvRead InPlain (field ++ v) record tail.
Proof.
  revert field. induction v as [|c v IH]; intros field Hc Hq Hl.
  - rewrite app_nil_r. reflexivity.
  - inversion Hc; inversion Hq; inversion Hl; subst.
    cbn [app csvRead]. rewrite (N.eqb_sym c COMMA), (N.eqb_sym c LF), (N.eqb_sym c DQUOTE).
    repeat match goal with H : (_ =? c) = false |- _ => rewrite H; clear H end.
    rewrite IH by assumption. rewrite <- app_assoc. reflexivity.
Qed.

(** One field: whatever the value, the text [escapeCSVValue] writes for it
    is read as that value. *)
Lemma csvRead_field (v : jsstring) (record : list jsstring) (tail : jsstring) :
  atSeparator tail = true ->
  csvRead FieldStart [] record (escapeCSVValue v ++ tail)
  = csvRead AfterQuote v record tail.
Proof.
  intros Hsep. unfold escapeCSVValue. destruct (needsQuoting v) eqn:Hn.
  - rewrite <- !app_assoc. cbn [app csvRead]. cbn.
    apply (csvRead_quoted v [] record tail).
  - unfold needsQuoting in Hn.
    apply orb_false_elim in Hn as [Hn Hl]. apply orb_false_elim in Hn as [Hc Hq].
    apply includes_single_false in Hc, Hq, Hl.
    destruct v as [|c v].
    + cbn [app]. apply csvRead_at_separator; [exact Hsep|discriminate..].
    + inversion Hc; inversion Hq; inversion Hl; subst.
      cbn [app csvRead]. rewrite (N.eqb_sym c COMMA), (N.eqb_sym c LF), (N.eqb_sym c DQUOTE).
      repeat match goal with H : (_ =? c) = false |- _ => rewrite H; clear H end.
      rewrite csvRead_plain by assumption. cbn [app].
      apply csvRead_at_separator; [exact Hsep|discriminate..].
Qed.

Lemma join_cons2 (sep x y : jsstring) (l : list jsstring) :
  join sep (x :: y :: l) = x ++ sep ++ join sep (y :: l).
Proof. reflexivity. Qed.

(** One record, up to the end of its line. *)
Lemma csvRead_record (cell : jsstring) (cells record : list jsstring) (tail : jsstring) :
  match tail with [] => true | c :: _ => c =? LF end = true ->
  csvRead FieldStart [] record (csvRecordText (cell :: cells) ++ tail)
  = match tail with
    | [] => Some [record ++ cell :: cells]
    | _ :: rest => cons (record ++ cell :: cells) <$> csvRead FieldStart [] [] rest
    end.
Proof.
  intros Hend. unfold csvRecordText. revert cell record.
  induction cells as [|cell' cells IH]; intros cell record.
  - cbn [List.map join]. rewrite csvRead_field.
    + destruct tail as [|c rest]; [reflexivity|].
      cbn [csvRead]. rewrite Hend.
      destruct (c =? COMMA) eqn:Hc; [|reflexivity].
      apply N.eqb_eq in Hc. apply N.eqb_eq in Hend. subst c. discriminate.
    + destruct tail as [|c rest]; [reflexivity|]. cbn. rewrite Hend. apply orb_true_r.
  - cbn [List.map]. rewrite join_cons2, <- !app_assoc.
    rewrite csvRead_field by reflexivity.
    cbn [app csvRead]. cbn [N.eqb COMMA Pos.eqb].
    change (csvRead FieldStart [] (record ++ [cell])
              (join [COMMA] (List.map escapeCSVValue (cell' :: cells)) ++ tail)
            = match tail with
              | [] => Some [record ++ cell :: cell' :: cells]
              | _ :: rest =>
                  cons (record ++ cell :: cell' :: cells) <$> csvRead FieldStart [] [] rest
              end).
    rewrite IH. rewrite <- (app_assoc record [cell]). reflexivity.
Qed.

Lemma parseCSV_records (line : list jsstring) (lines : list (list jsstring)) :
  Forall (fun l => (0 < length l)%nat) (line :: lines) ->
  parseCSV (join [LF] (List.map csvRecordText (line :: lines))) = Some (line :: lines).
Proof.
  unfold parseCSV. revert line. induction lines as [|line' lines IH]; intros line H.
  - inversion H as [|? ? Hl _]; subst. destruct line as [|cell cells]; [cbn in Hl; lia|].
    cbn [List.map join]. rewrite <- (app_nil_r (csvRecordText _)).
    rewrite csvRead_record by reflexivity. reflexivity.
  - inversion H as [|? ? Hl Hrest]; subst. destruct line as [|cell cells]; [cbn in Hl; lia|].
    cbn [List.map]. rewrite join_cons2.
    rewrite csvRead_record by reflexivity. cbn [app].
    change (cons ([] ++ cell :: cells)
              <$> csvRead FieldStart [] []
                    (join [LF] (List.map csvRecordText (line' :: lines)))
            = Some ((cell :: cells) :: line' :: lines)).
    rewrite IH by exact Hrest. reflexivity.
Qed.

Lemma createCSVContent_records (data : TableData) (options : Options) :
  createCSVContent data options
  = join [LF] (List.map csvRecordText (csvRecords data options)).
Proof.
  unfold createCSVContent, csvRecords. rewrite map_app.
  destruct (includeHeaders options && (0 <? length (headers data))%nat); reflexivity.
Qed.

(** X1. The CSV text of a table reads back as the table: when every data
    row has at least one cell and there is at least one record to write, a
    standard CSV reader gets from the text of [createCSVContent] exactly the
    records that were written (the header row when it is included, then the
    data rows), whatever commas, quotes and line feeds the cells hold. *)
Theorem createCSVContent_reads_back (data : TableData) (options : Options) :
  Forall (fun row => (0 < length row)%nat) (rows data) ->
  (0 < length (csvRecords data options))%nat ->
  parseCSV (createCSVContent data options) = Some (csvRecords data options).
Proof.
  intros Hrows Hsome. rewrite createCSVContent_records.
  assert (Hall : Forall (fun l => (0 < length l)%nat) (csvRecords data options)).
  { unfold csvRecords. apply Forall_app. split; [|exact Hrows].
    destruct (includeHeaders options && (0 <? length (headers data))%nat) eqn:Hh;
      [|constructor].
    apply andb_true_iff in Hh as [_ Hh]. apply Nat.ltb_lt in Hh.
    constructor; [exact Hh | constructor]. }
  destruct (csvRecords data options) as [|line lines]; [cbn in Hsome; lia|].
  apply parseCSV_records, Hall.
Qed.

Lemma createCSVContent_reads_back_witness :
  let data :=
    mkTableData (js "Notes") [js "Name"; js "Remark"]
      [[js "Alice"; js "said " ++ [DQUOTE] ++ js "hi" ++ [DQUOTE; COMMA; LF] ++ js "left"];
       [[]; js "1,200"]] None in
  Forall (fun row => (0 < length row)%nat) (rows data)
  /\ (0 < length (csvRecords data Samples.plain))%nat
  /\ parseCSV (createCSVContent data Samples.plain) = Some (csvRecords data Samples.plain).
Proof.
  intros data.
  assert (H1 : Forall (fun row => (0 < length row)%nat) (rows data))
    by (repeat constructor).
  assert (H2 : (0 < length (csvRecords data Samples.plain))%nat) by (cbn; lia).
  split; [exact H1|]. split; [exact H2|].
  exact (createCSVContent_reads_back data Samples.plain H1 H2).
Defined.

(** Without the condition on the rows the text is ambiguous: a row without
    cells and a row with one empty cell are written alike. *)
Example createCSVContent_empty_row :
  createCSVContent (mkTableData [] [] [[]; [js "x"]] None) Samples.plain
  = createCSVContent (mkTableData [] [] [[[]]; [js "x"]] None) Samples.plain
  /\ parseCSV (createCSVContent (mkTableData [] [] [[]; [js "x"]] None) Samples.plain)
     = Some [[[]]; [js "x"]].
Proof. split; reflexivity. Qed.

(** ** The files of the CSV export *)

(** X2. The part of a file name that [exportToCSV] makes of a table name
    holds ASCII letters, digits and underscores only and is as long as the
    name; a name that is already of that form is kept, so the replacement
    applied twice is the replacement applied once. *)
Theorem sanitizeName_safe (name : jsstring) :
  length (sanitizeName name) = length name
  /\ Forall (fun c => isAsciiAlnum c || (c =? 95) = true) (sanitizeName name)
  /\ (Forall (fun c => isAsciiAlnum c = true) name -> sanitizeName name = name)
  /\ sanitizeName (sanitizeName name) = sanitizeName name.
Proof.
  unfold sanitizeName. split; [apply length_map|]. split; [|split].
  - apply Forall_map, Forall_forall. intros c _. cbn.
    destruct (isAsciiAlnum c) eqn:Hc; [rewrite Hc|]; reflexivity.
  - intros H. induction H as [|c l Hc _ IH]; [reflexivity|].
    cbn [List.map]. rewrite Hc, IH. reflexivity.
  - rewrite List.map_map. apply List.map_ext. intros c.
    destruct (isAsciiAlnum c) eqn:Hc; [rewrite Hc|]; reflexivity.
Qed.

Lemma forEach_download {A} (file : A -> jsstring * jsstring) (l : list A) (w : World) :
  let n := downloadsMade (failAfter w) (length l) in
  let r := forEach l (fun x => downloadCSV (fst (file x)) (snd (file x))) w in
  fst r = (if (n <? length l)%nat then Throw InjectedFailure else Ok tt)
  /\ events (snd r)
     = events w ++ List.map (fun x => Download (fst (file x)) (snd (file x))) (take n l)
  /\ browser (snd r) = browser w
  /\ isExporting (snd r) = isExporting w.
Proof.
  revert w. induction l as [|x l IH]; intros w.
  - cbn. destruct (failAfter w) as [[|k]|]; cbn;
      rewrite app_nil_r; repeat split; reflexivity.
  - intros n r. subst n.
    destruct w as [b ex ev col sn [[|k]|] tu]; cbn [failAfter].
    + subst r. cbn. rewrite app_nil_r. repeat split; reflexivity.
    + specialize (IH (mkWorld b ex (ev ++ [Download (fst (file x)) (snd (file x))])
                              col sn (Some k) tu)).
      change r with
        (forEach l (fun x => downloadCSV (fst (file x)) (snd (file x)))
           (mkWorld b ex (ev ++ [Download (fst (file x)) (snd (file x))])
                    col sn (Some k) tu)).
      clear r. cbn [failAfter events browser isExporting downloadsMade length] in *.
      destruct IH as (IH1 & IH2 & IH3 & IH4).
      rewrite <- Nat.succ_min_distr. cbn [take List.map].
      rewrite IH1, IH2, IH3, IH4, <- app_assoc. repeat split; reflexivity.
    + specialize (IH (mkWorld b ex (ev ++ [Download (fst (file x)) (snd (file x))])
                              col sn None tu)).
      change r with
        (forEach l (fun x => downloadCSV (fst (file x)) (snd (file x)))
           (mkWorld b ex (ev ++ [Download (fst (file x)) (snd (file x))])
                    col sn None tu)).
      clear r. cbn [failAfter events browser isExporting downloadsMade length] in *.
      destruct IH as (IH1 & IH2 & IH3 & IH4).
      cbn [take List.map].
      rewrite IH1, IH2, IH3, IH4, <- app_assoc.
      rewrite Nat.ltb_irrefl.
      replace (S (length l) <? S (length l))%nat with false
        by (symmetry; apply Nat.ltb_irrefl).
      repeat split; reflexivity.
Qed.

(** X3. With [separateSheets] and more than one table, [exportToCSV]
    downloads one file per table, in the order of the tables, each holding the
    CSV text of its table alone (no metadata lines, whatever
    [includeMetadata] says) under the name made of the file name, a hyphen and
    the sanitised table name.  The files are not written together: when the
    download of a table fails, the call throws and the files of the tables
    before it have been downloaded. *)
Theorem exportToCSV_separate_files (tablesData : list TableData)
    (config : ExportConfig) (w : World) :
  separateSheets (options config) = true ->
  (1 < length tablesData)%nat ->
  let made := downloadsMade (failAfter w) (length tablesData) in
  let r := exportToCSV tablesData config w in
  fst r = (if (made <? length tablesData)%nat then Throw InjectedFailure else Ok tt)
  /\ events (snd r)
     = events w ++ List.map (separateFile config) (take made tablesData).
Proof.
  intros Hsep Hlen made r. subst r. unfold exportToCSV. rewrite Hsep.
  apply Nat.ltb_lt in Hlen. rewrite Hlen. cbn [andb].
  pose proof (forEach_download
    (fun tableData =>
       (createCSVContent tableData (options config),
        fileName config ++ js "-" ++ sanitizeName (td_name tableData) ++ js ".csv"))
    tablesData w) as H.
  cbn [fst snd] in H. destruct H as (H1 & H2 & _). split; [exact H1 | exact H2].
Qed.

Lemma exportToCSV_separate_files_witness :
  let config :=
    mkExportConfig FormatCsv (js "report") Samples.allOn [] (js "Sales") in
  let tablesData := [scenarioTableA; scenarioTableB; scenarioTableA] in
  let w := Samples.world Samples.salesBrowser (Some 2%nat) in
  let r := exportToCSV tablesData config w in
  separateSheets (options config) = true
  /\ (1 < length tablesData)%nat
  /\ fst r = Throw InjectedFailure
  /\ events (snd r)
     = [Download (js "Name,Revenue" ++ [LF] ++ js "Alice," ++ [DQUOTE]
                    ++ js "1,200" ++ [DQUOTE] ++ [LF] ++ js "Bob,800")
                 (js "report-Table_A.csv");
        Download (js "Month,Count" ++ [LF] ++ js "Jan,5") (js "report-Table_B.csv")].
Proof.
  intros config tablesData w r.
  assert (H1 : separateSheets (options config) = true) by reflexivity.
  assert (H2 : (1 < length tablesData)%nat) by (cbn; lia).
  split; [exact H1|]. split; [exact H2|].
  exact (exportToCSV_separate_files tablesData config w H1 H2).
Defined.

Lemma join_flat_map (sep x : jsstring) (l : list jsstring) :
  join sep (x :: l) = x ++ flat_map (fun y => sep ++ y) l.
Proof.
  revert x. induction l as [|y l IH]; intros x.
  - cbn. rewrite app_nil_r. reflexivity.
  - rewrite join_cons2, IH. cbn [flat_map]. rewrite <- app_assoc. reflexivity.
Qed.

Lemma flat_map_of_map {A B C} (f : A -> B) (g : B -> list C) (l : list A) :
  flat_map g (List.map f l) = flat_map (fun x => g (f x)) l.
Proof. induction l as [|x l IH]; [reflexivity|]. cbn. rewrite IH. reflexivity. Qed.

Lemma csvSections_later (opts : Options) (index : nat) (l : list TableData)
    (acc : jsstring) :
  csvSections opts (S index) l acc
  = acc ++ flat_map (fun t => [LF] ++ csvBlock opts t) l.
Proof.
  revert index acc. induction l as [|t l IH]; intros index acc.
  - cbn. rewrite app_nil_r. reflexivity.
  - cbn [csvSections]. cbn [Nat.ltb Nat.leb]. rewrite IH. cbn [flat_map].
    unfold csvBlock. rewrite <- !app_assoc. reflexivity.
Qed.

Lemma csvSections_blocks (opts : Options) (l : list TableData) (acc : jsstring) :
  csvSections opts 0 l acc = acc ++ join [LF] (List.map (csvBlock opts) l).
Proof.
  destruct l as [|t l].
  - cbn. rewrite app_nil_r. reflexivity.
  - cbn [csvSections]. cbn [Nat.ltb Nat.leb]. rewrite csvSections_later.
    cbn [List.map]. rewrite join_flat_map, flat_map_of_map.
    unfold csvBlock. rewrite <- !app_assoc. reflexivity.
Qed.

(** X4. Without [separateSheets], or with a single table, [exportToCSV]
    downloads one file or none: the file is named by the file name alone and
    holds the metadata lines (when asked for) and then a block per table, its
    name on a line of its own before its CSV text, the blocks one empty line
    apart; when the download fails, the call throws and nothing has been
    downloaded. *)
Theorem exportToCSV_single_file (tablesData : list TableData)
    (config : ExportConfig) (w : World) :
  separateSheets (options config) && (1 <? length tablesData)%nat = false ->
  let r := exportToCSV tablesData config w in
  let file :=
    Download
      (csvPreamble config (nowFormatted (browser w)) (length tablesData)
       ++ join [LF] (List.map (csvBlock (options config)) tablesData))
      (fileName config ++ js ".csv") in
  match failAfter w with
  | Some O => fst r = Throw InjectedFailure /\ events (snd r) = events w
  | _ => fst r = Ok tt /\ events (snd r) = events w ++ [file]
  end.
Proof.
  intros Hone r file.
  assert (E : r = downloadCSV
                    (csvPreamble config (nowFormatted (browser w)) (length tablesData)
                     ++ join [LF] (List.map (csvBlock (options config)) tablesData))
                    (fileName config ++ js ".csv") w).
  { subst r. unfold exportToCSV. rewrite Hone. unfold bind at 1, get at 1.
    rewrite csvSections_blocks. unfold csvPreamble.
    destruct (includeMetadata (options config)); rewrite <- ?app_assoc; reflexivity. }
  rewrite E. subst file. clear E r.
  destruct w as [b ex ev col sn [[|k]|] tu]; cbn [failAfter];
    (split; reflexivity).
Qed.

Lemma exportToCSV_single_file_witness :
  let config :=
    mkExportConfig FormatCsv (js "report") Samples.allOn [] (js "Sales") in
  let w := Samples.world Samples.salesBrowser None in
  let r := exportToCSV [scenarioTableB] config w in
  separateSheets (options config) && (1 <? length [scenarioTableB])%nat = false
  /\ fst r = Ok tt
  /\ events (snd r)
     = events w ++
       [Download
          (csvPreamble config (nowFormatted (browser w)) 1
           ++ join [LF] (List.map (csvBlock (options config)) [scenarioTableB]))
          (fileName config ++ js ".csv")].
Proof.
  intros config w r.
  split; [reflexivity|].
  exact (exportToCSV_single_file [scenarioTableB] config w eq_refl).
Defined.

(** ** The PDF document *)

Lemma noArtifact_app (a b : list Event) :
  noArtifact a -> noArtifact b -> noArtifact (a ++ b).
Proof.
  unfold noArtifact. intros Ha Hb. rewrite forallb_app, Ha, Hb. reflexivity.
Qed.

Lemma drafting_ret {A} (a : A) : drafting (ret a).
Proof. intros w. exists []. cbn. rewrite app_nil_r. split; reflexivity. Qed.

Lemma drafting_get : drafting get.
Proof. intros w. exists []. cbn. rewrite app_nil_r. split; reflexivity. Qed.

Lemma drafting_throw {A} (e : Exn) : drafting (@throw A e).
Proof. intros w. exists []. cbn. rewrite app_nil_r. split; reflexivity. Qed.

Lemma drafting_tick : drafting tick.
Proof.
  intros w. exists []. rewrite app_nil_r. unfold tick.
  destruct (failAfter w) as [[|k]|]; split; reflexivity.
Qed.

Lemma drafting_emit (ev : Event) : isArtifact ev = false -> drafting (emit ev).
Proof.
  intros H w. exists [ev]. split; [reflexivity|].
  unfold noArtifact. cbn. rewrite H. reflexivity.
Qed.

Lemma drafting_bind {A B} (m : M A) (k : A -> M B) :
  drafting m -> (forall a, drafting (k a)) -> drafting (bind m k).
Proof.
  intros Hm Hk w. unfold bind. destruct (Hm w) as (mid & Hmid & Hno).
  destruct (m w) as [[a|e] w1]; cbn [snd] in *.
  - destruct (Hk a w1) as (mid' & Hmid' & Hno').
    exists (mid ++ mid'). rewrite Hmid', Hmid, app_assoc.
    split; [reflexivity | apply noArtifact_app; assumption].
  - exists mid. split; assumption.
Qed.

Lemma drafting_tryCatch {A} (m : M A) (h : Exn -> M A) :
  drafting m -> (forall e, drafting (h e)) -> drafting (tryCatch m h).
Proof.
  intros Hm Hh w. unfold tryCatch. destruct (Hm w) as (mid & Hmid & Hno).
  destruct (m w) as [[a|e] w1]; cbn [snd] in *.
  - exists mid. split; assumption.
  - destruct (Hh e w1) as (mid' & Hmid' & Hno').
    exists (mid ++ mid'). rewrite Hmid', Hmid, app_assoc.
    split; [reflexivity | apply noArtifact_app; assumption].
Qed.

Lemma drafting_tryFinally {A} (m : M A) (fin : M unit) :
  drafting m -> drafting fin -> drafting (tryFinally m fin).
Proof.
  intros Hm Hf w. rewrite snd_tryFinally.
  destruct (Hm w) as (mid & Hmid & Hno).
  destruct (Hf (snd (m w))) as (mid' & Hmid' & Hno').
  exists (mid ++ mid'). rewrite Hmid', Hmid, app_assoc.
  split; [reflexivity | apply noArtifact_app; assumption].
Qed.

Lemma drafting_mapM {A B} (f : A -> M B) (l : list A) :
  (forall x, drafting (f x)) -> drafting (mapM f l).
Proof.
  intros Hf. induction l as [|x l IH]; cbn [mapM]; [apply drafting_ret|].
  apply drafting_bind; [apply Hf | intros y].
  apply drafting_bind; [apply IH | intros ys]. apply drafting_ret.
Qed.

Lemma drafting_withBrowser f : drafting (modify (withBrowser f)).
Proof. intros w. exists []. cbn. rewrite app_nil_r. split; reflexivity. Qed.

Lemma drafting_writeStyle id f : drafting (writeStyle id f).
Proof. apply drafting_withBrowser. Qed.

Lemma drafting_writeScrollLeft id x : drafting (writeScrollLeft id x).
Proof. apply drafting_withBrowser. Qed.

Lemma drafting_forceLayout : drafting forceLayout.
Proof. apply drafting_withBrowser. Qed.

Lemma drafting_pdfCall (c : PdfCall) :
  isArtifact (Pdf c) = false -> drafting (pdfCall c).
Proof.
  intros H. unfold pdfCall. apply drafting_bind; [apply drafting_tick | intros _].
  apply drafting_emit, H.
Qed.

Ltac drafting_step :=
  first
    [ apply drafting_ret | apply drafting_get | apply drafting_throw
    | apply drafting_tick | apply drafting_writeStyle
    | apply drafting_writeScrollLeft | apply drafting_forceLayout
    | apply drafting_pdfCall; reflexivity
    | apply drafting_emit; reflexivity
    | apply drafting_bind; [|intros ?]
    | apply drafting_tryFinally ].

Lemma drafting_pdfTables lib config index tablesData y :
  drafting (pdfTables lib config index tablesData y).
Proof.
  revert index y. induction tablesData as [|t rest IH]; intros index y;
    cbn [pdfTables]; [apply drafting_ret|].
  apply drafting_bind.
  { destruct (_ || _); repeat drafting_step. }
  intros y'. repeat drafting_step. apply IH.
Qed.

Lemma delivering_bind {A} P (m : M A) (k : A -> M unit) :
  drafting m -> (forall a, delivering P (k a)) -> delivering P (bind m k).
Proof.
  intros Hm Hk w. unfold bind. destruct (Hm w) as (mid & Hmid & Hno).
  destruct (m w) as [[a|e] w1]; cbn [snd fst] in *.
  - destruct (Hk a w1) as (mid' & Hmid' & Hres).
    exists (mid ++ mid'). rewrite Hmid', Hmid, app_assoc. split; [reflexivity|].
    destruct (fst (k a w1)).
    + destruct Hres as (before & file & -> & Hb & HP).
      exists (mid ++ before), file. rewrite app_assoc.
      split; [reflexivity|]. split; [apply noArtifact_app; assumption | exact HP].
    + apply noArtifact_app; assumption.
  - exists mid. split; assumption.
Qed.

Lemma delivering_emit_after_tick P (file : Event) :
  P file -> delivering P (tick ;;; emit file).
Proof.
  intros HP w. unfold bind, tick.
  destruct (failAfter w) as [[|k]|]; cbn.
  - exists []. rewrite app_nil_r. split; reflexivity.
  - exists [file]. split; [reflexivity|]. exists [], file. repeat split. exact HP.
  - exists [file]. split; [reflexivity|]. exists [], file. repeat split. exact HP.
Qed.

Lemma delivering_throw P (e : Exn) : delivering P (throw e).
Proof. intros w. exists []. cbn. rewrite app_nil_r. split; reflexivity. Qed.

Lemma delivering_weaken (P Q : Event -> Prop) (m : M unit) :
  (forall ev, P ev -> Q ev) -> delivering P m -> delivering Q m.
Proof.
  intros HPQ Hm w. destruct (Hm w) as (mid & Hmid & Hres).
  exists mid. split; [exact Hmid|].
  destruct (fst (m w)); [|exact Hres].
  destruct Hres as (before & file & ? & ? & ?). exists before, file. auto.
Qed.

Lemma delivering_exportToPDF lib tablesData config :
  delivering (eq (Pdf (PdfSave (fileName config ++ js ".pdf"))))
             (exportToPDF lib tablesData config).
Proof.
  unfold exportToPDF.
  repeat (apply delivering_bind; [drafting_step | intros ?]).
  apply delivering_bind.
  { destruct (includeMetadata (options config)); repeat drafting_step. }
  intros y. apply delivering_bind; [apply drafting_pdfTables | intros _].
  apply delivering_emit_after_tick. reflexivity.
Qed.

(** X5. [exportToPDF] saves the document as the last thing it does, under
    the file name with the extension added; every other call it makes on the
    document only builds it.  When a call fails, [exportToPDF] throws and no
    document has been saved, nor anything else been downloaded. *)
Theorem exportToPDF_saves_last (lib : PdfLibrary) (tablesData : list TableData)
    (config : ExportConfig) (w : World) :
  let r := exportToPDF lib tablesData config w in
  exists calls,
    events (snd r) = events w ++ calls
    /\ match fst r with
       | Ok _ =>
           exists before,
             calls = before ++ [Pdf (PdfSave (fileName config ++ js ".pdf"))]
             /\ forallb (fun ev => negb (isArtifact ev)) before = true
       | Throw _ => forallb (fun ev => negb (isArtifact ev)) calls = true
       end.
Proof.
  intros r. subst r.
  destruct (delivering_exportToPDF lib tablesData config w) as (calls & Hcalls & Hres).
  exists calls. split; [exact Hcalls|].
  destruct (fst (exportToPDF lib tablesData config w)); [|exact Hres].
  destruct Hres as (before & file & -> & Hb & <-). exists before. split; [reflexivity|exact Hb].
Qed.

Lemma styledWidth_constant (width : Q) (start count : nat) :
  (styledWidth (List.map (fun i => (i, width)) (seq start count))
   == inject_Z (Z.of_nat count) * width)%Q.
Proof.
  revert start. induction count as [|count IH]; intros start.
  - cbn. ring.
  - cbn [seq List.map styledWidth fold_right snd].
    change (fold_right (fun s sum => (snd s + sum)%Q) 0%Q
              (List.map (fun i => (i, width)) (seq (S start) count)))
      with (styledWidth (List.map (fun i => (i, width)) (seq (S start) count))).
    rewrite IH. rewrite Nat2Z.inj_succ. unfold Z.succ. rewrite inject_Z_plus. ring.
Qed.

(** X6. The column styles of a table with headers: the columns styled are
    the first eight at most, each gets the same width, and their widths add
    up to the width of the page less the two margins of 20, however many
    columns the table has.  A table without headers gets no column style. *)
Theorem columnStylesFor_widths (pageWidth : Q) (tableData : TableData) :
  let styles := columnStylesFor pageWidth tableData in
  let n := Nat.min (length (headers tableData)) 8 in
  List.map fst styles = seq 0 n
  /\ Forall (fun s => (snd s == (pageWidth - 40) / inject_Z (Z.of_nat n))%Q) styles
  /\ (styledWidth styles
      == if (0 <? length (headers tableData))%nat then pageWidth - 40 else 0)%Q.
Proof.
  intros styles n. subst styles. unfold columnStylesFor.
  destruct (0 <? length (headers tableData))%nat eqn:Hh.
  - fold n. split; [|split].
    + rewrite List.map_map. cbn [fst]. apply List.map_id.
    + apply Forall_map, Forall_forall. intros i _. cbn. reflexivity.
    + rewrite styledWidth_constant.
      assert (Hn : (0 < n)%nat).
      { apply Nat.ltb_lt in Hh. subst n. lia. }
      field. intros H. unfold Qeq in H. cbn [Qnum Qden inject_Z] in H. lia.
  - apply Nat.ltb_ge in Hh. subst n.
    replace (length (headers tableData)) with 0%nat by lia.
    cbn. split; [reflexivity|]. split; [constructor | reflexivity].
Qed.

Lemma bind_assoc {A B C} (m : M A) (f : A -> M B) (g : B -> M C) (w : World) :
  bind (bind m f) g w = bind m (fun x => bind (f x) g) w.
Proof. unfold bind. destruct (m w) as [[a|e] w1]; reflexivity. Qed.

Lemma withEvents_nil (w : World) : withEvents [] w = w.
Proof. destruct w. unfold withEvents. cbn. rewrite app_nil_r. reflexivity. Qed.

Lemma withEvents_app (a b : list Event) (w : World) :
  withEvents b (withEvents a w) = withEvents (a ++ b) w.
Proof. unfold withEvents. cbn. rewrite app_assoc. reflexivity. Qed.

Lemma pdfCall_run (c : PdfCall) (w : World) :
  failAfter w = None -> pdfCall c w = (Ok tt, withEvents [Pdf c] w).
Proof. intros H. destruct w. cbn in H. subst. reflexivity. Qed.

Lemma pdfCalls_run {A} (calls : list PdfCall) (k : M A) (w : World) :
  failAfter w = None ->
  fold_right (fun c m => pdfCall c ;;; m) k calls w
  = k (withEvents (List.map Pdf calls) w).
Proof.
  revert w. induction calls as [|c calls IH]; intros w H.
  - cbn. rewrite withEvents_nil. reflexivity.
  - cbn [fold_right List.map]. unfold bind at 1. rewrite pdfCall_run by exact H.
    rewrite IH by exact H. rewrite withEvents_app. reflexivity.
Qed.

Lemma pdfTables_separate lib config index tablesData y (w : World) :
  separateSheets (options config) = true ->
  failAfter w = None ->
  exists y',
    pdfTables lib config (S index) tablesData y w
    = (Ok y', withEvents (List.map Pdf (flat_map (pdfPageOf lib config) tablesData)) w).
Proof.
  intros Hsep. revert index y w.
  induction tablesData as [|t rest IH]; intros index y w Hw.
  - exists y. cbn. rewrite withEvents_nil. reflexivity.
  - cbn [pdfTables]. rewrite Hsep. cbn [Nat.ltb Nat.leb andb]. rewrite orb_true_r.
    set (cfg :=
           mkAutoTableConfig (20 + 10)%Q
             (if includeHeaders (options config) && (0 <? length (headers t))%nat
              then Some [headers t] else None)
             (rows t) (columnStylesFor (pageWidth lib) t)).
    rewrite bind_assoc.
    destruct (IH (S index) (lastFinalY lib cfg + 15)%Q
                 (withEvents (List.map Pdf (pdfPageOf lib config t)) w) Hw)
      as [y' Hy'].
    exists y'.
    change (fold_right (fun c m => pdfCall c ;;; m)
              (pdfTables lib config (S (S index)) rest (lastFinalY lib cfg + 15)%Q)
              (pdfPageOf lib config t) w
            = (Ok y',
               withEvents
                 (List.map Pdf (flat_map (pdfPageOf lib config) (t :: rest))) w)).
    rewrite pdfCalls_run by exact Hw. rewrite Hy', withEvents_app.
    cbn [flat_map]. rewrite map_app. reflexivity.
Qed.

(** X7. With [separateSheets], the PDF document holds one table per page:
    after the opening (the centred title and, when asked for, the two
    metadata lines) the first table follows on the first page, and every
    further table is drawn on a new page, its title at 20 from the top and
    the table 10 below it, wherever the table before it ended; the document
    is saved last.  The header row of a table is passed on when it is asked
    for and there is one. *)
Theorem exportToPDF_one_table_per_page (lib : PdfLibrary) (first : TableData)
    (rest : list TableData) (config : ExportConfig) (w : World) :
  separateSheets (options config) = true ->
  failAfter w = None ->
  let r := exportToPDF lib (first :: rest) config w in
  fst r = Ok tt
  /\ events (snd r)
     = events w ++
       List.map Pdf
         (pdfOpening lib config (nowFormatted (browser w)) (first :: rest)
          ++ pdfFirstTable lib config first
          ++ flat_map (pdfPageOf lib config) rest
          ++ [PdfSave (fileName config ++ js ".pdf")]).
Proof.
  intros Hsep Hw r.
  assert (E : r = (Ok tt,
                   withEvents
                     (List.map Pdf
                        (pdfOpening lib config (nowFormatted (browser w)) (first :: rest)
                         ++ pdfFirstTable lib config first
                         ++ flat_map (pdfPageOf lib config) rest
                         ++ [PdfSave (fileName config ++ js ".pdf")])) w)).
  { subst r. unfold exportToPDF, pdfOpening, pdfFirstTable, pdfFirstY.
    destruct w as [b ex ev col sn fa tu]; cbn [failAfter] in Hw; subst fa.
    destruct (includeMetadata (options config));
      match goal with
      | |- context [Qle_bool ?y0 (pageHeight lib - 60)%Q] =>
          destruct (Qle_bool y0 (pageHeight lib - 60)%Q) eqn:Hfit
      end;
      cbn [bind pdfCall tick emit modify ret get failAfter browser isExporting
           events collected seen turn fst snd pdfTables Nat.ltb Nat.leb andb];
      rewrite Hfit; cbn [negb orb];
      cbv beta iota zeta delta [bind pdfCall tick emit modify ret get failAfter
           browser isExporting events collected seen turn fst snd];
      match goal with
      | |- context [pdfTables lib config 1 rest ?Y ?W] =>
          destruct (pdfTables_separate lib config 0 rest Y W Hsep eq_refl) as [y' Hy'];
          rewrite Hy'
      end;
      unfold withEvents;
      cbn [browser isExporting events collected seen failAfter turn];
      rewrite ?map_app, <- ?app_assoc; reflexivity. }
  rewrite E. split; reflexivity.
Qed.

Lemma exportToPDF_one_table_per_page_witness :
  let lib := mkPdfLibrary 297 210 (fun _ => 100%Q) in
  let config :=
    mkExportConfig FormatPdf (js "report") Samples.allOn [] (js "Sales") in
  let w := Samples.world Samples.salesBrowser None in
  let r := exportToPDF lib [scenarioTableA; scenarioTableB] config w in
  separateSheets (options config) = true
  /\ failAfter w = None
  /\ fst r = Ok tt
  /\ events (snd r)
     = events w ++
       List.map Pdf
         (pdfOpening lib config (nowFormatted (browser w))
            [scenarioTableA; scenarioTableB]
          ++ pdfFirstTable lib config scenarioTableA
          ++ flat_map (pdfPageOf lib config) [scenarioTableB]
          ++ [PdfSave (fileName config ++ js ".pdf")]).
Proof.
  intros lib config w r.
  split; [reflexivity|]. split; [reflexivity|].
  exact (exportToPDF_one_table_per_page lib scenarioTableA [scenarioTableB] config w
           eq_refl eq_refl).
Defined.

(** ** The page after an export *)

Lemma preserves_tryFinally (I : World -> Prop) {A} (m : M A) (fin : M unit) :
  preserves I m -> preserves I fin -> preserves I (tryFinally m fin).
Proof.
  intros Hm Hf w H. rewrite snd_tryFinally. apply Hf, Hm, H.
Qed.

Lemma preserves_mapM (I : World -> Prop) {A B} (f : A -> M B) (l : list A) :
  (forall x, preserves I (f x)) -> preserves I (mapM f l).
Proof.
  intros Hf. induction l as [|x l IH]; cbn [mapM]; [apply preserves_ret|].
  apply preserves_bind; [apply Hf | intros y].
  apply preserves_bind; [apply IH | intros ys]. apply preserves_ret.
Qed.

Section KeepingTheBrowser.

Variable I : Browser -> Prop.

Let J : World -> Prop := fun w => I (browser w).

Lemma keeps_emit (ev : Event) : preserves J (emit ev).
Proof. intros w H. exact H. Qed.

Lemma keeps_throw {A} (e : Exn) : preserves J (@throw A e).
Proof. intros w H. exact H. Qed.

Lemma keeps_setIsExporting (flag : bool) : preserves J (setIsExporting flag).
Proof. intros w H. exact H. Qed.

Lemma keeps_downloadCSV content name : preserves J (downloadCSV content name).
Proof.
  unfold downloadCSV. apply preserves_bind; [apply preserves_browser_tick|].
  intros _. apply keeps_emit.
Qed.

Lemma keeps_pdfCall (c : PdfCall) : preserves J (pdfCall c).
Proof.
  unfold pdfCall. apply preserves_bind; [apply preserves_browser_tick|].
  intros _. apply keeps_emit.
Qed.

Lemma keeps_exportToCSV tablesData config : preserves J (exportToCSV tablesData config).
Proof.
  unfold exportToCSV. destruct (_ && _).
  - apply preserves_forEach. intros t. apply keeps_downloadCSV.
  - apply preserves_bind; [apply preserves_get | intros w0]. apply keeps_downloadCSV.
Qed.

Lemma keeps_pdfTables lib config index tablesData y :
  preserves J (pdfTables lib config index tablesData y).
Proof.
  revert index y. induction tablesData as [|t rest IH]; intros index y;
    cbn [pdfTables]; [apply preserves_ret|].
  apply preserves_bind.
  { destruct (_ || _); [|apply preserves_ret].
    apply preserves_bind; [apply keeps_pdfCall | intros _; apply preserves_ret]. }
  intros y'.
  repeat (apply preserves_bind; [apply keeps_pdfCall | intros _]).
  apply IH.
Qed.

Lemma keeps_exportToPDF lib tablesData config :
  preserves J (exportToPDF lib tablesData config).
Proof.
  unfold exportToPDF.
  repeat (apply preserves_bind; [apply keeps_pdfCall | intros _]).
  apply preserves_bind.
  { destruct (includeMetadata (options config)); [|apply preserves_ret].
    repeat (apply preserves_bind;
            [first [apply keeps_pdfCall | apply preserves_get] | intros ?]).
    apply preserves_ret. }
  intros y. apply preserves_bind; [apply keeps_pdfTables | intros _].
  apply keeps_pdfCall.
Qed.

End KeepingTheBrowser.

Lemma preserves_mapM_in (I : World -> Prop) {A B} (f : A -> M B) (l : list A) :
  (forall x, In x l -> preserves I (f x)) -> preserves I (mapM f l).
Proof.
  intros Hf. induction l as [|x l IH]; cbn [mapM]; [apply preserves_ret|].
  apply preserves_bind; [apply Hf; left; reflexivity | intros y].
  apply preserves_bind; [|intros ys; apply preserves_ret].
  apply IH. intros z Hz. apply Hf. right. exact Hz.
Qed.

(** Whether the declarations around a table are plain is read from the
    document and the inline styles. *)
Lemma plainAround_same (b b' : Browser) (table : nat) :
  sameDocument b b' -> sameStyles b b' ->
  plainAround b' table = plainAround b table.
Proof.
  intros (Ht & Hd & _) Hs. unfold plainAround, locate, allElements.
  rewrite Ht, Hd, Hs.
  destruct (tableContainerOf _) as [c|]; [rewrite Hs|]; reflexivity.
Qed.

Lemma sameStyles_refl (b : Browser) : sameStyles b b.
Proof. intros x. reflexivity. Qed.

Lemma sameStyles_trans (b1 b2 b3 : Browser) :
  sameStyles b1 b2 -> sameStyles b2 b3 -> sameStyles b1 b3.
Proof. intros H1 H2 x. rewrite H2. apply H1. Qed.

(** X8. When the inline declarations [extractTableData] writes for the
    selected tables are plain (the width and max-width of each table that
    holds an element have a value and no priority; the container of each has
    both [overflow-x] and [overflow-y] or neither, without priority), then
    whatever else the configuration and the world are, and whether
    [exportDisplayedData] returns or throws, afterwards the document is the
    same and every element has the inline width, max-width and overflow
    declarations it had before, the tables that were expanded and their
    containers included. *)
Theorem exportDisplayedData_restores_page (lib : PdfLibrary) (config : ExportConfig)
    (w : World) :
  Forall (fun table => plainAround (browser w) table = true)
         (omap element (tables config)) ->
  let b := browser w in
  let b' := browser (snd (exportDisplayedData lib config w)) in
  tree b' = tree b /\ detached b' = detached b
  /\ forall x, getInline b' x = getInline b x.
Proof.
  intros Hplain b b'.
  set (I := fun b1 : Browser => sameDocument (browser w) b1 /\ sameStyles (browser w) b1).
  assert (H : I b').
  { subst b b'.
    enough (Hp : preserves (fun w' => I (browser w')) (exportDisplayedData lib config))
      by exact (Hp w (conj (sameDocument_refl _) (sameStyles_refl _))).
    unfold exportDisplayedData.
    apply preserves_bind; [apply (keeps_setIsExporting I) | intros _].
    apply preserves_tryFinally; [|apply (keeps_setIsExporting I)].
    apply preserves_tryCatch.
    - apply preserves_bind.
      + apply preserves_mapM_in. intros sel Hsel. unfold extractSelected.
        apply preserves_bind; [|intros data; apply preserves_ret].
        intros w1 [Hd1 Hs1].
        assert (Hp1 : plainAround (browser w1) (snd sel) = true).
        { rewrite (plainAround_same _ _ _ Hd1 Hs1).
          rewrite Forall_forall in Hplain. apply Hplain.
          apply list_elem_of_In, list_elem_of_omap in Hsel.
          destruct Hsel as (t & Ht & Hel).
          apply list_elem_of_omap. exists t. split; [exact Ht|].
          unfold withElement in Hel.
          destruct (element t) as [el|]; [|discriminate].
          cbn in Hel. injection Hel as <-. reflexivity. }
        split.
        * eapply sameDocument_trans; [exact Hd1|].
          apply extractTableData_sameDocument.
        * eapply sameStyles_trans; [exact Hs1|].
          apply (extractTableData_restores_plain (snd sel) (options config) w1 Hp1).
      + intros tablesData. destruct (Nat.eqb _ _); [apply (keeps_throw I)|].
        destruct (format config).
        * apply (keeps_exportToPDF I).
        * apply (keeps_exportToCSV I).
        * apply (keeps_exportToCSV I).
        * apply (keeps_throw I).
    - intros e. apply preserves_bind; [apply (keeps_emit I) | intros _].
      apply (keeps_throw I). }
  destruct H as ((Ht & Hd & _) & Hs). repeat split; assumption.
Qed.

Lemma exportDisplayedData_restores_page_witness :
  let lib := mkPdfLibrary 297 210 (fun _ => 100%Q) in
  let config :=
    mkExportConfig FormatCsv (js "report") Samples.plain Samples.salesSelection
                   (js "Sales") in
  let w := Samples.world Samples.salesBrowser (Some 3%nat) in
  let b := browser w in
  let b' := browser (snd (exportDisplayedData lib config w)) in
  Forall (fun table => plainAround (browser w) table = true)
         (omap element (tables config))
  /\ tree b' = tree b /\ detached b' = detached b
  /\ forall x, getInline b' x = getInline b x.
Proof.
  assert (H : Forall (fun table =>
                        plainAround (browser (Samples.world Samples.salesBrowser
                                                (Some 3%nat))) table = true)
                [2%nat])
    by (constructor; [vm_compute; reflexivity | constructor]).
  split; [exact H|].
  exact (exportDisplayedData_restores_page
           (mkPdfLibrary 297 210 (fun _ => 100%Q))
           (mkExportConfig FormatCsv (js "report") Samples.plain
              Samples.salesSelection (js "Sales"))
           (Samples.world Samples.salesBrowser (Some 3%nat)) H).
Defined.

(** ** What the orchestrator hands to the serialisers *)

(** The extraction writes nothing to the log. *)
Lemma extractTableData_silent (table : nat) (options : Options) (w : World) :
  events (snd (extractTableData table options w)) = events w
  /\ isExporting (snd (extractTableData table options w)) = isExporting w.
Proof.
  set (I := fun w' : World => events w' = events w /\ isExporting w' = isExporting w).
  enough (Hp : preserves I (extractTableData table options))
    by exact (Hp w (conj eq_refl eq_refl)).
  assert (Htick : preserves I tick).
  { intros w1 H1. unfold tick. destruct (failAfter w1) as [[|k]|]; exact H1. }
  assert (Hwrite : forall f, preserves I (modify (withBrowser f))).
  { intros f w1 H1. exact H1. }
  unfold extractTableData, readScrollLeft, forceLayout.
  apply preserves_bind; [apply preserves_get | intros w0].
  apply preserves_bind.
  { destruct (tableContainerOf _); [|apply preserves_ret].
    apply preserves_bind; [apply Hwrite | intros _].
    apply preserves_bind; [apply preserves_get | intros w1]. apply preserves_ret. }
  intros originalScrollLeft.
  apply preserves_bind; [apply preserves_get | intros w1].
  apply preserves_tryFinally.
  - unfold extractBody, writeStyle, writeScrollLeft, forceLayout.
    apply preserves_bind.
    { destruct (tableContainerOf _); [|apply preserves_ret].
      repeat (apply preserves_bind; [first [apply Htick | apply Hwrite] | intros _]).
      apply Hwrite. }
    intros _.
    repeat (apply preserves_bind;
            [first [apply Htick | apply Hwrite | apply preserves_get] | intros ?]).
    apply preserves_ret.
  - unfold restoreStyles, writeStyle, writeScrollLeft.
    repeat (apply preserves_bind; [apply Hwrite | intros _]).
    destruct (tableContainerOf _); [|apply preserves_ret].
    apply preserves_bind; [apply Hwrite | intros _]. apply Hwrite.
Qed.

(** Without a failure, the tables of the selection are extracted one after
    the other, each from the page as it was at the start. *)
Lemma extractSelected_all (opts : Options) (sels : list (DisplayedTable * nat))
    (w : World) :
  failAfter w = None ->
  exists w',
    mapM (extractSelected opts) sels w
    = (Ok (List.map (fun sel => withName (readTable (browser w) (snd sel) opts)
                                         (dt_name (fst sel))) sels),
       w')
    /\ failAfter w' = None
    /\ events w' = events w
    /\ isExporting w' = isExporting w
    /\ sameDocument (browser w) (browser w').
Proof.
  revert w. induction sels as [|sel sels IH]; intros w Hw.
  - exists w. cbn. repeat split; try assumption; reflexivity.
  - pose proof (extractTableData_returns (snd sel) opts w Hw) as Hret.
    pose proof (extractTableData_idle (snd sel) opts w Hw) as Hidle.
    destruct (extractTableData_silent (snd sel) opts w) as [Hev Hex].
    pose proof (extractTableData_sameDocument (snd sel) opts w) as Hsame.
    destruct (extractTableData (snd sel) opts w) as [r w1] eqn:Hrun.
    cbn [fst snd] in *. subst r.
    destruct (IH w1 Hidle) as (w2 & Hrest & Hfa & Hev2 & Hex2 & Hsame2).
    exists w2. split; [|split; [exact Hfa|split; [congruence|split; [congruence|]]]].
    + cbn [mapM List.map]. unfold bind at 1, extractSelected at 1, bind at 1.
      rewrite Hrun. cbn [ret]. unfold bind at 1. rewrite Hrest. unfold ret.
      f_equal. f_equal. f_equal. apply List.map_ext. intros sel'.
      rewrite (readTable_sameDocument _ _ _ _ Hsame). reflexivity.
    + eapply sameDocument_trans; eassumption.
Qed.

Lemma setIsExporting_run (flag : bool) (w : World) :
  setIsExporting flag w
  = (Ok tt, mkWorld (browser w) flag (events w ++ [SetIsExporting flag])
                    (collected w) (seen w) (failAfter w) (turn w)).
Proof. reflexivity. Qed.

(** X9. A format other than the three known ones is rejected only after
    the tables have been extracted: when no call fails and at least one
    selected table holds an element, [exportDisplayedData] throws the error
    that names the format, logs it, and downloads nothing; the flag is
    raised and lowered around it. *)
Theorem exportDisplayedData_unsupported_format (lib : PdfLibrary)
    (config : ExportConfig) (name : jsstring) (w : World) :
  format config = FormatOther name ->
  failAfter w = None ->
  (0 < length (omap withElement (tables config)))%nat ->
  let r := exportDisplayedData lib config w in
  let error := Error (js "Unsupported export format: " ++ name) in
  fst r = Throw error
  /\ events (snd r)
     = events w ++
       [SetIsExporting true; ConsoleError (js "Export failed:") error;
        SetIsExporting false]
  /\ isExporting (snd r) = false.
Proof.
  intros Hfmt Hw Hsel r error.
  assert (E : exists w', r = (Throw error, w')
                /\ events w' = events w ++
                     [SetIsExporting true; ConsoleError (js "Export failed:") error;
                      SetIsExporting false]
                /\ isExporting w' = false).
  { subst r. unfold exportDisplayedData. unfold bind at 1.
    rewrite setIsExporting_run.
    set (w1 := mkWorld _ true _ _ _ _ _).
    destruct (extractSelected_all (options config) (omap withElement (tables config))
                w1 Hw) as (w2 & Hrun & Hfa & Hev & Hex & _).
    unfold tryFinally, tryCatch, bind at 1. rewrite Hrun.
    rewrite length_map. destruct (omap withElement (tables config)) as [|s l];
      [cbn in Hsel; lia|].
    cbn [length Nat.eqb]. rewrite Hfmt.
    cbv beta iota zeta delta [throw emit modify bind setIsExporting].
    eexists. split; [reflexivity|]. cbn [events isExporting]. rewrite Hev.
    subst w1. cbn [events]. rewrite <- !app_assoc. split; reflexivity. }
  destruct E as (w' & -> & Hev & Hex). repeat split; assumption.
Qed.

Lemma exportDisplayedData_unsupported_format_witness :
  let lib := mkPdfLibrary 297 210 (fun _ => 100%Q) in
  let config :=
    mkExportConfig (FormatOther (js "xml")) (js "report") Samples.plain
      Samples.salesSelection (js "Sales") in
  let w := Samples.world Samples.salesBrowser None in
  let r := exportDisplayedData lib config w in
  format config = FormatOther (js "xml")
  /\ failAfter w = None
  /\ (0 < length (omap withElement (tables config)))%nat
  /\ fst r = Throw (Error (js "Unsupported export format: " ++ js "xml"))
  /\ events (snd r)
     = events w ++
       [SetIsExporting true;
        ConsoleError (js "Export failed:")
          (Error (js "Unsupported export format: " ++ js "xml"));
        SetIsExporting false]
  /\ isExporting (snd r) = false.
Proof.
  intros lib config w r.
  assert (H3 : (0 < length (omap withElement (tables config)))%nat) by (cbn; lia).
  split; [reflexivity|]. split; [reflexivity|]. split; [exact H3|].
  exact (exportDisplayedData_unsupported_format lib config (js "xml") w
           eq_refl eq_refl H3).
Defined.

Lemma exportToCSV_single (tablesData : list TableData) (config : ExportConfig)
    (w : World) :
  separateSheets (options config) && (1 <? length tablesData)%nat = false ->
  exportToCSV tablesData config w
  = downloadCSV
      (csvPreamble config (nowFormatted (browser w)) (length tablesData)
       ++ join [LF] (List.map (csvBlock (options config)) tablesData))
      (fileName config ++ js ".csv") w.
Proof.
  intros Hone. unfold exportToCSV. rewrite Hone. unfold bind at 1, get at 1.
  rewrite csvSections_blocks. unfold csvPreamble.
  destruct (includeMetadata (options config)); rewrite <- ?app_assoc; reflexivity.
Qed.

(** X10. The CSV export from end to end: when no call fails, the format is
    [csv] or [excel], [separateSheets] is off and at least one selected table
    holds an element, [exportDisplayedData] returns after one download.  The
    file holds, after the metadata lines when they are asked for, a block for
    every selected table that holds an element, in the order of the
    selection, under the name of the table in the selection; the tables
    without an element are passed over in silence.  The flag is raised before
    and lowered after. *)
Theorem exportDisplayedData_csv_single_file (lib : PdfLibrary)
    (config : ExportConfig) (w : World) :
  format config = FormatCsv \/ format config = FormatExcel ->
  separateSheets (options config) = false ->
  failAfter w = None ->
  (0 < length (omap withElement (tables config)))%nat ->
  let r := exportDisplayedData lib config w in
  let data := extracted config (browser w) in
  fst r = Ok tt
  /\ events (snd r)
     = events w ++
       [SetIsExporting true;
        Download
          (csvPreamble config (nowFormatted (browser w)) (length data)
           ++ join [LF] (List.map (csvBlock (options config)) data))
          (fileName config ++ js ".csv");
        SetIsExporting false]
  /\ isExporting (snd r) = false.
Proof.
  intros Hfmt Hsep Hw Hsel r data.
  assert (E : exists w', r = (Ok tt, w')
                /\ events w' = events w ++
                     [SetIsExporting true;
                      Download
                        (csvPreamble config (nowFormatted (browser w)) (length data)
                         ++ join [LF] (List.map (csvBlock (options config)) data))
                        (fileName config ++ js ".csv");
                      SetIsExporting false]
                /\ isExporting w' = false).
  { subst r. unfold exportDisplayedData. unfold bind at 1.
    rewrite setIsExporting_run.
    set (w1 := mkWorld _ true _ _ _ _ _).
    destruct (extractSelected_all (options config) (omap withElement (tables config))
                w1 Hw) as (w2 & Hrun & Hfa & Hev & Hex & Hsame).
    fold (extracted config (browser w1)) in Hrun.
    change (browser w1) with (browser w) in Hrun, Hsame. fold data in Hrun.
    unfold tryFinally, tryCatch, bind at 1. rewrite Hrun.
    assert (Hlen : Nat.eqb (length data) 0 = false).
    { subst data. unfold extracted. rewrite length_map. apply Nat.eqb_neq. lia. }
    rewrite Hlen.
    assert (Hcsv : exportToCSV data config w2
                   = (Ok tt,
                      mkWorld (browser w2) (isExporting w2)
                        (events w2 ++
                           [Download
                              (csvPreamble config (nowFormatted (browser w)) (length data)
                               ++ join [LF] (List.map (csvBlock (options config)) data))
                              (fileName config ++ js ".csv")])
                        (collected w2) (seen w2) None (turn w2))).
    { rewrite exportToCSV_single by (rewrite Hsep; reflexivity).
      destruct Hsame as (_ & _ & _ & -> & _).
      destruct w2 as [b2 ex2 ev2 col2 sn2 fa2 tu2]. cbn in Hfa. subst fa2. reflexivity. }
    destruct Hfmt as [-> | ->]; rewrite Hcsv;
      cbv beta iota zeta delta [throw emit modify bind setIsExporting];
      (eexists; split; [reflexivity|]; cbn [events isExporting]; rewrite Hev;
       subst w1; cbn [events]; rewrite <- !app_assoc; split; reflexivity). }
  destruct E as (w' & -> & Hev & Hex). repeat split; assumption.
Qed.

Lemma exportDisplayedData_csv_single_file_witness :
  let lib := mkPdfLibrary 297 210 (fun _ => 100%Q) in
  let config :=
    mkExportConfig FormatExcel (js "report") Samples.plain
      (mkDisplayedTable (js "table-9-1") (js "Gone") None 4 2 true
         :: Samples.salesSelection)
      (js "Sales") in
  let w := Samples.world Samples.salesBrowser None in
  let r := exportDisplayedData lib config w in
  (format config = FormatCsv \/ format config = FormatExcel)
  /\ separateSheets (options config) = false
  /\ failAfter w = None
  /\ (0 < length (omap withElement (tables config)))%nat
  /\ fst r = Ok tt
  /\ events (snd r)
     = events w ++
       [SetIsExporting true;
        Download
          (csvPreamble config (nowFormatted (browser w))
             (length (extracted config (browser w)))
           ++ join [LF] (List.map (csvBlock (options config))
                                  (extracted config (browser w))))
          (fileName config ++ js ".csv");
        SetIsExporting false]
  /\ isExporting (snd r) = false.
Proof.
  intros lib config w r.
  assert (H1 : format config = FormatCsv \/ format config = FormatExcel)
    by (right; reflexivity).
  assert (H4 : (0 < length (omap withElement (tables config)))%nat) by (cbn; lia).
  split; [exact H1|]. split; [reflexivity|]. split; [reflexivity|]. split; [exact H4|].
  exact (exportDisplayedData_csv_single_file lib config w H1 eq_refl eq_refl H4).
Defined.

(** The file of the sample page, a table without an element before it in the
    selection. *)
Example export_sales_excel_skips_missing :
  events
    (snd (exportDisplayedData (mkPdfLibrary 297 210 (fun _ => 100%Q))
            (mkExportConfig FormatExcel (js "report") Samples.plain
               (mkDisplayedTable (js "table-9-1") (js "Gone") None 4 2 true
                  :: Samples.salesSelection)
               (js "Sales"))
            (Samples.world Samples.salesBrowser None)))
  = [SetIsExporting true;
     Download (js "Sales" ++ [LF] ++ js "Name,Revenue" ++ [LF]
                 ++ js "Alice," ++ [DQUOTE] ++ js "1,200" ++ [DQUOTE] ++ [LF]
                 ++ js "Bob,800" ++ [LF])
              (js "report.csv");
     SetIsExporting false].
Proof. vm_compute. reflexivity. Qed.

(** ** One file or none *)

Lemma noArtifact_filter (evs : list Event) :
  noArtifact evs -> List.filter isArtifact evs = [].
Proof.
  unfold noArtifact. induction evs as [|ev evs IH]; [reflexivity|].
  cbn. destruct (isArtifact ev); cbn; [discriminate | exact IH].
Qed.

Lemma delivering_exportToCSV_single (tablesData : list TableData)
    (config : ExportConfig) :
  separateSheets (options config) = false ->
  delivering (fun ev => isArtifact ev = true) (exportToCSV tablesData config).
Proof.
  intros Hsep w. rewrite exportToCSV_single by (rewrite Hsep; reflexivity).
  apply (delivering_emit_after_tick (fun ev => isArtifact ev = true)). reflexivity.
Qed.

Lemma bracket_delivers (body : M unit) (w : World) :
  delivering (fun ev => isArtifact ev = true) body ->
  let r :=
    (setIsExporting true ;;;
     tryFinally
       (tryCatch body
          (fun error =>
             emit (ConsoleError (js "Export failed:") error) ;;; throw error))
       (setIsExporting false)) w in
  exists mid,
    events (snd r) = events w ++ mid
    /\ length (List.filter isArtifact mid)
       = match fst r with Ok _ => 1%nat | Throw _ => 0%nat end.
Proof.
  intros Hbody r.
  set (w1 := mkWorld (browser w) true (events w ++ [SetIsExporting true])
                     (collected w) (seen w) (failAfter w) (turn w)).
  assert (E : r = tryFinally
                    (tryCatch body
                       (fun error =>
                          emit (ConsoleError (js "Export failed:") error) ;;;
                          throw error))
                    (setIsExporting false) w1) by reflexivity.
  rewrite E. clear E r.
  destruct (Hbody w1) as (mid & Hmid & Hres).
  unfold tryFinally, tryCatch.
  destruct (body w1) as [[u|e] w2]; cbn [fst snd] in Hmid, Hres;
    cbv beta iota zeta delta [throw emit modify bind setIsExporting];
    cbn [fst snd events]; rewrite Hmid; subst w1; cbn [events].
  - destruct Hres as (before & file & -> & Hb & Hfile).
    exists ([SetIsExporting true] ++ (before ++ [file]) ++ [SetIsExporting false]).
    split; [rewrite <- !app_assoc; reflexivity|].
    rewrite !List.filter_app, (noArtifact_filter _ Hb). cbn. rewrite Hfile. reflexivity.
  - exists ([SetIsExporting true] ++ mid
            ++ [ConsoleError (js "Export failed:") e] ++ [SetIsExporting false]).
    split; [rewrite <- !app_assoc; reflexivity|].
    rewrite !List.filter_app, (noArtifact_filter _ Hres). reflexivity.
Qed.

Lemma drafting_extractTableData table options :
  drafting (extractTableData table options).
Proof.
  unfold extractTableData. repeat drafting_step.
  - unfold readScrollLeft. destruct (tableContainerOf _); repeat drafting_step.
  - unfold extractBody. repeat drafting_step.
    destruct (tableContainerOf _); repeat drafting_step.
  - unfold restoreStyles. repeat drafting_step.
    destruct (tableContainerOf _); repeat drafting_step.
Qed.

(** X11. An export into one file hands over that file or nothing: when the
    format is [pdf], or [separateSheets] is off, then whatever the selection
    and wherever a call may fail, [exportDisplayedData] downloads exactly one
    file when it returns and none when it throws. *)
Theorem exportDisplayedData_one_file_or_none (lib : PdfLibrary)
    (config : ExportConfig) (w : World) :
  format config = FormatPdf \/ separateSheets (options config) = false ->
  let r := exportDisplayedData lib config w in
  exists mid,
    events (snd r) = events w ++ mid
    /\ length (List.filter isArtifact mid)
       = match fst r with Ok _ => 1%nat | Throw _ => 0%nat end.
Proof.
  intros Hone. unfold exportDisplayedData. apply bracket_delivers.
  apply delivering_bind.
  { apply drafting_mapM. intros sel. unfold extractSelected.
    apply drafting_bind; [apply drafting_extractTableData | intros data].
    apply drafting_ret. }
  intros tablesData. destruct (Nat.eqb _ _); [apply delivering_throw|].
  destruct Hone as [Hpdf | Hsep].
  - rewrite Hpdf. eapply delivering_weaken; [|apply delivering_exportToPDF].
    intros ev <-. reflexivity.
  - destruct (format config).
    + eapply delivering_weaken; [|apply delivering_exportToPDF].
      intros ev <-. reflexivity.
    + apply delivering_exportToCSV_single, Hsep.
    + apply delivering_exportToCSV_single, Hsep.
    + apply delivering_throw.
Qed.

Lemma exportDisplayedData_one_file_or_none_witness :
  let lib := mkPdfLibrary 297 210 (fun _ => 100%Q) in
  let config :=
    mkExportConfig FormatPdf (js "report") Samples.allOn Samples.salesSelection
      (js "Sales") in
  let w := Samples.world Samples.salesBrowser (Some 9%nat) in
  let r := exportDisplayedData lib config w in
  (format config = FormatPdf \/ separateSheets (options config) = false)
  /\ exists mid,
       events (snd r) = events w ++ mid
       /\ length (List.filter isArtifact mid)
          = match fst r with Ok _ => 1%nat | Throw _ => 0%nat end.
Proof.
  intros lib config w r.
  assert (H : format config = FormatPdf \/ separateSheets (options config) = false)
    by (left; reflexivity).
  split; [exact H|].
  exact (exportDisplayedData_one_file_or_none lib config w H).
Defined.

(** The sample page, the PDF export cut short while the document is being
    built: the call throws and nothing is saved. *)
Example export_sales_pdf_interrupted :
  let r :=
    exportDisplayedData (mkPdfLibrary 297 210 (fun _ => 100%Q))
      (mkExportConfig FormatPdf (js "report") Samples.allOn Samples.salesSelection
         (js "Sales"))
      (Samples.world Samples.salesBrowser (Some 9%nat)) in
  fst r = Throw InjectedFailure
  /\ List.filter isArtifact (events (snd r)) = [].
Proof. vm_compute. split; reflexivity. Qed.

(** ** The identifiers of the scanned tables *)

Lemma js_inj (s1 s2 : string) : js s1 = js s2 -> s1 = s2.
Proof.
  unfold js. intros H.
  rewrite <- (string_of_list_ascii_of_string s1), <- (string_of_list_ascii_of_string s2).
  f_equal. revert H. generalize (list_ascii_of_string s1) (list_ascii_of_string s2).
  induction l as [|a l IH]; intros [|a' l'] H; try discriminate; [reflexivity|].
  cbn in H. injection H as Ha Hl. f_equal; [|apply IH, Hl].
  rewrite <- (ascii_N_embedding a), <- (ascii_N_embedding a'), Ha. reflexivity.
Qed.

Lemma to_uint_nonnil (n : N) : N.to_uint n <> Decimal.Nil.
Proof.
  destruct n as [|p]; [discriminate|]. apply DecimalPos.Unsigned.to_uint_nonnil.
Qed.

Lemma toStringN_inj (a b : N) : toStringN a = toStringN b -> a = b.
Proof.
  unfold toStringN. intros H. apply js_inj in H.
  apply DecimalN.Unsigned.to_uint_inj.
  pose proof (NilZero.usu (N.to_uint a) (to_uint_nonnil a)) as Ha.
  pose proof (NilZero.usu (N.to_uint b) (to_uint_nonnil b)) as Hb.
  rewrite H, Hb in Ha. injection Ha as Ha. symmetry. exact Ha.
Qed.

Lemma toString_inj (i j : nat) : toString i = toString j -> i = j.
Proof. unfold toString. intros H. apply toStringN_inj in H. lia. Qed.

Lemma string_of_uint_digits (d : Decimal.uint) :
  Forall (fun c => isDigit c = true) (js (NilEmpty.string_of_uint d)).
Proof.
  induction d; cbn; constructor; try reflexivity; assumption.
Qed.

Lemma toStringN_digits (n : N) : Forall (fun c => isDigit c = true) (toStringN n).
Proof.
  unfold toStringN. generalize (N.to_uint n). intros d.
  destruct d; [repeat constructor | ..];
    match goal with
    | |- Forall _ (js (NilZero.string_of_uint ?x)) => exact (string_of_uint_digits x)
    end.
Qed.

(** Two digit strings followed by a hyphen: where a text starts with both,
    they are the same. *)
Lemma digits_before_hyphen (l1 l2 r1 r2 : jsstring) :
  Forall (fun c => isDigit c = true) l1 ->
  Forall (fun c => isDigit c = true) l2 ->
  l1 ++ 45 :: r1 = l2 ++ 45 :: r2 ->
  l1 = l2 /\ r1 = r2.
Proof.
  intros H1. revert l2. induction H1 as [|c l1 Hc _ IH]; intros l2 H2 H.
  - destruct H2 as [|c' l2 Hc' _].
    + cbn in H. injection H as ->. split; reflexivity.
    + cbn in H. injection H as <- _. discriminate.
  - destruct H2 as [|c' l2 Hc' H2].
    + cbn in H. injection H as -> _. discriminate.
    + cbn in H. injection H as -> H. destruct (IH l2 H2 H) as [-> ->].
      split; reflexivity.
Qed.

Lemma tableId_inj (i j : nat) (now now' : N) :
  tableId i now = tableId j now' -> i = j /\ now = now'.
Proof.
  unfold tableId. intros H. apply app_inv_head in H.
  apply digits_before_hyphen in H as [Hi Hn]; try apply toStringN_digits.
  split; [apply toString_inj, Hi | apply toStringN_inj, Hn].
Qed.

Lemma scanForTables_ids (b : Browser) (container : nat) :
  List.map dt_id (scanForTables b container)
  = List.map (fun i => tableId i (dateNow b))
             (seq 0 (length (querySelectorAll (locate b container) selTable))).
Proof.
  unfold scanForTables.
  change (List.map dt_id) with (fmap (M := list) dt_id).
  rewrite fmap_imap.
  rewrite (imap_ext _ (fun i _ => tableId i (dateNow b))) by reflexivity.
  apply imap_seq_0.
Qed.

(** X12. The identifiers [scanForTables] gives the tables of a scan are
    pairwise distinct, and the identifier of a table tells its position in
    the scan and the time of the scan: two tables, of one scan or of two,
    have the same identifier only at the same position and the same time. *)
Theorem scanForTables_ids_distinct (b : Browser) (container : nat) :
  NoDup (List.map dt_id (scanForTables b container))
  /\ forall (b' : Browser) (container' i j : nat) (t t' : DisplayedTable),
       scanForTables b container !! i = Some t ->
       scanForTables b' container' !! j = Some t' ->
       dt_id t = dt_id t' ->
       i = j /\ dateNow b = dateNow b'.
Proof.
  split.
  - rewrite scanForTables_ids.
    apply (NoDup_fmap_2_strong (fun i => tableId i (dateNow b))); [|apply NoDup_seq].
    intros i j _ _ H. apply tableId_inj in H. apply H.
  - intros b' container' i j t t' Ht Ht' Hid.
    unfold scanForTables in Ht, Ht'. rewrite list_lookup_imap in Ht, Ht'.
    destruct (querySelectorAll (locate b container) selTable !! i) as [tl|];
      [|discriminate].
    destruct (querySelectorAll (locate b' container') selTable !! j) as [tl'|];
      [|discriminate].
    cbn in Ht, Ht'. injection Ht as <-. injection Ht' as <-.
    apply (tableId_inj i j (dateNow b) (dateNow b')). exact Hid.
Qed.

(** ** What the collector lists *)

Lemma preserves_forEach_in (I : World -> Prop) {A} (l : list A) (f : A -> M unit) :
  (forall x, x ∈ l -> preserves I (f x)) -> preserves I (forEach l f).
Proof.
  induction l as [|x l IH]; intros Hf; cbn [forEach]; [apply preserves_ret|].
  apply preserves_bind; [apply Hf; left | intros _].
  apply IH. intros y Hy. apply Hf. right. exact Hy.
Qed.

Lemma collectOne_run (prefix : jsstring) (t : DisplayedTable) (w : World) :
  collectOne prefix t w
  = (Ok tt,
     match element t with
     | Some el =>
         if bool_decide (el ∈ seen w) then w
         else setCollector (collected w ++ [labelled prefix t]) ({[el]} ∪ seen w) w
     | None => w
     end).
Proof.
  unfold collectOne, bind, get. destruct (element t) as [el|] eqn:Hel; [|reflexivity].
  destruct (bool_decide (el ∈ seen w)); [reflexivity|].
  unfold labelled. rewrite Hel. reflexivity.
Qed.

Lemma orElse_nonempty (a b : jsstring) : isEmpty b = false -> isEmpty (orElse a b) = false.
Proof. intros Hb. unfold orElse. destruct (isEmpty a) eqn:Ha; assumption. Qed.

Lemma fullTabName_nonempty (levelPrefix : jsstring) (trigger : Located) :
  isEmpty (if isEmpty levelPrefix then triggerName trigger
           else levelPrefix ++ js " > " ++ triggerName trigger) = false.
Proof.
  destruct levelPrefix as [|c p]; cbn [isEmpty]; [|reflexivity].
  unfold triggerName. apply orElse_nonempty. reflexivity.
Qed.

Section Retaining.

Variable okPrefix : jsstring -> Prop.
Variable I : World -> Prop.
Hypothesis I_local : collectorOnly I.
Hypothesis I_retained :
  forall prefix t, okPrefix prefix -> retained t = true ->
                   preserves I (collectOne prefix t).

Lemma retaining_collectVisible root prefix searchContext :
  okPrefix prefix -> preserves I (collectVisible root prefix searchContext).
Proof.
  intros Hp. unfold collectVisible. apply preserves_bind; [apply preserves_get|].
  intros w0. apply preserves_forEach_in. intros t Ht.
  apply I_retained; [exact Hp|].
  apply list_elem_of_In, filter_In in Ht. apply Ht.
Qed.

Hypothesis okPrefix_nonempty : forall prefix, isEmpty prefix = false -> okPrefix prefix.

Lemma retaining_processTrigger react root searchRoot levelPrefix level recurse trigger :
  (forall sr p l, preserves I (recurse sr p l)) ->
  preserves I (processTrigger react root searchRoot levelPrefix level recurse trigger).
Proof.
  intros Hrec. unfold processTrigger.
  apply preserves_bind; [apply preserves_get | intros w0].
  apply preserves_tryCatch; [|intros e; apply preserves_emit, I_local].
  repeat (apply preserves_bind;
          [first [ apply preserves_emit, I_local | apply preserves_call, I_local
                 | apply preserves_interact, I_local | apply preserves_tick, I_local
                 | apply preserves_get
                 | apply retaining_collectVisible, okPrefix_nonempty,
                     fullTabName_nonempty ]
          | intros ?]).
  destruct (closestParentIn _ _); [|apply preserves_ret].
  destruct (querySelector _ _); [|apply preserves_ret].
  destruct (isHTMLElement _); [apply Hrec | apply preserves_ret].
Qed.

Lemma retaining_processTabLevelFrom react budget root searchRoot levelPrefix level :
  preserves I (processTabLevelFrom react budget root searchRoot levelPrefix level).
Proof.
  revert searchRoot levelPrefix level.
  induction budget as [|budget IH]; intros searchRoot levelPrefix level; simpl.
  - apply preserves_emit, I_local.
  - apply preserves_bind; [apply preserves_get | intros w0].
    apply preserves_bind; [apply preserves_emit, I_local | intros _].
    apply preserves_forEach. intros trigger.
    apply retaining_processTrigger. intros sr p l. apply IH.
Qed.

Lemma retaining_processTabLevel react root searchRoot levelPrefix level :
  preserves I (processTabLevel react root searchRoot levelPrefix level).
Proof. unfold processTabLevel. apply retaining_processTabLevelFrom. Qed.

(** The whole walk of the hook's collector: what holds after the first pass
    holds of what is returned. *)
Lemma retaining_scan react container (w : World) :
  I (snd (collectVisible container (js "Initial Active Content") None
            (setCollector [] ∅ w))) ->
  exists result w',
    scanForTablesIncludingSubTabs react container w = (Ok result, w')
    /\ result = collected w' /\ I w'.
Proof.
  intros H0.
  assert (Hrun : returning (fun w' => w' = w)
                   (scanForTablesIncludingSubTabs react container)
                   (fun result w' => result = collected w' /\ I w')).
  { unfold scanForTablesIncludingSubTabs.
    eapply returning_bind with (R := fun _ w' => w' = setCollector [] ∅ w).
    { intros w' ->. exists tt. split; reflexivity. }
    intros _.
    eapply returning_bind; [apply returning_get|]. intros w0.
    eapply returning_bind with (R := fun _ => I).
    { intros w' [_ ->].
      destruct (total_collectVisible container (js "Initial Active Content") None
                  (setCollector [] ∅ w)) as [u Hu].
      exists u. split; [exact Hu | exact H0]. }
    intros _.
    eapply returning_bind with (R := fun _ => I).
    { apply returning_steps; [apply total_processTabLevel|].
      apply retaining_processTabLevel. }
    intros _.
    eapply returning_bind; [apply returning_get|]. intros w1.
    eapply returning_bind with (R := fun _ => I).
    { intros w' [_ Hw']. revert w' Hw'. apply returning_steps.
      - apply total_forEach. intros x. apply total_processTabLevel.
      - apply preserves_forEach. intros x. apply retaining_processTabLevel. }
    intros _.
    eapply returning_bind with (R := fun _ => I).
    { apply returning_steps.
      - apply total_forEach. intros x. apply total_restoreTrigger.
      - apply preserves_forEach. intros x.
        apply preserves_restoreTrigger, I_local. }
    intros _.
    eapply returning_bind with (R := fun _ => I).
    { apply returning_steps; [apply total_modify|].
      apply preserves_interact, I_local. }
    intros _.
    eapply returning_bind with (R := fun _ => I).
    { apply returning_steps; [apply total_collectVisible|].
      apply retaining_collectVisible, okPrefix_nonempty. reflexivity. }
    intros _.
    eapply returning_bind; [apply returning_get|]. intros w2.
    intros w' [-> Hw']. eexists. split; [reflexivity|]. split; [reflexivity|].
    eapply I_local; [| |exact Hw']; reflexivity. }
  destruct (Hrun w eq_refl) as (result & Hres & Hcol & HI).
  destruct (scanForTablesIncludingSubTabs react container w) as [r w'].
  cbn [fst snd] in *. subst r. exists result, w'. repeat split; assumption.
Qed.

End Retaining.

Lemma retainedEntries_local (P : DisplayedTable -> Prop) :
  collectorOnly (fun w => Forall P (collected w)).
Proof. intros w w' Hc _ H. rewrite Hc. exact H. Qed.

Lemma collectOne_adds (P : DisplayedTable -> Prop) (prefix : jsstring)
    (t : DisplayedTable) :
  P (labelled prefix t) ->
  preserves (fun w => Forall P (collected w)) (collectOne prefix t).
Proof.
  intros HP w H. rewrite collectOne_run. cbn [snd].
  destruct (element t) as [el|]; [|exact H].
  destruct (bool_decide (el ∈ seen w)); [exact H|].
  cbn [setCollector collected]. apply Forall_app. split; [exact H|].
  constructor; [exact HP | constructor].
Qed.


Lemma startsWithEntries_local entries : collectorOnly (startsWithEntries entries).
Proof. intros w w' Hc _ [rest H]. exists rest. rewrite Hc. exact H. Qed.

Lemma collectOne_startsWithEntries entries prefix t :
  preserves (startsWithEntries entries) (collectOne prefix t).
Proof.
  intros w [rest H]. rewrite collectOne_run. cbn [snd].
  destruct (element t) as [el|]; [|exists rest; exact H].
  destruct (bool_decide (el ∈ seen w)); [exists rest; exact H|].
  exists (rest ++ [labelled prefix t]). cbn [setCollector collected].
  rewrite H, app_assoc. reflexivity.
Qed.

(** A pass over tables that are all new and pairwise distinct adds an
    entry for each, in order. *)
Lemma forEach_collectOne_fresh (prefix : jsstring) (l : list DisplayedTable)
    (w : World) :
  NoDup (List.map element l) ->
  Forall (fun t => is_Some (element t)) l ->
  (forall el, Some el ∈ List.map element l -> el ∉ seen w) ->
  collected (snd (forEach l (collectOne prefix) w))
  = collected w ++ List.map (labelled prefix) l.
Proof.
  revert w. induction l as [|t l IH]; intros w Hnd Hsome Hnew.
  - cbn. rewrite app_nil_r. reflexivity.
  - cbn [forEach]. unfold bind. rewrite collectOne_run.
    cbn [List.map] in Hnd, Hnew. apply NoDup_cons in Hnd as [Hnotin Hnd].
    apply Forall_cons in Hsome as [[el Hel] Hsome].
    rewrite Hel in *.
    assert (Hfresh : el ∉ seen w) by (apply Hnew; left).
    rewrite bool_decide_eq_false_2 by exact Hfresh.
    rewrite IH; [| exact Hnd | exact Hsome |].
    + cbn [setCollector collected List.map]. rewrite <- app_assoc. reflexivity.
    + intros el' Hel'. cbn [setCollector seen].
      rewrite elem_of_union, elem_of_singleton. intros [-> | Hin].
      * apply Hnotin, Hel'.
      * apply (Hnew el'); [right; exact Hel' | exact Hin].
Qed.

Lemma visibleTables_have_elements (b : Browser) (container : nat) :
  Forall (fun t => is_Some (element t)) (visibleTables b container).
Proof.
  apply Forall_forall. intros t Ht.
  apply (scanForTables_has_element b container).
  apply list_elem_of_In. apply list_elem_of_In in Ht.
  unfold visibleTables in Ht. apply filter_In in Ht. apply Ht.
Qed.

Lemma first_pass_entries (prefix : jsstring) (container : nat) (w : World) :
  NoDup (List.map element (visibleTables (browser w) container)) ->
  collected (snd (collectVisible container prefix None (setCollector [] ∅ w)))
  = List.map (labelled prefix) (visibleTables (browser w) container).
Proof.
  intros Hnd. unfold collectVisible, bind at 1, get at 1.
  change (collected
            (snd (forEach (visibleTables (browser w) container) (collectOne prefix)
                    (setCollector [] ∅ w)))
          = List.map (labelled prefix) (visibleTables (browser w) container)).
  rewrite forEach_collectOne_fresh;
    [reflexivity | exact Hnd | apply visibleTables_have_elements |].
  intros el _. cbn. apply not_elem_of_empty.
Qed.

(** X14. The tables that are visible and have rows when the collector
    starts come first in the list it returns, in the order of the scan, under
    the label of the initial content: for each of them the entry holds the
    identifier of the scan with the label appended, the name behind the label,
    the element, and the row and column counts of the scan.  What the walk
    through the tabs finds is listed after them. *)
Theorem collector_first_pass_first
    (react : nat -> Interaction -> Browser -> Browser)
    (container : nat) (w : World) :
  NoDup (List.map element (visibleTables (browser w) container)) ->
  exists rest,
    fst (scanForTablesIncludingSubTabs react container w)
    = Ok (List.map (labelled (js "Initial Active Content"))
                   (visibleTables (browser w) container)
          ++ rest).
Proof.
  intros Hnd.
  set (entries := List.map (labelled (js "Initial Active Content"))
                           (visibleTables (browser w) container)).
  destruct (retaining_scan (fun _ => True) (startsWithEntries entries)
              (startsWithEntries_local entries)
              (fun prefix t _ _ => collectOne_startsWithEntries entries prefix t)
              (fun _ _ => Logic.I) react container w)
    as (result & w' & Hrun & Hres & [rest Hrest]).
  { exists []. rewrite first_pass_entries by exact Hnd. rewrite app_nil_r. reflexivity. }
  exists rest. rewrite Hrun. cbn [fst]. rewrite Hres, Hrest. reflexivity.
Qed.

Lemma collector_first_pass_first_witness :
  let w := Samples.world (Samples.tabsBrowser false) None in
  NoDup (List.map element (visibleTables (browser w) 70))
  /\ exists rest,
       fst (scanForTablesIncludingSubTabs Samples.tabsReact 70 w)
       = Ok (List.map (labelled (js "Initial Active Content"))
                      (visibleTables (browser w) 70)
             ++ rest).
Proof.
  intros w.
  assert (H : NoDup (List.map element (visibleTables (browser w) 70))).
  { vm_compute. repeat (constructor; [rewrite ?elem_of_cons, elem_of_nil;
                                       intros H; repeat destruct H as [H|H];
                                       try discriminate; exact H|]).
    constructor. }
  split; [exact H|].
  exact (collector_first_pass_first Samples.tabsReact 70 w H).
Defined.

(** *** The earlier collector *)

Lemma legacy_retaining_visitTrigger (I : World -> Prop) react root trigger :
  collectorOnly I ->
  (forall prefix t, retained t = true -> preserves I (collectOne prefix t)) ->
  preserves I (Legacy.visitTrigger react root trigger).
Proof.
  intros IL IR. unfold Legacy.visitTrigger.
  apply preserves_bind; [apply preserves_get | intros w0].
  apply preserves_tryCatch; [|intros e; apply preserves_emit; exact IL].
  repeat (apply preserves_bind;
          [first [ apply preserves_emit; exact IL | apply preserves_call; exact IL
                 | apply preserves_interact; exact IL | apply preserves_tick; exact IL
                 | apply preserves_get
                 | apply (retaining_collectVisible (fun _ => True) I
                            (fun prefix t _ => IR prefix t)); exact Logic.I ]
          | intros ?]).
  apply preserves_emit; exact IL.
Qed.

Lemma legacy_retaining_scan (I : World -> Prop) react container (w : World) :
  collectorOnly I ->
  (forall prefix t, retained t = true -> preserves I (collectOne prefix t)) ->
  I (snd (collectVisible container [] None (setCollector [] ∅ w))) ->
  exists result w',
    Legacy.scanForTablesIncludingSubTabs react container w = (Ok result, w')
    /\ result = collected w' /\ I w'.
Proof.
  intros IL IR H0.
  assert (Hrun : returning (fun w' => w' = w)
                   (Legacy.scanForTablesIncludingSubTabs react container)
                   (fun result w' => result = collected w' /\ I w')).
  { unfold Legacy.scanForTablesIncludingSubTabs.
    eapply returning_bind with (R := fun _ w' => w' = setCollector [] ∅ w).
    { intros w' ->. exists tt. split; reflexivity. }
    intros _.
    eapply returning_bind; [apply returning_get|]. intros w0.
    eapply returning_bind with (R := fun _ => I).
    { intros w' [_ ->].
      destruct (total_collectVisible container [] None (setCollector [] ∅ w))
        as [u Hu].
      exists u. split; [exact Hu | exact H0]. }
    intros _.
    eapply returning_bind; [apply returning_get|]. intros w1.
    eapply returning_bind with (R := fun _ => I).
    { intros w' [_ Hw']. revert w' Hw'. apply returning_steps;
        [apply total_emit | apply preserves_emit; exact IL]. }
    intros _.
    eapply returning_bind with (R := fun _ => I).
    { apply returning_steps.
      - apply total_forEach. intros x. apply legacy_total_visitTrigger.
      - apply preserves_forEach. intros x.
        apply legacy_retaining_visitTrigger; assumption. }
    intros _.
    eapply returning_bind with (R := fun _ => I).
    { apply returning_steps; [apply legacy_total_restoreFirst|].
      apply legacy_preserves_restoreFirst; assumption. }
    intros _.
    eapply returning_bind; [apply returning_get|]. intros w2.
    intros w' [-> Hw']. eexists. split; [reflexivity|]. split; [reflexivity|].
    eapply IL; [| |exact Hw']; reflexivity. }
  destruct (Hrun w eq_refl) as (result & Hres & Hcol & HI).
  destruct (Legacy.scanForTablesIncludingSubTabs react container w) as [r w'].
  cbn [fst snd] in *. subst r. exists result, w'. repeat split; assumption.
Qed.

(** X15. The earlier copy of the collector lists the tables that are
    visible and have rows when it starts first, in the order of the scan:
    under the names the scanner gave them, without a label, their identifiers
    ending in [-active], and marked visible.  The tables found behind the
    tabs follow, each marked visible and with at least one row. *)
Theorem legacy_collector_first_pass_first
    (react : nat -> Interaction -> Browser -> Browser)
    (container : nat) (w : World) :
  NoDup (List.map element (visibleTables (browser w) container)) ->
  exists rest,
    fst (Legacy.scanForTablesIncludingSubTabs react container w)
    = Ok (List.map
            (fun t => mkDisplayedTable (dt_id t ++ js "-active") (dt_name t)
                        (element t) (rowCount t) (columnCount t) true)
            (visibleTables (browser w) container)
          ++ rest)
    /\ Forall (fun t => isVisible t = true /\ (0 < rowCount t)%nat) rest.
Proof.
  intros Hnd.
  change (List.map
            (fun t => mkDisplayedTable (dt_id t ++ js "-active") (dt_name t)
                        (element t) (rowCount t) (columnCount t) true)
            (visibleTables (browser w) container))
    with (List.map (labelled []) (visibleTables (browser w) container)).
  set (entries := List.map (labelled []) (visibleTables (browser w) container)).
  set (P := fun t : DisplayedTable => isVisible t = true /\ (0 < rowCount t)%nat).
  set (I := fun w' : World => startsWithEntries entries w' /\ Forall P (collected w')).
  assert (IL : collectorOnly I).
  { intros w1 w2 Hc Hs [H1 H2]. split.
    - eapply startsWithEntries_local; eauto.
    - eapply (retainedEntries_local P); eauto. }
  assert (IR : forall prefix t, retained t = true -> preserves I (collectOne prefix t)).
  { intros prefix t Ht w1 [H1 H2]. split.
    - apply collectOne_startsWithEntries, H1.
    - revert w1 H2 H1. intros w1 H2 _. revert w1 H2. apply collectOne_adds.
      apply andb_true_iff in Ht as [_ Hrows]. apply Nat.ltb_lt in Hrows.
      split; [reflexivity | exact Hrows]. }
  destruct (legacy_retaining_scan I react container w IL IR)
    as (result & w' & Hrun & Hres & [[rest Hrest] Hall]).
  { split.
    - exists []. rewrite first_pass_entries by exact Hnd.
      rewrite app_nil_r. reflexivity.
    - apply (retaining_collectVisible (fun _ => True) (fun w' => Forall P (collected w'))).
      + intros prefix t _ Ht. apply collectOne_adds.
        apply andb_true_iff in Ht as [_ Hrows]. apply Nat.ltb_lt in Hrows.
        split; [reflexivity | exact Hrows].
      + exact Logic.I.
      + constructor. }
  exists rest. rewrite Hrun. cbn [fst]. rewrite Hres, Hrest.
  split; [reflexivity|].
  rewrite Hrest in Hall. apply Forall_app in Hall. apply Hall.
Qed.

Lemma legacy_collector_first_pass_first_witness :
  let w := Samples.world (Samples.tabsBrowser false) None in
  NoDup (List.map element (visibleTables (browser w) 70))
  /\ exists rest,
       fst (Legacy.scanForTablesIncludingSubTabs Samples.tabsReact 70 w)
       = Ok (List.map
               (fun t => mkDisplayedTable (dt_id t ++ js "-active") (dt_name t)
                           (element t) (rowCount t) (columnCount t) true)
               (visibleTables (browser w) 70)
             ++ rest)
       /\ Forall (fun t => isVisible t = true /\ (0 < rowCount t)%nat) rest.
Proof.
  intros w.
  assert (H : NoDup (List.map element (visibleTables (browser w) 70))).
  { vm_compute. repeat (constructor; [rewrite ?elem_of_cons, elem_of_nil;
                                       intros H; repeat destruct H as [H|H];
                                       try discriminate; exact H|]).
    constructor. }
  split; [exact H|].
  exact (legacy_collector_first_pass_first Samples.tabsReact 70 w H).
Defined.

(** The earlier collector on the two-tab sample page. *)
Example legacy_scan_on_tabsPage :
  (fun r => match r with
            | Ok l => List.map (fun t => (dt_id t, dt_name t, element t)) l
            | Throw _ => []
            end)
    (fst (Legacy.scanForTablesIncludingSubTabs Samples.tabsReact 70
            (Samples.world (Samples.tabsBrowser false) None)))
  = [(js "table-0-0-active", js "Sales by month", Some 76%nat);
     (js "table-1-0-active", js "Totals", Some 82%nat);
     (js "table-0-0-Leads", js "Leads" ++ [32; EMDASH; 32] ++ js "Leads by source",
      Some 79%nat)].
Proof. vm_compute. reflexivity. Qed.

(** ** The counts of the scan and the extraction *)

Lemma numberedRows_length options rows :
  length (numberedRows options rows) = length rows.
Proof. unfold numberedRows. apply length_imap. Qed.

(** X16. The counts the scanner reports agree with what the extraction
    reads from the same table.  [rowCount] counts every row, the header row
    included: the extraction returns one data row less when it takes the first
    row for the header row (it has a header cell, or [includeHeaders] is set),
    and [originalRowCount] of the metadata is [rowCount].  The headers are as
    many as [columnCount], plus one for the row numbers when they are asked
    for and there is a header; a table whose first row is not taken for the
    header has no headers at all, whatever [columnCount] says. *)
Theorem scan_and_extract_counts (b : Browser) (container index : nat)
    (table : Located) (options : Options) (w : World) :
  querySelectorAll (locate b container) selTable !! index = Some table ->
  locate b (nid (self table)) = table ->
  browser w = b ->
  failAfter w = None ->
  exists dt data,
    scanForTables b container !! index = Some dt
    /\ element dt = Some (nid (self table))
    /\ fst (extractTableData (nid (self table)) options w) = Ok data
    /\ (length (rows data) + (if headerTaken options table then 1 else 0))%nat
       = rowCount dt
    /\ length (headers data)
       = (if headerTaken options table
          then (columnCount dt
                + (if includeRowNumbers options && (0 <? columnCount dt)%nat
                   then 1 else 0))%nat
          else 0%nat)
    /\ metadata data
       = (if includeMetadata options
          then Some (mkMetadata (rowCount dt) (length (headers data))
                                (nowFormatted b))
          else None).
Proof.
  intros Htable Hloc Hb Hw. subst b.
  exists (scanTable (browser w) index table),
         (readTable (browser w) (nid (self table)) options).
  split; [unfold scanForTables; rewrite list_lookup_imap, Htable; reflexivity|].
  split; [reflexivity|].
  split; [apply extractTableData_returns, Hw|].
  destruct (readTable_rows (browser w) (nid (self table)) options) as [Hh Hr].
  rewrite Hloc in Hh, Hr.
  assert (Hheaders :
    headers (readTable (browser w) (nid (self table)) options)
    = let h := match querySelectorAll table selTr with
               | [] => []
               | first :: _ =>
                   if isHeaderRow options first then rowValues options first else []
               end in
      if includeRowNumbers options && (0 <? length h)%nat then js "#" :: h else h).
  { unfold readTable. cbn [headers]. rewrite Hloc, Hh. reflexivity. }
  split; [|split].
  - rewrite Hr. unfold headerTaken, scanTable. cbn [rowCount].
    destruct (querySelectorAll table selTr) as [|first rest]; [reflexivity|].
    destruct (isHeaderRow options first); rewrite numberedRows_length; cbn; lia.
  - rewrite Hheaders. unfold headerTaken, scanTable. cbn [columnCount].
    destruct (querySelectorAll table selTr) as [|first rest];
      [cbn; rewrite andb_false_r; reflexivity|].
    cbn [head]. destruct (isHeaderRow options first);
      [|cbn; rewrite andb_false_r; reflexivity].
    cbn zeta. unfold rowValues. rewrite length_map.
    destruct (includeRowNumbers options && _); cbn [length];
      rewrite length_map; lia.
  - unfold readTable. cbn [metadata headers]. rewrite Hloc.
    destruct (includeMetadata options); reflexivity.
Qed.

Lemma scan_and_extract_counts_witness :
  let b := Samples.salesBrowser in
  let table := Samples.located Samples.salesPage 2 in
  let w := Samples.world b None in
  querySelectorAll (locate b 1) selTable !! 0%nat = Some table
  /\ locate b (nid (self table)) = table
  /\ browser w = b
  /\ failAfter w = None
  /\ exists dt data,
       scanForTables b 1 !! 0%nat = Some dt
       /\ element dt = Some (nid (self table))
       /\ fst (extractTableData (nid (self table)) Samples.allOn w) = Ok data
       /\ (length (rows data) + (if headerTaken Samples.allOn table then 1 else 0))%nat
          = rowCount dt
       /\ length (headers data)
          = (if headerTaken Samples.allOn table
             then (columnCount dt
                   + (if includeRowNumbers Samples.allOn && (0 <? columnCount dt)%nat
                      then 1 else 0))%nat
             else 0%nat)
       /\ metadata data
          = (if includeMetadata Samples.allOn
             then Some (mkMetadata (rowCount dt) (length (headers data))
                                   (nowFormatted b))
             else None).
Proof.
  intros b table w.
  assert (H1 : querySelectorAll (locate b 1) selTable !! 0%nat = Some table)
    by (vm_compute; reflexivity).
  assert (H2 : locate b (nid (self table)) = table) by (vm_compute; reflexivity).
  split; [exact H1|]. split; [exact H2|]. split; [reflexivity|]. split; [reflexivity|].
  exact (scan_and_extract_counts b 1 0 table Samples.allOn w H1 H2 eq_refl eq_refl).
Defined.

(** ** The extracted values carry no surrounding white space *)

Lemma trimStart_app_solid (l : jsstring) (c : N) (r : jsstring) :
  isWhiteSpace c = false -> trimStart (l ++ c :: r) = trimStart l ++ c :: r.
Proof.
  intros Hc. induction l as [|d l IH]; cbn [app trimStart].
  - rewrite Hc. reflexivity.
  - destruct (isWhiteSpace d); [exact IH | reflexivity].
Qed.

Lemma trimStart_idem (s : jsstring) : trimStart (trimStart s) = trimStart s.
Proof.
  induction s as [|c s IH]; [reflexivity|]. cbn [trimStart].
  destruct (isWhiteSpace c) eqn:Hc; [exact IH|]. cbn [trimStart]. rewrite Hc. reflexivity.
Qed.

Lemma trimStart_head (s : jsstring) :
  match trimStart s with
  | [] => True
  | c :: _ => isWhiteSpace c = false
  end.
Proof.
  induction s as [|c s IH]; [exact Logic.I|]. cbn [trimStart].
  destruct (isWhiteSpace c) eqn:Hc; [exact IH | exact Hc].
Qed.

Lemma trimEnd_cons (c : N) (s : jsstring) :
  isWhiteSpace c = false -> trimEnd (c :: s) = c :: trimEnd s.
Proof.
  intros Hc. unfold trimEnd. cbn [rev].
  rewrite trimStart_app_solid by exact Hc. apply rev_unit.
Qed.

Lemma trimEnd_idem (s : jsstring) : trimEnd (trimEnd s) = trimEnd s.
Proof. unfold trimEnd. rewrite rev_involutive, trimStart_idem. reflexivity. Qed.

Lemma trim_idem (s : jsstring) : trim (trim s) = trim s.
Proof.
  unfold trim. pose proof (trimStart_head s) as Hhead.
  destruct (trimStart s) as [|c r]; [reflexivity|].
  rewrite trimEnd_cons by exact Hhead. cbn [trimStart]. rewrite Hhead.
  rewrite trimEnd_cons by exact Hhead. rewrite trimEnd_idem. reflexivity.
Qed.

Lemma trim_cons_solid (c : N) (t : jsstring) :
  isWhiteSpace c = false -> trim t = t -> trim (c :: t) = c :: t.
Proof.
  intros Hc Ht. unfold trim. cbn [trimStart]. rewrite Hc.
  rewrite trimEnd_cons by exact Hc. f_equal.
  rewrite <- Ht at 1. unfold trim. rewrite trimEnd_idem. exact Ht.
Qed.

Lemma trim_solid (s : jsstring) :
  Forall (fun c => isWhiteSpace c = false) s -> trim s = s.
Proof.
  induction 1 as [|c s Hc _ IH]; [reflexivity|]. apply trim_cons_solid; assumption.
Qed.

Lemma isDigit_solid (c : N) : isDigit c = true -> isWhiteSpace c = false.
Proof.
  unfold isDigit. intros H. apply andb_true_iff in H as [H1 H2].
  apply N.leb_le in H1, H2. unfold isWhiteSpace.
  repeat (apply orb_false_intro);
    try (apply N.eqb_neq; lia).
  apply andb_false_iff. left. apply N.leb_gt. lia.
Qed.

Lemma trim_toString (n : nat) : trim (toString n) = toString n.
Proof.
  apply trim_solid. unfold toString.
  eapply Forall_impl; [apply toStringN_digits|]. intros c. apply isDigit_solid.
Qed.

Lemma matchCurrencyClass_solid (s m : jsstring) :
  matchCurrencyClass s = Some m -> exists c, m = [c] /\ isWhiteSpace c = false.
Proof.
  unfold matchCurrencyClass. intros H.
  destruct (List.find _ s) as [c|] eqn:Hfind; [|discriminate].
  cbn in H. injection H as <-. exists c. split; [reflexivity|].
  apply find_some in Hfind as [_ Hc].
  repeat (apply orb_true_iff in Hc as [Hc|Hc]);
    apply N.eqb_eq in Hc; subst c; reflexivity.
Qed.

Lemma cellValue_trim (options : Options) (cell : Located) :
  trim (cellValue options cell) = cellValue options cell.
Proof.
  unfold cellValue.
  destruct (preserveFormatting options); [|apply trim_idem].
  destruct (hasCurrency _); [|apply trim_idem].
  destruct (_ && _); [|apply trim_idem].
  destruct (matchCurrencyClass _) as [m|] eqn:Hm; [|apply trim_idem].
  apply matchCurrencyClass_solid in Hm as (c & -> & Hc).
  cbn [app]. apply trim_cons_solid; [exact Hc | apply trim_idem].
Qed.

Lemma numberedRows_trimmed (options : Options) (rows : list Located) :
  Forall (Forall (fun v => trim v = v)) (numberedRows options rows).
Proof.
  apply Forall_forall. intros row Hrow. unfold numberedRows in Hrow.
  apply elem_of_lookup_imap_1 in Hrow as (i & r & -> & _).
  apply Forall_app. split.
  - unfold rowNumber. destruct (includeRowNumbers options); [|constructor].
    constructor; [apply trim_toString | constructor].
  - unfold rowValues. apply Forall_map, Forall_forall. intros cell _.
    apply cellValue_trim.
Qed.

(** X17. No value of an extracted table carries leading or trailing white
    space: every header and every cell of every row that [extractTableData]
    returns is its own [trim], also where a currency sign was put in front of
    the text and where a row number was added. *)
Theorem extractTableData_values_trimmed (table : nat) (options : Options)
    (w : World) :
  failAfter w = None ->
  exists data,
    fst (extractTableData table options w) = Ok data
    /\ Forall (fun v => trim v = v) (headers data)
    /\ Forall (Forall (fun v => trim v = v)) (rows data).
Proof.
  intros Hw. exists (readTable (browser w) table options).
  split; [apply extractTableData_returns, Hw|].
  destruct (readTable_rows (browser w) table options) as [Hh Hr].
  split.
  - unfold readTable. cbn [headers]. rewrite Hh.
    assert (Hrow : Forall (fun v => trim v = v)
                     match querySelectorAll (locate (browser w) table) selTr with
                     | [] => []
                     | first :: _ =>
                         if isHeaderRow options first then rowValues options first
                         else []
                     end).
    { destruct (querySelectorAll _ selTr) as [|first rest]; [constructor|].
      destruct (isHeaderRow options first); [|constructor].
      unfold rowValues. apply Forall_map, Forall_forall. intros cell _.
      apply cellValue_trim. }
    destruct (includeRowNumbers options && _); [|exact Hrow].
    constructor; [reflexivity | exact Hrow].
  - rewrite Hr. destruct (querySelectorAll _ selTr) as [|first rest]; [constructor|].
    destruct (isHeaderRow options first); apply numberedRows_trimmed.
Qed.

Lemma extractTableData_values_trimmed_witness :
  let w := Samples.world Samples.salesBrowser None in
  failAfter w = None
  /\ exists data,
       fst (extractTableData 2 Samples.allOn w) = Ok data
       /\ Forall (fun v => trim v = v) (headers data)
       /\ Forall (Forall (fun v => trim v = v)) (rows data).
Proof.
  intros w. split; [reflexivity|].
  exact (extractTableData_values_trimmed 2 Samples.allOn w eq_refl).
Defined.

(** ** The export dialog *)

Lemma getTotalSelectedRecords_none (s : AdvancedTabExportControls.State) :
  AdvancedTabExportControls.selectedOf s = [] ->
  AdvancedTabExportControls.getTotalSelectedRecords s = 0%nat.
Proof.
  intros H. unfold AdvancedTabExportControls.getTotalSelectedRecords.
  rewrite H. reflexivity.
Qed.

(** X18. [handleExport] of the dialog never throws, whatever the hook
    does.  With no ticked table it only shows the toast that asks to select
    one: the hook is not called and the page, the state of the dialog and the
    exporting flag stay as they are.  Otherwise it calls
    [exportDisplayedData] once, with the format, file name, options and tab
    name of the dialog and the ticked tables in the order of discovery; when
    the hook returns, the success toast names the format in capitals and the
    dialog is closed; when the hook throws, the error is logged once more,
    the failure toast is shown and the dialog stays as it was.  In either
    case the exporting flag is down afterwards. *)
Theorem handleExport_outcome (lib : PdfLibrary) (u : AdvancedTabExportControls.Ui) :
  let s := AdvancedTabExportControls.state u in
  let config :=
    mkExportConfig
      (AdvancedTabExportControls.formatOf (AdvancedTabExportControls.exportFormat s))
      (AdvancedTabExportControls.fileName s)
      (AdvancedTabExportControls.exportOptions s)
      (AdvancedTabExportControls.selectedOf s)
      (AdvancedTabExportControls.tabName s) in
  let r := exportDisplayedData lib config (AdvancedTabExportControls.page u) in
  let r' := AdvancedTabExportControls.handleExport lib None None u in
  fst r' = Ok tt
  /\ match AdvancedTabExportControls.selectedOf s with
     | [] =>
         snd r'
         = AdvancedTabExportControls.mkUi
             (AdvancedTabExportControls.page u) s
             (AdvancedTabExportControls.toasts u
              ++ [AdvancedTabExportControls.ToastError
                    (js "Please select at least one table to export")])
             (AdvancedTabExportControls.clipboard u)
     | _ :: _ =>
         isExporting (AdvancedTabExportControls.page (snd r')) = false
         /\ match fst r with
            | Ok _ =>
                AdvancedTabExportControls.page (snd r') = snd r
                /\ AdvancedTabExportControls.isDialogOpen
                     (AdvancedTabExportControls.state (snd r')) = false
                /\ AdvancedTabExportControls.toasts (snd r')
                   = AdvancedTabExportControls.toasts u
                     ++ [AdvancedTabExportControls.ToastSuccess
                           (AdvancedTabExportControls.toUpperCase
                              (AdvancedTabExportControls.formatName
                                 (AdvancedTabExportControls.exportFormat s))
                            ++ js " exported successfully")]
            | Throw e =>
                events (AdvancedTabExportControls.page (snd r'))
                = events (snd r) ++ [ConsoleError (js "Export failed:") e]
                /\ AdvancedTabExportControls.state (snd r') = s
                /\ AdvancedTabExportControls.toasts (snd r')
                   = AdvancedTabExportControls.toasts u
                     ++ [AdvancedTabExportControls.ToastError (js "Export failed")]
            end
     end.
Proof.
  intros s config r r'.
  pose proof (flag_bracket _ (AdvancedTabExportControls.page u)
                (steady_export_body lib config)) as Hflag.
  cbn zeta in Hflag. destruct Hflag as [Hdown _].
  change (isExporting (snd r) = false) in Hdown.
  subst r' r config. unfold AdvancedTabExportControls.handleExport,
    AdvancedTabExportControls.tryCatchUi, AdvancedTabExportControls.bindUi,
    AdvancedTabExportControls.optionalCall, AdvancedTabExportControls.retUi,
    AdvancedTabExportControls.getUi, AdvancedTabExportControls.lift.
  cbv beta iota zeta. fold s in Hdown |- *.
  destruct (AdvancedTabExportControls.selectedOf s) as [|t l] eqn:Hsel.
  - cbn. split; reflexivity.
  - cbn [length Nat.eqb].
    destruct (exportDisplayedData lib _ (AdvancedTabExportControls.page u))
      as [[[]|e] w']; cbn [fst snd] in Hdown |- *.
    + cbn. split; [reflexivity|]. split; [exact Hdown|]. repeat split; reflexivity.
    + cbn. split; [reflexivity|]. split; [exact Hdown|]. repeat split; reflexivity.
Qed.

Lemma total_rows_from (l : list DisplayedTable) (a : nat) :
  fold_left (fun sum table => (sum + rowCount table)%nat) l a
  = (a + fold_left (fun sum table => (sum + rowCount table)%nat) l 0)%nat.
Proof.
  revert a. induction l as [|t l IH]; intros a; cbn [fold_left]; [lia|].
  rewrite (IH (a + rowCount t)%nat), (IH (0 + rowCount t)%nat). lia.
Qed.

Lemma total_rows_zero (l : list DisplayedTable) :
  fold_left (fun sum table => (sum + rowCount table)%nat) l 0%nat = 0%nat
  <-> Forall (fun t => rowCount t = 0%nat) l.
Proof.
  induction l as [|t l IH]; cbn [fold_left].
  - split; [constructor | reflexivity].
  - rewrite total_rows_from. split.
    + intros H. constructor; [lia|]. apply IH. lia.
    + intros H. apply Forall_cons in H as [Ht Hl]. apply IH in Hl. lia.
Qed.

(** X19. The button of the dialog that starts the export is disabled while
    [getTotalSelectedRecords] is zero, and it is zero exactly when no ticked
    table has a row.  When it is not zero, [handleExport] does not stop at its
    own check of the selection: it calls the hook, which raises the exporting
    flag as the first thing the page sees. *)
Theorem export_button_reaches_the_hook (lib : PdfLibrary)
    (u : AdvancedTabExportControls.Ui) :
  let s := AdvancedTabExportControls.state u in
  (AdvancedTabExportControls.getTotalSelectedRecords s = 0%nat
   <-> Forall (fun t => rowCount t = 0%nat) (AdvancedTabExportControls.selectedOf s))
  /\ ((0 < AdvancedTabExportControls.getTotalSelectedRecords s)%nat ->
      exists rest,
        events (AdvancedTabExportControls.page
                  (snd (AdvancedTabExportControls.handleExport lib None None u)))
        = events (AdvancedTabExportControls.page u) ++ SetIsExporting true :: rest).
Proof.
  intros s. split; [apply total_rows_zero|].
  intros Hpos.
  set (config :=
         mkExportConfig
           (AdvancedTabExportControls.formatOf
              (AdvancedTabExportControls.exportFormat s))
           (AdvancedTabExportControls.fileName s)
           (AdvancedTabExportControls.exportOptions s)
           (AdvancedTabExportControls.selectedOf s)
           (AdvancedTabExportControls.tabName s)).
  pose proof (flag_bracket _ (AdvancedTabExportControls.page u)
                (steady_export_body lib config)) as Hflag.
  cbn zeta in Hflag. destruct Hflag as (_ & mid & Hev & _).
  change (events (snd (exportDisplayedData lib config
                         (AdvancedTabExportControls.page u)))
          = events (AdvancedTabExportControls.page u)
            ++ [SetIsExporting true] ++ mid ++ [SetIsExporting false]) in Hev.
  unfold AdvancedTabExportControls.handleExport,
    AdvancedTabExportControls.tryCatchUi, AdvancedTabExportControls.bindUi,
    AdvancedTabExportControls.optionalCall, AdvancedTabExportControls.retUi,
    AdvancedTabExportControls.getUi, AdvancedTabExportControls.lift.
  cbv beta iota zeta. fold s. subst config.
  destruct (AdvancedTabExportControls.selectedOf s) as [|t l] eqn:Hsel.
  - rewrite getTotalSelectedRecords_none in Hpos by exact Hsel. lia.
  - cbn [length Nat.eqb].
    destruct (exportDisplayedData lib _ (AdvancedTabExportControls.page u))
      as [[[]|e] w']; cbn [fst snd] in Hev |- *; cbn; rewrite Hev.
    + exists (mid ++ [SetIsExporting false]). reflexivity.
    + exists (mid ++ [SetIsExporting false; ConsoleError (js "Export failed:") e]).
      rewrite <- !app_assoc. reflexivity.
Qed.

(** The dialog over the sample page: one table is ticked, the export button
    is enabled, and a click exports the table and closes the dialog. *)
Example handleExport_on_sales :
  let r := AdvancedTabExportControls.handleExport
             (mkPdfLibrary 297 210 (fun _ => 100%Q)) None None
             DialogSamples.salesDialog in
  AdvancedTabExportControls.getTotalSelectedRecords
    (AdvancedTabExportControls.state DialogSamples.salesDialog) = 3%nat
  /\ fst r = Ok tt
  /\ events (AdvancedTabExportControls.page (snd r))
     = [SetIsExporting true;
        Download (js "Sales" ++ [LF] ++ js "Name,Revenue" ++ [LF]
                    ++ js "Alice," ++ [DQUOTE] ++ js "1,200" ++ [DQUOTE] ++ [LF]
                    ++ js "Bob,800" ++ [LF])
                 (js "report.csv");
        SetIsExporting false]
  /\ AdvancedTabExportControls.isDialogOpen
       (AdvancedTabExportControls.state (snd r)) = false
  /\ AdvancedTabExportControls.toasts (snd r)
     = [AdvancedTabExportControls.ToastSuccess (js "CSV exported successfully")].
Proof. vm_compute. repeat split; reflexivity. Qed.

(** ** The quick export buttons *)

(** The quick CSV export of the two-tab sample page: the three tables of
    the page, each in a file of its own. *)
Example handleAdvancedExport_on_tabsPage :
  let r := TableExportControls.handleAdvancedExport QuickSamples.quickReact
             (mkPdfLibrary 297 210 (fun _ => 100%Q)) QuickSamples.engine
             (js "report") (js "Sales") TableExportControls.ButtonCsv
             QuickSamples.quickUi in
  fst r = Ok tt
  /\ List.filter isArtifact (events (TableExportControls.page (snd r)))
     = [Download (js "10") (js "report-Initial_Active_Content___Sales_by_month.csv");
        Download (js "30") (js "report-Initial_Active_Content___Totals.csv");
        Download (js "20") (js "report-Leads___Leads_by_source.csv")]
  /\ TableExportControls.toasts (snd r)
     = [TableExportControls.ToastInfo
          (js "Scanning all tables and horizontal sub-tabs... This may take a moment.");
        TableExportControls.ToastInfo
          (js "Activating sub-tabs to collect all table data...");
        TableExportControls.ToastSuccess
          (js "Found 3 tables from: Initial Active Content: 2, Leads: 1");
        TableExportControls.ToastSuccess
          (js "Successfully exported 3 tables as CSV")].
Proof. vm_compute. repeat split; reflexivity. Qed.

Lemma collectOne_keeps_elements (prefix : jsstring) (t : DisplayedTable) :
  preserves (fun w => Forall (fun e => is_Some (element e)) (collected w))
            (collectOne prefix t).
Proof.
  intros w H. rewrite collectOne_run. cbn [snd].
  destruct (element t) as [el|] eqn:Hel; [|exact H].
  destruct (bool_decide (el ∈ seen w)); [exact H|].
  cbn [setCollector collected]. apply Forall_app. split; [exact H|].
  constructor; [|constructor]. unfold labelled. cbn [element]. rewrite Hel. eauto.
Qed.

(** What the collector returns refers to elements throughout. *)
Lemma scan_entries_have_elements react container (w w' : World)
    (result : list DisplayedTable) :
  scanForTablesIncludingSubTabs react container w = (Ok result, w') ->
  Forall (fun t => is_Some (element t)) result.
Proof.
  intros Hrun.
  set (I := fun w1 : World => Forall (fun e => is_Some (element e)) (collected w1)).
  destruct (retaining_scan (fun _ => True) I
              (retainedEntries_local (fun e => is_Some (element e)))
              (fun prefix t _ _ => collectOne_keeps_elements prefix t)
              (fun _ _ => Logic.I) react container w)
    as (result' & w'' & Hrun' & Hres & HI).
  { apply (retaining_collectVisible (fun _ => True) I
             (fun prefix t _ _ => collectOne_keeps_elements prefix t));
      [exact Logic.I | constructor]. }
  rewrite Hrun in Hrun'. injection Hrun' as -> ->. rewrite Hres. exact HI.
Qed.

Lemma omap_withElement_all (l : list DisplayedTable) :
  Forall (fun t => is_Some (element t)) l ->
  length (omap withElement l) = length l.
Proof.
  induction 1 as [|t l [el Hel] _ IH]; [reflexivity|].
  cbn [omap list_omap]. unfold withElement at 1. rewrite Hel. cbn. rewrite IH.
  reflexivity.
Qed.

(** The CSV export into separate files, from end to end. *)
Lemma exportDisplayedData_csv_separate (lib : PdfLibrary) (config : ExportConfig)
    (w : World) :
  format config = FormatCsv ->
  separateSheets (options config) = true ->
  failAfter w = None ->
  (1 < length (omap withElement (tables config)))%nat ->
  exists w',
    exportDisplayedData lib config w = (Ok tt, w')
    /\ events w'
       = events w ++ [SetIsExporting true]
         ++ List.map (separateFile config) (extracted config (browser w))
         ++ [SetIsExporting false]
    /\ isExporting w' = false.
Proof.
  intros Hfmt Hsep Hw Hsel.
  unfold exportDisplayedData. unfold bind at 1. rewrite setIsExporting_run.
  set (w1 := mkWorld _ true _ _ _ _ _).
  destruct (extractSelected_all (options config) (omap withElement (tables config))
              w1 Hw) as (w2 & Hrun & Hfa & Hev & Hex & Hsame).
  fold (extracted config (browser w1)) in Hrun.
  change (browser w1) with (browser w) in Hrun, Hsame.
  set (data := extracted config (browser w)) in *.
  unfold tryFinally, tryCatch, bind at 1. rewrite Hrun.
  assert (Hlen : length data = length (omap withElement (tables config))).
  { subst data. unfold extracted. apply length_map. }
  assert (Hzero : Nat.eqb (length data) 0 = false) by (apply Nat.eqb_neq; lia).
  rewrite Hzero, Hfmt.
  pose proof (forEach_download
    (fun tableData =>
       (createCSVContent tableData (options config),
        fileName config ++ js "-" ++ sanitizeName (td_name tableData) ++ js ".csv"))
    data w2) as Hdl.
  cbn [fst snd] in Hdl. cbn zeta in Hdl. rewrite Hfa in Hdl. cbn [downloadsMade] in Hdl.
  rewrite Nat.ltb_irrefl, firstn_all in Hdl.
  assert (Hcsv : exportToCSV data config w2
                 = forEach data
                     (fun tableData =>
                        downloadCSV (createCSVContent tableData (options config))
                          (fileName config ++ js "-"
                           ++ sanitizeName (td_name tableData) ++ js ".csv")) w2).
  { unfold exportToCSV. rewrite Hsep.
    replace (1 <? length data)%nat with true
      by (symmetry; apply Nat.ltb_lt; lia).
    reflexivity. }
  rewrite Hcsv. destruct Hdl as (Hok & Hevents & _ & _).
  destruct (forEach data _ w2) as [r3 w3]. cbn [fst snd] in Hok, Hevents. subst r3.
  cbv beta iota zeta delta [throw emit modify bind setIsExporting].
  eexists. split; [reflexivity|]. cbn [events isExporting].
  rewrite Hevents, Hev. subst w1. cbn [events].
  rewrite <- !app_assoc. split; reflexivity.
Qed.

(** X20. The quick CSV export writes one file per table found: when the
    page has a section container, the collector finds more than one table and
    no call fails during the export, [handleAdvancedExport] returns after the
    flag was raised, one file was downloaded for every table of the
    collector's list, in its order, and the flag was lowered.  Each file holds
    the CSV text of its table alone, read from the page as the scan left it:
    the metadata the configuration asks for is in none of them. *)
Theorem quick_csv_export_one_file_per_table
    (react : nat -> Interaction -> Browser -> Browser) (lib : PdfLibrary)
    (engine : TableExportControls.Engine) (baseFilename title : jsstring)
    (u : TableExportControls.Ui) (container : nat)
    (result : list DisplayedTable) (w' : World) :
  TableExportControls.sectionContainer (browser (TableExportControls.page u))
  = Some container ->
  scanForTablesIncludingSubTabs react container (TableExportControls.page u)
  = (Ok result, w') ->
  failAfter w' = None ->
  (1 < length result)%nat ->
  let config :=
    mkExportConfig FormatCsv baseFilename
      (TableExportControls.quickOptions TableExportControls.ButtonCsv) result title in
  let r := TableExportControls.handleAdvancedExport react lib engine baseFilename
             title TableExportControls.ButtonCsv u in
  fst r = Ok tt
  /\ events (TableExportControls.page (snd r))
     = events w' ++ [SetIsExporting true]
       ++ List.map
            (fun tableData =>
               Download (createCSVContent tableData (options config))
                        (baseFilename ++ js "-" ++ sanitizeName (td_name tableData)
                         ++ js ".csv"))
            (extracted config (browser w'))
       ++ [SetIsExporting false]
  /\ length (extracted config (browser w')) = length result.
Proof.
  intros Hsec Hscan Hw Hlen config r.
  pose proof (scan_entries_have_elements _ _ _ _ _ Hscan) as Helems.
  assert (Hall : length (omap withElement (tables config)) = length result)
    by (apply omap_withElement_all, Helems).
  destruct (exportDisplayedData_csv_separate lib config w' eq_refl eq_refl Hw)
    as (w'' & Hrun & Hev & _); [rewrite Hall; exact Hlen|].
  assert (E : exists toasts', r = (Ok tt, TableExportControls.mkUi w'' toasts')).
  { subst r. unfold TableExportControls.handleAdvancedExport,
      TableExportControls.tryCatchUi, TableExportControls.bindUi,
      TableExportControls.toast, TableExportControls.getUi, TableExportControls.lift.
    cbv beta iota zeta. cbn [TableExportControls.page TableExportControls.toasts].
    rewrite Hsec. cbv beta iota.
    cbn [TableExportControls.page TableExportControls.toasts].
    rewrite Hscan. cbv beta iota.
    destruct result as [|t1 rest]; [cbn in Hlen; lia|].
    cbn [length Nat.eqb]. cbv beta iota.
    cbn [TableExportControls.page TableExportControls.toasts].
    change (mkExportConfig (TableExportControls.formatOf TableExportControls.ButtonCsv)
              baseFilename
              (TableExportControls.quickOptions TableExportControls.ButtonCsv)
              (t1 :: rest) title) with config.
    rewrite Hrun. eexists. reflexivity. }
  destruct E as [toasts' ->]. cbn [fst snd TableExportControls.page].
  split; [reflexivity|]. split; [exact Hev|].
  unfold extracted. rewrite length_map. exact Hall.
Qed.

Lemma quick_csv_export_witness :
  let lib := mkPdfLibrary 297 210 (fun _ => 100%Q) in
  let u := QuickSamples.quickUi in
  let scan := scanForTablesIncludingSubTabs QuickSamples.quickReact 3
                (TableExportControls.page u) in
  let result :=
    match fst scan with
    | Ok l => l
    | Throw _ => []
    end in
  let w' := snd scan in
  let config :=
    mkExportConfig FormatCsv (js "report")
      (TableExportControls.quickOptions TableExportControls.ButtonCsv) result
      (js "Sales") in
  let r := TableExportControls.handleAdvancedExport QuickSamples.quickReact lib
             QuickSamples.engine (js "report") (js "Sales")
             TableExportControls.ButtonCsv u in
  TableExportControls.sectionContainer (browser (TableExportControls.page u)) = Some 3%nat
  /\ scan = (Ok result, w')
  /\ failAfter w' = None
  /\ (1 < length result)%nat
  /\ fst r = Ok tt
  /\ events (TableExportControls.page (snd r))
     = events w' ++ [SetIsExporting true]
       ++ List.map
            (fun tableData =>
               Download (createCSVContent tableData (options config))
                        (js "report" ++ js "-" ++ sanitizeName (td_name tableData)
                         ++ js ".csv"))
            (extracted config (browser w'))
       ++ [SetIsExporting false]
  /\ length (extracted config (browser w')) = length result.
Proof.
  intros lib u scan result w' config r.
  assert (H1 : TableExportControls.sectionContainer
                 (browser (TableExportControls.page u)) = Some 3%nat)
    by (vm_compute; reflexivity).
  assert (H2 : scan = (Ok result, w')) by (vm_compute; reflexivity).
  assert (H3 : failAfter w' = None) by (vm_compute; reflexivity).
  assert (H4 : (1 < length result)%nat) by (vm_compute; lia).
  split; [exact H1|]. split; [exact H2|]. split; [exact H3|]. split; [exact H4|].
  exact (quick_csv_export_one_file_per_table QuickSamples.quickReact lib
           QuickSamples.engine (js "report") (js "Sales") u 3 result w'
           H1 H2 H3 H4).
Defined.

(** X21. [handleAdvancedExport] never throws.  On a page without a section
    container (no element marked as the tabs, no [main], no [body]) the error
    of the engine is logged and shown in the failure toast; when the
    collector finds no table, the toast says so and the export of the hook is
    not called: the page is as the scan left it. *)
Theorem handleAdvancedExport_never_throws
    (react : nat -> Interaction -> Browser -> Browser) (lib : PdfLibrary)
    (engine : TableExportControls.Engine) (baseFilename title : jsstring)
    (exportFormat : TableExportControls.ButtonFormat) (u : TableExportControls.Ui) :
  let r := TableExportControls.handleAdvancedExport react lib engine baseFilename
             title exportFormat u in
  let shown :=
    TableExportControls.toasts u
    ++ [TableExportControls.ToastInfo
          (js "Scanning all tables and horizontal sub-tabs... This may take a moment.");
        TableExportControls.ToastInfo
          (js "Activating sub-tabs to collect all table data...")] in
  fst r = Ok tt
  /\ match TableExportControls.sectionContainer
             (browser (TableExportControls.page u)) with
     | None =>
         events (TableExportControls.page (snd r))
         = events (TableExportControls.page u)
           ++ [ConsoleError (js "Advanced export failed:")
                 (Error (TableExportControls.nullDereference engine))]
         /\ TableExportControls.toasts (snd r)
            = shown
              ++ [TableExportControls.ToastError
                    (js "Export failed: " ++ TableExportControls.nullDereference engine)]
     | Some container =>
         match scanForTablesIncludingSubTabs react container
                 (TableExportControls.page u) with
         | (Ok [], w') =>
             snd r
             = TableExportControls.mkUi w'
                 (shown ++ [TableExportControls.ToastError
                              (js "No tables found to export")])
         | _ => True
         end
     end.
Proof.
  intros r shown. split.
  - subst r. unfold TableExportControls.handleAdvancedExport,
      TableExportControls.tryCatchUi.
    match goal with |- context [match ?body u with _ => _ end] =>
      destruct (body u) as [[[]|e] u1] end; reflexivity.
  - subst r shown. unfold TableExportControls.handleAdvancedExport,
      TableExportControls.tryCatchUi, TableExportControls.bindUi,
      TableExportControls.toast, TableExportControls.getUi, TableExportControls.lift,
      TableExportControls.throwUi.
    cbv beta iota zeta. cbn [TableExportControls.page TableExportControls.toasts].
    destruct (TableExportControls.sectionContainer _) as [container|];
      cbv beta iota; cbn [TableExportControls.page TableExportControls.toasts].
    + destruct (scanForTablesIncludingSubTabs react container
                  (TableExportControls.page u)) as [[[|t l]|e] w']; try exact Logic.I.
      cbn [length Nat.eqb TableExportControls.page TableExportControls.toasts].
      rewrite <- !app_assoc. reflexivity.
    + cbv beta iota zeta delta [modify setCollector emit].
      cbn [TableExportControls.page TableExportControls.toasts events browser
           isExporting collected seen failAfter turn fst snd].
      rewrite <- !app_assoc. split; reflexivity.
Qed.

(** ** Copying the tables *)

Lemma numberedRows_plain (options : Options) (rows : list Located) :
  includeRowNumbers options = false ->
  numberedRows options rows = List.map (rowValues options) rows.
Proof.
  intros H. unfold numberedRows, rowNumber. rewrite H. cbn [app].
  change (imap (fun _ row => rowValues options row) rows
          = List.map (rowValues options) rows).
  apply (imap_const (rowValues options)).
Qed.

Lemma copiedCells_rowValues (b : Browser) (table : nat) (options : Options) :
  preserveFormatting options = false ->
  AdvancedTabExportControls.copiedCells b table
  = List.map (rowValues options) (querySelectorAll (locate b table) selTr).
Proof.
  intros H. unfold AdvancedTabExportControls.copiedCells, rowValues.
  apply List.map_ext. intros row. apply List.map_ext. intros cell.
  rewrite orElse_nil. symmetry. apply cellValue_plain, H.
Qed.

(** X22. What [handleCopyDisplayedData] puts on the clipboard for a table
    are the values a plain export of it gives: when the clipboard accepts the
    text and at least one table is ticked, the call returns with the text on
    the clipboard (a title, the time, and for every ticked table with an
    element its name, a line of hyphens of the length of the name, and its
    rows with the cells a tab apart) and the page untouched; and the cells
    copied for a table are, row by row, the header row (when the extraction
    takes one) and the data rows that [extractTableData] returns for it
    without formatting and without row numbers. *)
Theorem handleCopyDisplayedData_copies_what_is_exported
    (u : AdvancedTabExportControls.Ui) :
  failAfter (AdvancedTabExportControls.page u) = None ->
  (0 < length (AdvancedTabExportControls.selectedOf
                 (AdvancedTabExportControls.state u)))%nat ->
  let s := AdvancedTabExportControls.state u in
  let b := browser (AdvancedTabExportControls.page u) in
  let options := mkOptions false false false false false in
  let r := AdvancedTabExportControls.handleCopyDisplayedData u in
  fst r = Ok tt
  /\ AdvancedTabExportControls.clipboard (snd r)
     = Some ((AdvancedTabExportControls.tabName s ++ js " - Exported Data" ++ [LF])
             ++ (js "Generated: " ++ nowFormatted b ++ [LF; LF])
             ++ flat_map (AdvancedTabExportControls.copiedTable b)
                         (AdvancedTabExportControls.selectedOf s))
  /\ AdvancedTabExportControls.page (snd r) = AdvancedTabExportControls.page u
  /\ forall table : nat,
       exists data,
         fst (extractTableData table options (AdvancedTabExportControls.page u))
         = Ok data
         /\ AdvancedTabExportControls.copiedCells b table
            = (if headerTaken options (locate b table) then [headers data] else [])
              ++ rows data.
Proof.
  intros Hw Hsel s b options r. split; [|split; [|split]].
  - subst r. unfold AdvancedTabExportControls.handleCopyDisplayedData,
      AdvancedTabExportControls.tryCatchUi.
    match goal with |- context [match ?body u with _ => _ end] =>
      destruct (body u) as [[[]|e] u1] end; reflexivity.
  - subst r. unfold AdvancedTabExportControls.handleCopyDisplayedData,
      AdvancedTabExportControls.tryCatchUi, AdvancedTabExportControls.bindUi,
      AdvancedTabExportControls.getUi, AdvancedTabExportControls.writeText,
      AdvancedTabExportControls.bindUi, AdvancedTabExportControls.lift,
      AdvancedTabExportControls.toast.
    cbv beta iota zeta. fold s in Hsel |- *.
    destruct (AdvancedTabExportControls.selectedOf s) as [|t l];
      [cbn in Hsel; lia|].
    cbn [length Nat.eqb]. rewrite (tick_idle _ Hw). reflexivity.
  - subst r. unfold AdvancedTabExportControls.handleCopyDisplayedData,
      AdvancedTabExportControls.tryCatchUi, AdvancedTabExportControls.bindUi,
      AdvancedTabExportControls.getUi, AdvancedTabExportControls.writeText,
      AdvancedTabExportControls.bindUi, AdvancedTabExportControls.lift,
      AdvancedTabExportControls.toast.
    cbv beta iota zeta. fold s in Hsel |- *.
    destruct (AdvancedTabExportControls.selectedOf s) as [|t l];
      [cbn in Hsel; lia|].
    cbn [length Nat.eqb]. rewrite (tick_idle _ Hw). reflexivity.
  - intros table. exists (readTable b table options).
    split; [apply extractTableData_returns, Hw|].
    rewrite (copiedCells_rowValues b table options eq_refl).
    destruct (readTable_rows b table options) as [Hh Hr].
    rewrite Hr. unfold readTable, headerTaken. cbn [headers]. rewrite Hh.
    cbn [includeRowNumbers options andb].
    destruct (querySelectorAll (locate b table) selTr) as [|first rest];
      [reflexivity|].
    destruct (isHeaderRow options first);
      rewrite numberedRows_plain by reflexivity; reflexivity.
Qed.

Lemma handleCopyDisplayedData_witness :
  let u := DialogSamples.salesDialog in
  let s := AdvancedTabExportControls.state u in
  let b := browser (AdvancedTabExportControls.page u) in
  let options := mkOptions false false false false false in
  let r := AdvancedTabExportControls.handleCopyDisplayedData u in
  failAfter (AdvancedTabExportControls.page u) = None
  /\ (0 < length (AdvancedTabExportControls.selectedOf s))%nat
  /\ fst r = Ok tt
  /\ AdvancedTabExportControls.clipboard (snd r)
     = Some ((AdvancedTabExportControls.tabName s ++ js " - Exported Data" ++ [LF])
             ++ (js "Generated: " ++ nowFormatted b ++ [LF; LF])
             ++ flat_map (AdvancedTabExportControls.copiedTable b)
                         (AdvancedTabExportControls.selectedOf s))
  /\ AdvancedTabExportControls.page (snd r) = AdvancedTabExportControls.page u
  /\ forall table : nat,
       exists data,
         fst (extractTableData table options (AdvancedTabExportControls.page u))
         = Ok data
         /\ AdvancedTabExportControls.copiedCells b table
            = (if headerTaken options (locate b table) then [headers data] else [])
              ++ rows data.
Proof.
  intros u s b options r.
  assert (H2 : (0 < length (AdvancedTabExportControls.selectedOf s))%nat)
    by (vm_compute; lia).
  split; [reflexivity|]. split; [exact H2|].
  exact (handleCopyDisplayedData_copies_what_is_exported u eq_refl H2).
Defined.

(** The text copied from the sample page. *)
Example handleCopyDisplayedData_on_sales :
  AdvancedTabExportControls.clipboard
    (snd (AdvancedTabExportControls.handleCopyDisplayedData DialogSamples.salesDialog))
  = Some (js "Sales - Exported Data" ++ [LF]
          ++ js "Generated: January 1st, 2025 at 9:00 AM" ++ [LF; LF]
          ++ js "Sales" ++ [LF] ++ js "-----" ++ [LF]
          ++ js "Name" ++ [9] ++ js "Revenue" ++ [LF]
          ++ js "Alice" ++ [9] ++ js "1,200" ++ [LF]
          ++ js "Bob" ++ [9] ++ js "800" ++ [LF]
          ++ [LF]).
Proof. vm_compute. reflexivity. Qed.
